(** * Table reconstruction pipeline: stitching, splitting, rice filter

    A shallow embedding of the scripts of the pipeline

      - [PDF Table Scraper Script/PDFScraper.py]   (pdfplumber stitcher)
      - [OCR_table_extractor.py]                   (OCR stitcher)
      - [Excel Splitter Script/TableSplitter.py]   (segmenter)
      - [Rice Filter Script/RiceFilter.py]         (classifier)
      - [PDF Downloader Script/PDFDownloader.py]   (file names)

    together with the small part of Python's [str] and of pandas that
    they call.  Python strings are modelled as strings of 8-bit
    characters, so [lower], [isdigit], [isspace] and [len] are the
    ASCII ones.

    A cell of a frame is what [astype(str)] makes of it: a text, or a
    missing value, which pandas (3.0 and later) leaves missing.  The
    string methods pass over a missing value: [str.cat] leaves it out,
    [str.contains(..., na=False)] is false on it, [str.len().max()]
    does not count it, it equals nothing, and it is rendered as NaN.

    Frames carry labels.  The frames of the pdfplumber script
    ([pd.DataFrame(table)]), of the segmenter and of the classifier
    ([pd.read_excel(..., header=None)], [reset_index(drop=True)],
    [head]) always carry the default labels 0, 1, ... on rows and
    columns: they are values of [Pandas.DataFrame], which holds no
    labels.  The frames of the OCR script carry the labels [dropna]
    leaves them with: they are values of [Labelled.DataFrame]. *)

From Stdlib Require Import Ascii String DecimalString DecimalNat QArith Sorted.
From stdpp Require Import base option list list_monad gmap.

Local Open Scope string_scope.
Local Open Scope list_scope.
Local Open Scope nat_scope.


(** ** Python [str] *)

Module Str.

Definition LF : ascii := ascii_of_nat 10.
Definition TAB : ascii := ascii_of_nat 9.
Definition CR : ascii := ascii_of_nat 13.
Definition SPACE : ascii := ascii_of_nat 32.
Definition BACKSLASH : ascii := ascii_of_nat 92.

Definition len (s : string) : nat := String.length s.

(** [a + b] *)
Definition cat (a b : string) : string := String.append a b.

(** [sub in s] *)
Fixpoint contains (sub s : string) : bool :=
  match s with
  | EmptyString => String.prefix sub EmptyString
  | String _ s' => String.prefix sub s || contains sub s'
  end.

Definition lower_char (c : ascii) : ascii :=
  let n := nat_of_ascii c in
  if (65 <=? n) && (n <=? 90) then ascii_of_nat (n + 32) else c.

(** [s.lower()] *)
Fixpoint lower (s : string) : string :=
  match s with
  | EmptyString => EmptyString
  | String c s' => String (lower_char c) (lower s')
  end.

(** [c.isdigit()] *)
Definition isdigit (c : ascii) : bool :=
  let n := nat_of_ascii c in (48 <=? n) && (n <=? 57).

(** [sum(c.isdigit() for c in s)] *)
Fixpoint count_digits (s : string) : nat :=
  match s with
  | EmptyString => 0
  | String c s' => (if isdigit c then 1 else 0) + count_digits s'
  end.

(** [s.replace(c, "")] for a one-character [c] *)
Fixpoint remove_char (c : ascii) (s : string) : string :=
  match s with
  | EmptyString => EmptyString
  | String d s' =>
      if Ascii.eqb d c then remove_char c s' else String d (remove_char c s')
  end.

(** [sep.join(l)] *)
Definition join (sep : string) (l : list string) : string :=
  String.concat sep l.

Fixpoint spaces (n : nat) : string :=
  match n with
  | O => EmptyString
  | S n' => String SPACE (spaces n')
  end.

(** [s.ljust(w)] and [s.rjust(w)] *)
Definition ljust (w : nat) (s : string) : string := cat s (spaces (w - len s)).
Definition rjust (w : nat) (s : string) : string := cat (spaces (w - len s)) s.

(** [str(n)] for a non-negative integer *)
Definition of_nat (n : nat) : string := NilEmpty.string_of_uint (Nat.to_uint n).

(** the longest length in a list of strings, 0 for the empty list *)
Definition max_len (l : list string) : nat :=
  foldr (fun s m => Nat.max (len s) m) 0 l.

(** [c.isspace()] *)
Definition isspace (c : ascii) : bool :=
  let n := nat_of_ascii c in
  ((9 <=? n) && (n <=? 13)) || ((28 <=? n) && (n <=? 32)).

(** the scan of [s.split()]: the word that opens [s], empty when [s]
    opens with white space, and the words after it *)
Fixpoint split_scan (s : string) : string * list string :=
  match s with
  | EmptyString => (EmptyString, [])
  | String c s' =>
      let '(w, ws) := split_scan s' in
      if isspace c
      then (EmptyString, match w with EmptyString => ws | _ => w :: ws end)
      else (String c w, ws)
  end.

(** [s.split()]: the runs of characters between white space *)
Definition split (s : string) : list string :=
  let '(w, ws) := split_scan s in
  match w with EmptyString => ws | _ => w :: ws end.

(** [s.lstrip(chars)], [s.rstrip(chars)] and [s.strip(chars)], with
    [chars] given as a test on characters *)
Fixpoint lstrip_by (p : ascii -> bool) (s : string) : string :=
  match s with
  | EmptyString => EmptyString
  | String c s' => if p c then lstrip_by p s' else s
  end.

Fixpoint rstrip_by (p : ascii -> bool) (s : string) : string :=
  match s with
  | EmptyString => EmptyString
  | String c s' =>
      match rstrip_by p s' with
      | EmptyString => if p c then EmptyString else String c EmptyString
      | t => String c t
      end
  end.

Definition strip_by (p : ascii -> bool) (s : string) : string :=
  lstrip_by p (rstrip_by p s).

(** [s.strip()] *)
Definition strip (s : string) : string := strip_by isspace s.

(** [s.removeprefix(p)] when [s] starts with [p], [None] otherwise *)
Fixpoint after_prefix (p s : string) : option string :=
  match p with
  | EmptyString => Some s
  | String a p' =>
      match s with
      | EmptyString => None
      | String b s' => if Ascii.eqb a b then after_prefix p' s' else None
      end
  end.

End Str.

(** ** pandas [DataFrame] *)

Module Pandas.

(** a cell after [astype(str)]: a text, or [None] for a missing value *)
Abbreviation cell := (option string).

(** a row of texts *)
Definition texts (l : list string) : list cell := map Some l.

(** [pd.notna(v)] *)
Definition notna (v : cell) : bool :=
  match v with Some _ => true | None => false end.

(** [x == y] on two cells: a missing value equals nothing *)
Definition eq_cells (x y : cell) : bool :=
  match x, y with
  | Some a, Some b => String.eqb a b
  | _, _ => false
  end.

(** the texts of a row or column, its missing values left out *)
Definition present (cells : list cell) : list string := omap id cells.

(** A frame with the default labels: row [i] has label [i], column [c]
    has label [c]. *)
Record DataFrame : Type := mkDataFrame {
  ncols : nat;                    (* len(df.columns), df.shape[1] *)
  rows : list (list cell)         (* the rows of cells, top to bottom *)
}.

(** [len(df)], [df.shape[0]] *)
Definition nrows (df : DataFrame) : nat := length (rows df).

(** every row has one cell per column *)
Definition wf (df : DataFrame) : Prop :=
  Forall (fun r => length r = ncols df) (rows df).

(** [df.iloc[i]] for [i >= 0]; [None] is Python's [IndexError] *)
Definition iloc (df : DataFrame) (i : nat) : option (list cell) :=
  rows df !! i.

(** [df.iloc[a:b].reset_index(drop=True)] for [0 <= a], [0 <= b];
    slices never raise *)
Definition iloc_slice (df : DataFrame) (a b : nat) : DataFrame :=
  {| ncols := ncols df; rows := drop a (take b (rows df)) |}.

(** [df.head(n)] *)
Definition head (n : nat) (df : DataFrame) : DataFrame :=
  {| ncols := ncols df; rows := take n (rows df) |}.

(** [df.iloc[:, :n]] *)
Definition first_cols (n : nat) (df : DataFrame) : DataFrame :=
  {| ncols := Nat.min n (ncols df); rows := map (take n) (rows df) |}.

(** the cells of column [c], top to bottom *)
Definition column (df : DataFrame) (c : nat) : list cell :=
  map (fun r => nth c r None) (rows df).

(** [pd.concat([a, b], ignore_index=True)] for two frames with the
    default labels and as many columns: the columns of the two have the
    same labels, so the rows of [b] go under the rows of [a] as they
    are *)
Definition pd_concat (a b : DataFrame) : DataFrame :=
  {| ncols := ncols a; rows := rows a ++ rows b |}.

(** *** [DataFrame.to_string()]

    The rendering pandas gives with its defaults: no
    truncation of rows, columns or cell text.  A frame with no row or
    no column renders as three lines of information.  Otherwise the
    frame is a grid of text columns: the row labels, left-justified
    under an empty header, then one text column per data column, its
    label and its cells right-justified to a common width, every cell
    preceded by one space, a text with tab, carriage return and line
    feed written as backslash escapes, a missing value as NaN.
    [adjoin] pads every text column but the last with one more space
    and joins the lines with line feeds. *)

Definition escape_char (c : ascii) : string :=
  if Ascii.eqb c Str.TAB then String Str.BACKSLASH "t"
  else if Ascii.eqb c Str.CR then String Str.BACKSLASH "r"
  else if Ascii.eqb c Str.LF then String Str.BACKSLASH "n"
  else String c EmptyString.

Fixpoint escape (s : string) : string :=
  match s with
  | EmptyString => EmptyString
  | String c s' => Str.cat (escape_char c) (escape s')
  end.

(** what a cell is rendered as *)
Definition cell_text (v : cell) : string :=
  match v with
  | Some s => escape s
  | None => "NaN"
  end.

(** [pprint_thing] of a sequence of labels; at most
    [display.max_seq_items = 100] of them are shown *)
Definition max_seq_items : nat := 100.

Definition pprint_labels (labels : list nat) : string :=
  let shown := map Str.of_nat (take max_seq_items labels) in
  let body := Str.join ", " shown in
  let body :=
    if max_seq_items <? length labels then Str.cat body ", ..." else body in
  Str.cat "[" (Str.cat body "]").

Definition empty_info_line (index columns : list nat) : string :=
  Str.cat "Empty DataFrame"
    (String Str.LF (Str.cat "Columns: " (Str.cat (pprint_labels columns)
      (String Str.LF (Str.cat "Index: " (pprint_labels index)))))).

Definition formatted_index (index : list nat) : list string :=
  let labels := map Str.of_nat index in
  EmptyString :: map (Str.ljust (Str.max_len labels)) labels.

(** the text column of the data column at position [c], labelled
    [label] *)
Definition formatted_column (values : list (list cell)) (c label : nat)
  : list string :=
  let header := Str.of_nat label in
  let strings :=
    map (fun r => String Str.SPACE (cell_text (nth c r None))) values in
  let w := Nat.max (Str.len header) (Str.max_len strings) in
  Str.rjust w header :: map (Str.rjust w) strings.

Definition strcols (index columns : list nat) (values : list (list cell))
  : list (list string) :=
  formatted_index index :: imap (formatted_column values) columns.

(** [pandas.io.formats.printing.adjoin], for text columns of equal
    height [height] *)
Definition adjoin (space height : nat) (lists : list (list string)) : string :=
  let n := length lists in
  let padded :=
    imap (fun i lst =>
            let w := Str.max_len lst + (if i + 1 <? n then space else 0) in
            map (Str.ljust w) lst) lists in
  let line k := Str.join EmptyString (map (fun lst => nth k lst EmptyString) padded) in
  Str.join (String Str.LF EmptyString) (map line (seq 0 height)).

(** the rendering of the cells [values] under the row labels [index]
    and the column labels [columns] *)
Definition render (index columns : list nat) (values : list (list cell))
  : string :=
  if (length index =? 0) || (length columns =? 0)
  then empty_info_line index columns
  else adjoin 1 (S (length index)) (strcols index columns values).

Definition to_string (df : DataFrame) : string :=
  render (seq 0 (nrows df)) (seq 0 (ncols df)) (rows df).

End Pandas.

Import Pandas.

(** ** pandas [DataFrame] with labels of its own *)

Module Labelled.

Record DataFrame : Type := mkDataFrame {
  index : list nat;               (* df.index, the row labels *)
  columns : list nat;             (* df.columns, the column labels *)
  rows : list (list cell)         (* the rows of cells, top to bottom *)
}.

(** [len(df)], [df.shape[0]] and [len(df.columns)], [df.shape[1]] *)
Definition nrows (df : DataFrame) : nat := length (index df).
Definition ncols (df : DataFrame) : nat := length (columns df).

(** one row per row label, one cell per column in every row, no column
    label twice *)
Definition wf (df : DataFrame) : Prop :=
  length (rows df) = nrows df ∧ NoDup (columns df) ∧
  Forall (fun r => length r = ncols df) (rows df).

(** a frame of [Pandas.DataFrame] with its labels written out *)
Definition labelled (df : Pandas.DataFrame) : DataFrame :=
  {| index := seq 0 (Pandas.nrows df);
     columns := seq 0 (Pandas.ncols df);
     rows := Pandas.rows df |}.

(** [df.iloc[i]] for [i >= 0]; [None] is Python's [IndexError] *)
Definition iloc (df : DataFrame) (i : nat) : option (list cell) :=
  rows df !! i.

(** [df.iloc[a:]]: the rows keep their labels *)
Definition iloc_from (df : DataFrame) (a : nat) : DataFrame :=
  {| index := drop a (index df); columns := columns df;
     rows := drop a (rows df) |}.

(** [df.dropna(how='all', axis=0)]: the rows with a value that is not
    missing, under the labels they had *)
Definition dropna_rows (df : DataFrame) : DataFrame :=
  let kept :=
    filter (fun p => existsb notna p.2 = true) (zip (index df) (rows df)) in
  {| index := kept.*1; columns := columns df; rows := kept.*2 |}.

(** [df.dropna(how='all', axis=1)]: the columns with a value that is
    not missing, under the labels they had *)
Definition dropna_columns (df : DataFrame) : DataFrame :=
  let kept :=
    filter (fun c => existsb (fun r => notna (nth c r None)) (rows df) = true)
           (seq 0 (ncols df)) in
  {| index := index df;
     columns := map (fun c => nth c (columns df) 0) kept;
     rows := map (fun r => map (fun c => nth c r None) kept) (rows df) |}.

(** [df.apply(lambda x: x.map(lambda y: f(y) if isinstance(y, str) else y))] *)
Definition map_texts (f : string → string) (df : DataFrame) : DataFrame :=
  {| index := index df; columns := columns df;
     rows := map (map (fmap f)) (rows df) |}.

(** the cell of a row laid out on the labels [columns] that stands
    under label [l]; missing when no column has the label *)
Fixpoint at_label (columns : list nat) (row : list cell) (l : nat) : cell :=
  match columns, row with
  | c :: columns', v :: row' =>
      if c =? l then v else at_label columns' row' l
  | _, _ => None
  end.

(** [row.reindex(to)] of a row laid out on the labels [from] *)
Definition reindex (from to : list nat) (row : list cell) : list cell :=
  map (at_label from row) to.

(** the union of two label sequences that keeps the order of
    appearance ([sort=False]) *)
Definition union (a b : list nat) : list nat :=
  a ++ filter (fun l => l ∉ a) b.

(** [pd.concat([a, b], ignore_index=True)]: the columns of the result
    are the union of the two frames' column labels, every row is laid
    out on them, a cell under a label its frame does not have is
    missing; the rows are numbered anew *)
Definition pd_concat (a b : DataFrame) : DataFrame :=
  let cols := union (columns a) (columns b) in
  let vals := map (reindex (columns a) cols) (rows a)
              ++ map (reindex (columns b) cols) (rows b) in
  {| index := seq 0 (length vals); columns := cols; rows := vals |}.

(** [df.to_string()] *)
Definition to_string (df : DataFrame) : string :=
  render (index df) (columns df) (rows df).

End Labelled.

(** ** Excel Splitter Script/TableSplitter.py *)

Module TableSplitter.

(** [df.iloc[i].astype(str).str.cat(sep=" ").lower()]: [str.cat] leaves
    the missing values out *)
Definition row_text (row : list cell) : string :=
  Str.lower (Str.join " " (present row)).

(** [range(hi, lo - 1, -1)]: [hi, hi-1, ..., lo] *)
Definition range_down (hi lo : nat) : list nat := rev (seq lo (S hi - lo)).

(** the keyword tests of the loop body, in the order of the source *)
Definition starts_table (text : string) : bool :=
  if Str.contains "psd table" text then true
  else if Str.contains "trade matrix" text then true
  else if Str.contains "prices table" text then true
  else false.

(** the [for] loop of [find_true_table_start]: [Some (Some i)] when it
    returns [i], [Some None] when it runs to its end, [None] when
    [df.iloc[i]] raises *)
Fixpoint scan_back (df : DataFrame) (js : list nat) : option (option nat) :=
  match js with
  | [] => Some None
  | i :: js' =>
      row ← iloc df i;
      if starts_table (row_text row) then Some (Some i) else scan_back df js'
  end.

Definition find_true_table_start (df : DataFrame) (commodity_idx : nat)
  : option nat :=
  let limit := Nat.max 0 (commodity_idx - 15) in
  found ← scan_back df (range_down commodity_idx limit);
  match found with
  | Some i => Some i
  | None => Some (Nat.max 0 (commodity_idx - 2))
  end.

(** one row of [mask]: some cell contains 'Commodity', whatever the
    case; [na=False] on a missing value *)
Definition is_commodity_row (row : list cell) : bool :=
  existsb (fun v => match v with
                    | Some text => Str.contains "commodity" (Str.lower text)
                    | None => false
                    end) row.

(** [df.index[mask].tolist()], counting labels from [i] *)
Fixpoint index_where (i : nat) (mask : list bool) : list nat :=
  match mask with
  | [] => []
  | b :: mask' =>
      if b then i :: index_where (S i) mask' else index_where (S i) mask'
  end.

Definition commodity_indices (df : DataFrame) : list nat :=
  index_where 0 (map is_commodity_row (rows df)).

(** one turn of the slicing loop: the bounds [current_start] and
    [current_end] of table [i] *)
Definition cut (table_starts : list nat) (n i : nat) : option (nat * nat) :=
  current_start ← table_starts !! i;
  current_end ← (if i + 1 <? length table_starts
                 then table_starts !! (i + 1) else Some n);
  let current_start := if i =? 0 then 0 else current_start in
  Some (current_start, current_end).

(** the row spans the loop slices, in order *)
Definition table_spans (df : DataFrame) : option (list (nat * nat)) :=
  match commodity_indices df with
  | [] => Some [(0, nrows df)]
  | _ =>
      table_starts ← mapM (find_true_table_start df) (commodity_indices df);
      mapM (cut table_starts (nrows df)) (seq 0 (length table_starts))
  end.

Definition split_mixed_tables (df : DataFrame) : option (list DataFrame) :=
  match commodity_indices df with
  | [] => Some [df]
  | _ =>
      spans ← table_spans df;
      Some (map (fun se => iloc_slice df se.1 se.2) spans)
  end.

(** the naming of the tables of one sheet in
    [process_splitting_workflow]: the sheet's name for a single table,
    [f"{sheet_name}_P{idx+1}"] otherwise *)
Definition name_tables (sheet_name : string) (extracted_tables : list DataFrame)
  : list (string * DataFrame) :=
  match extracted_tables with
  | [table] => [(sheet_name, table)]
  | _ =>
      imap (fun idx table =>
              (Str.cat sheet_name (Str.cat "_P" (Str.of_nat (idx + 1))), table))
           extracted_tables
  end.

(** the loop over the sheets of one workbook: [all_separated_tables];
    [None] when [split_mixed_tables] raises *)
Definition all_separated_tables (sheets : list (string * DataFrame))
  : option (list (string * DataFrame)) :=
  parts ← mapM (fun sheet =>
                  extracted_tables ← split_mixed_tables sheet.2;
                  Some (name_tables sheet.1 extracted_tables)) sheets;
  Some (concat parts).

(** [sheet_name[:31]] *)
Definition safe_sheet_name (sheet_name : string) : string :=
  String.substring 0 31 sheet_name.

End TableSplitter.

(** ** Python numbers

    [a / b] on two non-negative integers is true division.  Python
    rounds the quotient to a double; the quotients below are compared
    with the constants 0.02, 0.08 and with [n / 2], and for operands
    under 10^15 (text lengths here) the rounded comparison and the exact
    one agree, so the quotient is kept exact. *)

Definition true_div (a b : nat) : Q :=
  (inject_Z (Z.of_nat a) / inject_Z (Z.of_nat b))%Q.

(** [x < y] on such numbers *)
Definition Qlt_bool (x y : Q) : bool := negb (Qle_bool y x).

(** ** Rice Filter Script/RiceFilter.py *)

Module RiceFilter.

Definition stop_words : list string :=
  [" the "; " is "; " that "; " are "; " with "; " they "; " was "].

Definition is_narrative_text (df : DataFrame) : bool :=
  let full_text := Str.lower (to_string df) in
  let stop_word_count :=
    foldl (fun count word =>
             if Str.contains word full_text then count + 1 else count)
          0 stop_words in
  if 2 <=? stop_word_count then true else false.

(** check 1 of [is_valid_data_structure]: the loop over the first five
    columns; [true] when no column makes it return.  [str.len().max()]
    passes over the missing values. *)
Definition cell_length_ok (df : DataFrame) : bool :=
  let subset := first_cols 5 df in
  forallb (fun col => negb (100 <? Str.max_len (present (column subset col))))
          (seq 0 (ncols subset)).

(** check 2 of [is_valid_data_structure], on the rendered text *)
Definition digit_density_ok (text_blob : string) : bool :=
  let total_chars := Str.len text_blob in
  let digit_count := Str.count_digits text_blob in
  if total_chars =? 0 then false
  else
    let density := true_div digit_count total_chars in
    if Qlt_bool density 0.02 then false else true.

Definition is_valid_data_structure (df : DataFrame) : bool :=
  if negb (cell_length_ok df) then false
  else digit_density_ok (to_string df).

(** the [for] loop of priority 1 over the rows [df.iloc[i]],
    [i < min(20, len(df))]: [Some v] when it returns [v], [None] when
    it runs to its end *)
Fixpoint label_scan (top_rows : list (list cell)) : option bool :=
  match top_rows with
  | [] => None
  | row :: rest =>
      let row_text := TableSplitter.row_text row in
      if Str.contains "commodity" row_text then
        if Str.contains "rice" row_text then Some true
        else if Str.contains "corn" row_text || Str.contains "wheat" row_text
             then Some false
             else label_scan rest
      else label_scan rest
  end.

Definition header_chunk (df : DataFrame) : string :=
  Str.lower (to_string (head 20 df)).

(** priority 2: the checks after the label loop *)
Definition inspect_unlabeled (df : DataFrame) : bool :=
  if is_narrative_text df then false
  else if negb (is_valid_data_structure df) then false
  else
    let has_rice := Str.contains "rice" (header_chunk df) in
    let has_corn := Str.contains "corn" (header_chunk df) in
    let has_wheat := Str.contains "wheat" (header_chunk df) in
    if has_rice && negb (has_corn || has_wheat) then true else false.

(** priority 1: [Some v] when the function returns [v] there *)
Definition trust_the_label (df : DataFrame) : option bool :=
  if Str.contains "commodity" (header_chunk df)
  then label_scan (take (Nat.min 20 (nrows df)) (rows df))
  else None.

Definition is_strictly_rice_table (df : DataFrame) : bool :=
  match trust_the_label df with
  | Some verdict => verdict
  | None => inspect_unlabeled df
  end.

End RiceFilter.

(** ** PDF Table Scraper Script/PDFScraper.py *)

Module PDFScraper.

(** the dict [{'page': ..., 'df': ...}]; this script builds a new dict
    for every merge and never updates one *)
Record piece : Type := mkPiece { page : nat; df : DataFrame }.

Definition are_tables_mergeable
    (prev_df curr_df : DataFrame) (prev_page curr_page : nat) : bool :=
  if negb (curr_page =? prev_page + 1) then false
  else if negb (ncols prev_df =? ncols curr_df) then false
  else true.

(** one turn of the stitching loop of step 2, on
    [(final_tables, current_merged)] *)
Definition stitch_turn (st : list DataFrame * piece) (next_piece : piece)
  : list DataFrame * piece :=
  let '(final_tables, current_merged) := st in
  if are_tables_mergeable (df current_merged) (df next_piece)
                          (page current_merged) (page next_piece)
  then
    let df_prev := df current_merged in
    let df_next := df next_piece in
    let merged_df := pd_concat df_prev df_next in
    (final_tables, {| page := page next_piece; df := merged_df |})
  else (final_tables ++ [df current_merged], next_piece).

(** step 2 of [process_pdfs_with_stitching] *)
Definition stitch_pieces (extracted_pieces : list piece) : list DataFrame :=
  match extracted_pieces with
  | [] => []
  | first :: rest =>
      let '(final_tables, current_merged) :=
        foldl stitch_turn ([], first) rest in
      final_tables ++ [df current_merged]
  end.

(** [clean_and_normalize(table)] on the rows pdfplumber gives, whose
    cells are a text or [None]: [pd.DataFrame(table)] has as many
    columns as the longest row and fills shorter rows with missing
    values; [fillna("")] turns every missing value into the empty text *)
Definition clean_and_normalize (table : list (list (option string)))
  : DataFrame :=
  let width := foldr (fun r m => Nat.max (length r) m) 0 table in
  {| ncols := width;
     rows := map (fun r => map (fun v => Some (default EmptyString v)) r
                           ++ replicate (width - length r) (Some EmptyString))
                 table |}.

(** step 1 of [process_pdfs_with_stitching], on the pages of one PDF
    with their page numbers and the tables [extract_tables] finds *)
Definition extracted_pieces
    (pages : list (nat * list (list (list (option string))))) : list piece :=
  flat_map (fun pg =>
              map (fun table => {| page := pg.1; df := clean_and_normalize table |})
                  pg.2)
           pages.

(** step 3: the sheet names [f"Table_{i+1}"] with their tables *)
Definition sheets (final_tables : list DataFrame) : list (string * DataFrame) :=
  imap (fun i df => (Str.cat "Table_" (Str.of_nat (i + 1)), df)) final_tables.

End PDFScraper.

(** ** OCR_table_extractor.py *)

Module OCR_table_extractor.

Definition is_valid_table (df : Labelled.DataFrame) : bool :=
  if (Labelled.nrows df <? 2) || (Labelled.ncols df <? 2) then false
  else
    let text_blob :=
      Str.remove_char Str.LF
        (Str.remove_char Str.SPACE (Labelled.to_string df)) in
    let total_chars := Str.len text_blob in
    if total_chars =? 0 then false
    else
      let digit_count := Str.count_digits text_blob in
      Qle_bool 0.08 (true_div digit_count total_chars).

(** the value of a dict [{'page': ..., 'df': ...}] *)
Record entry : Type := mkEntry { page : nat; df : Labelled.DataFrame }.

(** The dicts are objects: [stitch_tables] holds references to the
    dicts of its argument and assigns to their keys.  The store maps
    a reference to the dict's present value. *)
Abbreviation ref := nat.
Abbreviation store := (gmap nat entry).

(** [sum([1 for i, x in enumerate(row_0_new) if x == row_0_old[i]])],
    counting positions from [i]; [None] when [row_0_old[i]] raises *)
Fixpoint match_count (i : nat) (row_0_new row_0_old : list cell)
  : option nat :=
  match row_0_new with
  | [] => Some 0
  | x :: rest =>
      y ← row_0_old !! i;
      n ← match_count (S i) rest row_0_old;
      Some ((if eq_cells x y then 1 else 0) + n)
  end.

(** the [if] of check 3: the frame that is appended *)
Definition drop_repeated_header (curr_df next_df : Labelled.DataFrame)
  : option Labelled.DataFrame :=
  row_0_new ← Labelled.iloc next_df 0;
  row_0_old ← Labelled.iloc curr_df 0;
  count ← match_count 0 row_0_new row_0_old;
  if Qlt_bool (true_div (length row_0_new) 2) (inject_Z (Z.of_nat count))
  then Some (Labelled.iloc_from next_df 1)
  else Some next_df.

(** one turn of the loop, on the store, the list [stitched] and the
    reference [current_entry]; [None] when the turn raises *)
Definition stitch_turn (st : store * list ref * ref) (next_entry : ref)
  : option (store * list ref * ref) :=
  let '(h, stitched, current_entry) := st in
  cur ← h !! current_entry;
  nxt ← h !! next_entry;
  let curr_df := df cur in
  let next_df := df nxt in
  let is_consecutive := page nxt =? page cur + 1 in
  let is_same_width := Labelled.ncols curr_df =? Labelled.ncols next_df in
  if is_consecutive && is_same_width then
    next_df ← drop_repeated_header curr_df next_df;
    let merged_df := Labelled.pd_concat curr_df next_df in
    let h := <[current_entry := {| page := page cur; df := merged_df |}]> h in
    let h := <[current_entry := {| page := page nxt; df := merged_df |}]> h in
    Some (h, stitched, current_entry)
  else
    Some (h, stitched ++ [current_entry], next_entry).

Fixpoint stitch_loop (st : store * list ref * ref) (rest : list ref)
  : option (store * list ref * ref) :=
  match rest with
  | [] => Some st
  | next_entry :: rest' =>
      st' ← stitch_turn st next_entry;
      stitch_loop st' rest'
  end.

(** [stitch_tables(table_list)] run in store [h]: the store it leaves
    and the list it returns *)
Definition stitch_tables (h : store) (table_list : list ref)
  : option (store * list ref) :=
  match table_list with
  | [] => Some (h, [])
  | first :: rest =>
      '(h', stitched, current_entry) ← stitch_loop (h, [], first) rest;
      Some (h', stitched ++ [current_entry])
  end.

(** the clean-up of one text cell in [process_pdf]:
    [" ".join(y.split())] *)
Definition collapse_whitespace (y : string) : string :=
  Str.join " " (Str.split y).

(** the clean-up of [table.df] in [process_pdf]: the two [dropna], then
    the clean-up of the text cells.  [table.df] carries the default
    labels; what is left of it keeps the labels it had. *)
Definition cleanup (table_df : DataFrame) : Labelled.DataFrame :=
  let df := Labelled.labelled table_df in
  let df := Labelled.dropna_columns (Labelled.dropna_rows df) in
  Labelled.map_texts collapse_whitespace df.

(** part A of [process_pdf], on the frames [table.df] of every page in
    the order [extract_tables] gives them: the dicts appended to
    [raw_tables] *)
Definition collect_raw_tables (extracted_tables : list (nat * list DataFrame))
  : list entry :=
  flat_map (fun '(page_idx, tables) =>
              map (fun df => {| page := page_idx + 1; df := df |})
                  (filter (fun df => is_valid_table df = true)
                          (map cleanup tables)))
           extracted_tables.

(** [raw_tables] as a list of new dicts: reference [i] is the [i]-th *)
Definition alloc (raw_tables : list entry) : store * list ref :=
  (map_seq 0 raw_tables, seq 0 (length raw_tables)).

(** parts A and B of [process_pdf]: the entries of [final_tables] *)
Definition final_tables (extracted_tables : list (nat * list DataFrame))
  : option (list entry) :=
  let '(h, table_list) := alloc (collect_raw_tables extracted_tables) in
  '(h', stitched) ← stitch_tables h table_list;
  mapM (fun r => h' !! r) stitched.

(** part C: the sheet names [f"Table_{idx+1}_EndsP{entry['page']}"]
    with their tables *)
Definition sheets (final_tables : list entry)
  : list (string * Labelled.DataFrame) :=
  imap (fun idx entry =>
          (Str.cat "Table_" (Str.cat (Str.of_nat (idx + 1))
             (Str.cat "_EndsP" (Str.of_nat (page entry)))), df entry))
       final_tables.

End OCR_table_extractor.

(** ** PDF Downloader Script/PDFDownloader.py *)

Module PDFDownloader.

Definition QUOTE : ascii := ascii_of_nat 34.

(** what [.+] takes at the head of [s]: the characters before the first
    line feed *)
Fixpoint rest_of_line (s : string) : string :=
  match s with
  | EmptyString => EmptyString
  | String c s' =>
      if Ascii.eqb c Str.LF then EmptyString else String c (rest_of_line s')
  end.

(** the first element of [re.findall('filename=(.+)', cd)]: the group of
    the leftmost place where 'filename=' is followed by a character
    other than a line feed; [None] when the list is empty *)
Fixpoint first_filename (cd : string) : option string :=
  match cd with
  | EmptyString => None
  | String _ cd' =>
      match Str.after_prefix "filename=" cd with
      | Some rest =>
          match rest_of_line rest with
          | EmptyString => first_filename cd'
          | fname => Some fname
          end
      | None => first_filename cd'
      end
  end.

(** [get_filename_from_cd(cd)]; the header is [None] when the response
    has none *)
Definition get_filename_from_cd (cd : option string) : option string :=
  match cd with
  | None => None
  | Some EmptyString => None
  | Some cd =>
      match first_filename cd with
      | None => None
      | Some fname => Some (Str.strip_by (Ascii.eqb QUOTE) fname)
      end
  end.

(** [links], from the lines of links.txt *)
Definition links (lines : list string) : list string :=
  map Str.strip (filter (fun line => Str.strip line <> EmptyString) lines).

End PDFDownloader.

(** ** Vocabulary of the statements *)

Module Spec.

(** [spans] are [lo, e1), [e1, e2), ..., [ek, hi): each span starts
    where the one before ends, none runs backwards *)
Fixpoint tiles (lo hi : nat) (spans : list (nat * nat)) : Prop :=
  match spans with
  | [] => lo = hi
  | se :: rest => se.1 = lo ∧ se.1 ≤ se.2 ∧ tiles se.2 hi rest
  end.

(** the spans that hold row [r] *)
Definition holding (r : nat) (spans : list (nat * nat)) : list (nat * nat) :=
  filter (fun se => se.1 ≤ r < se.2) spans.

(** [x] is a run of consecutive characters of [y] *)
Definition within (x y : string) : Prop :=
  ∃ a b, y = Str.cat a (Str.cat x b).

(** the concatenated text of a row: its texts in their order, one
    space between a text and the next; a missing value is no text *)
Fixpoint concatenated (row : list cell) : string :=
  match row with
  | [] => EmptyString
  | None :: rest => concatenated rest
  | Some text :: rest =>
      if existsb notna rest
      then Str.cat text (String " " (concatenated rest))
      else text
  end.

Definition title_markers : list string :=
  ["psd table"; "trade matrix"; "prices table"].

(** row [j] of [df] holds one of the title markers in its concatenated
    text, lower-cased *)
Definition title_row (df : DataFrame) (j : nat) : Prop :=
  ∃ row marker,
    rows df !! j = Some row ∧ marker ∈ title_markers ∧
    within marker (Str.lower (concatenated row)).

(** each start is at most the next one, the last at most [n] *)
Fixpoint ascending_to (n : nat) (starts : list nat) : Prop :=
  match starts with
  | [] => True
  | s :: rest => s ≤ hd n rest ∧ ascending_to n rest
  end.

(** the slicing loop written by recursion on [table_starts]; [i] is
    the position of the head *)
Fixpoint cuts (i : nat) (starts : list nat) (n : nat) : list (nat * nat) :=
  match starts with
  | [] => []
  | s :: rest => ((if i =? 0 then 0 else s), hd n rest) :: cuts (S i) rest n
  end.

(** the row names one of the three crops *)
Definition names_crop (row : list cell) : bool :=
  let text := TableSplitter.row_text row in
  Str.contains "rice" text || Str.contains "corn" text
  || Str.contains "wheat" text.

(** the row carries the marker 'commodity' *)
Definition labelled (row : list cell) : bool :=
  Str.contains "commodity" (TableSplitter.row_text row).

(** [row] is row [i] of [df], among the first 20, and the first of
    them that satisfies [P] *)
Definition first_row (P : list cell → bool) (df : DataFrame)
    (i : nat) (row : list cell) : Prop :=
  i < 20 ∧ rows df !! i = Some row ∧ P row = true ∧
  ∀ j row', j < i → rows df !! j = Some row' → P row' = false.

(** the rule "the first marker row decides, a marker row without a
    crop name hands over to the checks on unlabeled data" *)
Definition first_marker_row_decides (df : DataFrame) : Prop :=
  Str.contains "commodity" (RiceFilter.header_chunk df) = true →
  ∀ i row, first_row labelled df i row →
    let text := TableSplitter.row_text row in
    (Str.contains "rice" text = true →
       RiceFilter.trust_the_label df = Some true) ∧
    (Str.contains "rice" text = false →
     Str.contains "corn" text = true ∨ Str.contains "wheat" text = true →
       RiceFilter.trust_the_label df = Some false) ∧
    (names_crop row = false → RiceFilter.trust_the_label df = None).

(** the quotient of digit characters to all characters of a text *)
Definition digit_density (text : string) : Q :=
  true_div (Str.count_digits text) (Str.len text).


(** the concatenated text of a grid: the texts of its cells, row after
    row *)
Definition grid_text (grid : list (list cell)) : string :=
  Str.join EmptyString (present (concat grid)).

(** [s] without its spaces and line feeds *)
Fixpoint unspaced (s : string) : string :=
  match s with
  | EmptyString => EmptyString
  | String c s' =>
      if Ascii.eqb c Str.SPACE || Ascii.eqb c Str.LF
      then unspaced s' else String c (unspaced s')
  end.

(** what is left of the rendering of a frame without its spaces and
    line feeds: the column labels, then row after row the row label and
    the cells as they are rendered *)
Definition labels_and_cells
    (index columns : list nat) (values : list (list cell)) : string :=
  Str.cat (Str.join EmptyString (map Str.of_nat columns))
    (Str.join EmptyString
       (map (fun p => Str.cat (Str.of_nat p.1)
                        (Str.join EmptyString
                           (map (fun v => unspaced (cell_text v)) p.2)))
            (zip index values))).

(** the width of the text column of the data column at position [c]:
    that of its label, or of its widest cell after a space *)
Definition column_width (values : list (list cell)) (c label : nat) : nat :=
  Nat.max (Str.len (Str.of_nat label))
          (foldr Nat.max 0
             (map (fun r => S (Str.len (cell_text (nth c r None)))) values)).

(** the width of a line of the rendering: the widest row label, the
    text columns, and a space after every text column but the last *)
Definition line_width
    (index columns : list nat) (values : list (list cell)) : nat :=
  Str.max_len (map Str.of_nat index)
  + list_sum (imap (column_width values) columns)
  + length columns.

(** C9 as it is stated, on the concatenated text of the grid *)
Definition density_of_cells_decides (df : DataFrame) : Prop :=
  RiceFilter.digit_density_ok (to_string df) = true ↔
  (0.02 <= digit_density (grid_text (rows df)))%Q.


(** C10 as it is stated, on the concatenated text of the table *)
Definition admitted_on_cell_density (df : Labelled.DataFrame) : Prop :=
  OCR_table_extractor.is_valid_table df = true →
  2 ≤ Labelled.nrows df ∧ 2 ≤ Labelled.ncols df ∧
  (0.08 <= digit_density (unspaced (grid_text (Labelled.rows df))))%Q.

(** the two conditions of a merge: the fragment lies on the page after
    the chain's last page, and has as many columns as the chain *)
Definition adjacent_same_width
    (chain_page page chain_width width : nat) : Prop :=
  page = chain_page + 1 ∧ chain_width = width.

(** the positions at which two rows hold the same text *)
Definition matching (row_new row_old : list cell) : nat :=
  length (filter (fun p => is_Some p.1 ∧ p.1 = p.2) (zip row_new row_old)).

(** the rows of the fragment that the repeated-header rule leaves out
    of a merge: the first one, when strictly more than half of its
    cells equal the cells of the chain's first row, and none otherwise *)
Definition repeated_header (chain fragment : Labelled.DataFrame) : nat :=
  match Labelled.rows chain !! 0, Labelled.rows fragment !! 0 with
  | Some row_old, Some row_new =>
      if decide (length row_new < 2 * matching row_new row_old) then 1 else 0
  | _, _ => 0
  end.

(** frame [d] holds the text [s] in row [r], in the column labelled
    [l] *)
Definition text_at (d : Labelled.DataFrame) (r l : nat) (s : string) : Prop :=
  ∃ row j,
    Labelled.rows d !! r = Some row ∧ Labelled.columns d !! j = Some l ∧
    row !! j = Some (Some s).

(** [merged] is [chain] with the rows of [fragment] from row [k] on
    appended: it has the columns of both, the rows of [chain] and then
    those of [fragment], and every text where it was, row for row and
    column label for column label; no other text is in it *)
Definition appended_from (k : nat) (chain fragment merged : Labelled.DataFrame)
  : Prop :=
  Labelled.wf merged ∧
  Labelled.index merged = seq 0 (Labelled.nrows merged) ∧
  Labelled.nrows merged
  = Labelled.nrows chain + (Labelled.nrows fragment - k) ∧
  (∀ l, l ∈ Labelled.columns merged ↔
        l ∈ Labelled.columns chain ∨ l ∈ Labelled.columns fragment) ∧
  ∀ r l s,
    text_at merged r l s ↔
    text_at chain r l s
    ∨ ∃ r', r = Labelled.nrows chain + r' ∧ text_at fragment (k + r') l s.

(** the dict at [r] holds a rectangular frame with a row *)
Definition ready (h : gmap nat OCR_table_extractor.entry) (r : nat) : Prop :=
  ∃ e, h !! r = Some e ∧ Labelled.wf (OCR_table_extractor.df e) ∧
       0 < Labelled.nrows (OCR_table_extractor.df e).

(** the places of a sequence of pieces, after [prev], where a piece is
    not on the page after the piece before it or has another width *)
Fixpoint breaks (prev : PDFScraper.piece) (rest : list PDFScraper.piece)
  : nat :=
  match rest with
  | [] => 0
  | q :: rest' =>
      (if (PDFScraper.page q =? PDFScraper.page prev + 1)
          && (ncols (PDFScraper.df prev) =? ncols (PDFScraper.df q))
       then 0 else 1) + breaks q rest'
  end.

(** no character of [s] is white space *)
Fixpoint spaceless (s : string) : bool :=
  match s with
  | EmptyString => true
  | String c s' => negb (Str.isspace c) && spaceless s'
  end.

(** a word: some characters, none of them white space *)
Definition is_word (w : string) : Prop :=
  w ≠ EmptyString ∧ spaceless w = true.

(** [s] without its white space *)
Fixpoint solid (s : string) : string :=
  match s with
  | EmptyString => EmptyString
  | String c s' => if Str.isspace c then solid s' else String c (solid s')
  end.

(** every character of [s] is a digit *)
Fixpoint all_digits (s : string) : bool :=
  match s with
  | EmptyString => true
  | String c s' => Str.isdigit c && all_digits s'
  end.

(** no character of [s] is [c] *)
Fixpoint lacks (c : ascii) (s : string) : bool :=
  match s with
  | EmptyString => true
  | String d s' => negb (Ascii.eqb d c) && lacks c s'
  end.

(** a rectangular frame of at least two rows and two columns *)
Definition table_like (d : Labelled.DataFrame) : Prop :=
  Labelled.wf d ∧ 2 ≤ Labelled.nrows d ∧ 2 ≤ Labelled.ncols d.

(** the dict at [r] holds such a frame *)
Definition holds_table (h : gmap nat OCR_table_extractor.entry) (r : nat)
  : Prop :=
  ∃ e, h !! r = Some e ∧ table_like (OCR_table_extractor.df e).

End Spec.

(** ** Frames used as examples *)

Module Examples.

(** [n] times the letter x *)
Fixpoint filler (n : nat) : string :=
  match n with
  | O => EmptyString
  | S n' => String "x" (filler n')
  end.

(** a frame of texts *)
Definition frame (ncols : nat) (grid : list (list string)) : DataFrame :=
  mkDataFrame ncols (map texts grid).

(** an anchor on row 3 under a title on row 1 *)
Definition titled : DataFrame :=
  frame 1 [["x"]; ["PSD Table"]; ["y"]; ["Commodity"]; ["1"]].

(** a title on row 0 and sixteen plain rows under it *)
Definition title_far_above : DataFrame :=
  frame 1 (["psd table"] :: replicate 16 ["x"]).

(** a title whose two words stand in two cells with a missing value
    between them, over an anchor on row 3 *)
Definition title_over_a_gap : DataFrame :=
  mkDataFrame 3
    [[Some "PSD"; None; Some "Table"]; texts ["a"; "b"; "c"];
     texts ["d"; "e"; "f"]; texts ["Commodity"; "Rice"; "g"]].

(** a marker row without a crop name above a marker row that names
    rice, with corn mentioned elsewhere *)
Definition label_on_later_row : DataFrame :=
  frame 1 [["Commodity"]; ["Commodity: Rice"]; ["corn"]].

(** anchors on rows 2 and 6 and no title row *)
Definition two_anchors : DataFrame :=
  frame 1 [["h"]; ["x"]; ["Commodity"]; ["a"]; ["b"]; ["c"];
           ["Commodity"]; ["d"]].

(** no row and three columns *)
Definition no_rows : DataFrame := mkDataFrame 3 [].

(** two rows and two columns of empty texts *)
Definition empty_texts : DataFrame := frame 2 [[""; ""]; [""; ""]].

(** one cell without a digit *)
Definition no_digit : DataFrame := frame 1 [["abcdefghij"]].

(** two rows, one column; the cells hold 100 characters, 2 of them
    digits; renders to 311 characters, 5 of them digits *)
Definition two_in_a_hundred : DataFrame :=
  frame 1 [[Str.cat (filler 98) "11"]; [""]].

(** two rows, one column; renders to 200 characters, 4 of them digits *)
Definition two_percent : DataFrame :=
  frame 1 [[Str.cat (filler 62) "7"]; [filler 63]].

(** six rows, two columns; renders to 1000 characters, 19 of them
    digits *)
Definition one_point_nine_percent : DataFrame :=
  frame 2
    ([Str.cat (filler 58) "12345678901"; filler 68]
     :: replicate 5 [filler 69; filler 68]).

(** two fragments of one table on pages 1 and 2, the second repeating
    the header, and a fragment on page 2 that opens with data *)
Definition header : list cell := texts ["Country"; "Commodity"; "Year"].

Definition page_1 : DataFrame :=
  mkDataFrame 3 [header; texts ["Brazil"; "Rice"; "2023"]].

Definition page_2 : DataFrame :=
  mkDataFrame 3 [header; texts ["India"; "Rice"; "2023"]].

Definition page_2_data : DataFrame :=
  frame 3 [["Brazil"; "Rice"; "2023"]; ["India"; "Rice"; "2023"]].

(** the merged frame of the two fragments, without the repeated header *)
Definition pages_1_2 : Labelled.DataFrame :=
  Labelled.mkDataFrame [0; 1; 2] [0; 1; 2]
    [header; texts ["Brazil"; "Rice"; "2023"]; texts ["India"; "Rice"; "2023"]].

(** the store after [raw_tables] got the two fragments, and the list
    [raw_tables] itself *)
Definition two_dicts : gmap nat OCR_table_extractor.entry :=
  map_seq 0 [OCR_table_extractor.mkEntry 1 (Labelled.labelled page_1);
             OCR_table_extractor.mkEntry 2 (Labelled.labelled page_2)].

Definition raw_tables : list nat := [0; 1].

(** two rows and two columns of letters *)
Definition letters : DataFrame := frame 2 [["a"; "b"]; ["c"; "d"]].

(** ten rows of two cells of seven letters, and the same with a row of
    missing values after the fifth *)
Definition ten_rows : DataFrame :=
  frame 2 (replicate 10 ["abcdefg"; "abcdefg"]).

Definition ten_rows_and_a_blank : DataFrame :=
  mkDataFrame 2
    (replicate 5 (texts ["abcdefg"; "abcdefg"]) ++ [[None; None]]
     ++ replicate 5 (texts ["abcdefg"; "abcdefg"])).

(** two tables of four columns as the OCR gives them, the first with
    nothing in its last column, the second with nothing in its second *)
Definition last_column_blank : DataFrame :=
  mkDataFrame 4
    [[Some "Country"; Some "2021"; Some "2022"; None];
     [Some "Brazil"; Some "11"; Some "12"; None]].

Definition second_column_blank : DataFrame :=
  mkDataFrame 4
    [[Some "India"; None; Some "21"; Some "22"];
     [Some "Japan"; None; Some "31"; Some "32"]].

(** a sheet name of 29 characters *)
Definition long_sheet_name : string := filler 29.

End Examples.

(** * Proofs *)

(** ** Strings *)

Ltac cat_cons :=
  repeat change (Str.cat (String ?c ?a) ?b) with (String c (Str.cat a b)) in *;
  repeat change (Str.cat EmptyString ?b) with b in *.

Lemma cat_nil_r s : Str.cat s EmptyString = s.
Proof.
  induction s as [|c s IH]; [done|].
  change (String c (Str.cat s EmptyString) = String c s). by rewrite IH.
Qed.

Lemma cat_assoc a b c : Str.cat (Str.cat a b) c = Str.cat a (Str.cat b c).
Proof.
  induction a as [|d a IH]; [done|].
  change (String d (Str.cat (Str.cat a b) c) = String d (Str.cat a (Str.cat b c))).
  by rewrite IH.
Qed.

Lemma len_cat a b : Str.len (Str.cat a b) = Str.len a + Str.len b.
Proof.
  induction a as [|d a IH]; [done|].
  change (S (Str.len (Str.cat a b)) = S (Str.len a + Str.len b)).
  by rewrite IH.
Qed.

Lemma lower_cat a b : Str.lower (Str.cat a b) = Str.cat (Str.lower a) (Str.lower b).
Proof. induction a as [|c a IH]; simpl; [done|]. by rewrite <- IH. Qed.

Lemma join_empty_cons w ws :
  Str.join EmptyString (w :: ws) = Str.cat w (Str.join EmptyString ws).
Proof.
  unfold Str.join. simpl. destruct ws as [|w' ws]; [|done].
  simpl. symmetry. apply cat_nil_r.
Qed.

Lemma join_cons_cons sep x y l :
  Str.join sep (x :: y :: l) = Str.cat x (Str.cat sep (Str.join sep (y :: l))).
Proof. reflexivity. Qed.

Lemma contains_cons sub c s :
  Str.contains sub (String c s)
  = String.prefix sub (String c s) || Str.contains sub s.
Proof. reflexivity. Qed.

Lemma prefix_cat p : ∀ s, String.prefix p s = true ↔ ∃ b, s = Str.cat p b.
Proof.
  induction p as [|a p IH]; intros s.
  - split; [intros _; by exists s|]. intros _. by destruct s.
  - destruct s as [|c s].
    + split; [done|]. intros [b Hb]. cat_cons. done.
    + simpl. destruct (ascii_dec a c) as [->|Hne].
      * rewrite IH. split; intros [b Hb]; exists b; cat_cons.
        -- by rewrite Hb.
        -- by injection Hb.
      * split; [done|]. intros [b Hb]. cat_cons. injection Hb as ? ?. done.
Qed.

Lemma contains_within sub s : Str.contains sub s = true ↔ Spec.within sub s.
Proof.
  induction s as [|c s IH].
  - change (Str.contains sub EmptyString) with (String.prefix sub EmptyString).
    rewrite prefix_cat. split.
    + intros [b Hb]. by exists EmptyString, b.
    + intros (a & b & Hab). destruct a; cat_cons; [by exists b|done].
  - rewrite contains_cons, orb_true_iff, prefix_cat, IH. split.
    + intros [[b Hb]|(a & b & Hab)].
      * by exists EmptyString, b.
      * exists (String c a), b. cat_cons. by rewrite Hab.
    + intros (a & b & Hab). destruct a as [|d a]; cat_cons.
      * left. by exists b.
      * right. exists a, b. by injection Hab.
Qed.

Lemma within_refl x : Spec.within x x.
Proof. exists EmptyString, EmptyString. cat_cons. by rewrite cat_nil_r. Qed.

Lemma within_trans x y z :
  Spec.within x y → Spec.within y z → Spec.within x z.
Proof.
  intros (a & b & ->) (c & d & ->).
  exists (Str.cat c a), (Str.cat b d). by rewrite !cat_assoc.
Qed.

Lemma within_cat_l x a : Spec.within x (Str.cat a x).
Proof. exists a, EmptyString. by rewrite cat_nil_r. Qed.

Lemma within_cat_r x b : Spec.within x (Str.cat x b).
Proof. by exists EmptyString, b. Qed.

Lemma within_lower x y :
  Spec.within x y → Spec.within (Str.lower x) (Str.lower y).
Proof. intros (a & b & ->). eexists _, _. by rewrite !lower_cat. Qed.

Lemma within_join sep x l : x ∈ l → Spec.within x (Str.join sep l).
Proof.
  induction l as [|y l IH]; [by intros ?%elem_of_nil|].
  intros [->|Hin]%elem_of_cons.
  - destruct l as [|z l]; [apply within_refl|].
    rewrite join_cons_cons. apply within_cat_r.
  - destruct l as [|z l]; [by apply elem_of_nil in Hin|].
    rewrite join_cons_cons.
    apply within_trans with (Str.join sep (z :: l)); [by apply IH|].
    rewrite <- cat_assoc. apply within_cat_l.
Qed.

(** ** The text of a rendering *)

Lemma all_digits_of_nat n : Spec.all_digits (Str.of_nat n) = true.
Proof.
  unfold Str.of_nat. induction (Nat.to_uint n); simpl; done.
Qed.

Lemma len_spaces n : Str.len (Str.spaces n) = n.
Proof. induction n as [|n IH]; [done|]. unfold Str.len in *. simpl. by rewrite IH. Qed.

Lemma len_ljust w s : Str.len (Str.ljust w s) = Nat.max w (Str.len s).
Proof. unfold Str.ljust. rewrite len_cat, len_spaces. lia. Qed.

Lemma len_rjust w s : Str.len (Str.rjust w s) = Nat.max w (Str.len s).
Proof. unfold Str.rjust. rewrite len_cat, len_spaces. lia. Qed.

Lemma max_len_cons s l :
  Str.max_len (s :: l) = Nat.max (Str.len s) (Str.max_len l).
Proof. reflexivity. Qed.

Lemma max_len_bound l s : s ∈ l → Str.len s ≤ Str.max_len l.
Proof.
  induction 1 as [s l|s t l _ IH]; rewrite max_len_cons; lia.
Qed.

(** a list of texts of one length, when it is not empty *)
Lemma max_len_const w l :
  l ≠ [] → Forall (fun s => Str.len s = w) l → Str.max_len l = w.
Proof.
  intros Hne Hall. induction Hall as [|s l Hs Hl IH]; [done|].
  rewrite max_len_cons, Hs. destruct l as [|t l]; [simpl; lia|].
  rewrite IH by done. lia.
Qed.

Lemma len_join_empty l :
  Str.len (Str.join EmptyString l) = list_sum (map Str.len l).
Proof.
  induction l as [|s l IH]; [done|].
  rewrite join_empty_cons, len_cat, IH. done.
Qed.

(** lines of one length, joined by line feeds *)
Lemma len_join_lines w lines :
  Forall (fun s => Str.len s = w) lines →
  Str.len (Str.join (String Str.LF EmptyString) (lines))
  = length lines * w + (length lines - 1).
Proof.
  induction 1 as [|s l Hs Hl IH]; [done|].
  destruct l as [|t l].
  - change (Str.join _ [s]) with s. rewrite Hs. simpl. lia.
  - rewrite join_cons_cons, !len_cat, IH, Hs.
    change (Str.len (String Str.LF EmptyString)) with 1.
    cbn [length]. lia.
Qed.

(** *** Without the spaces and line feeds *)

Lemma remove_unspaced s :
  Str.remove_char Str.LF (Str.remove_char Str.SPACE s) = Spec.unspaced s.
Proof.
  induction s as [|c s IH]; [done|].
  cbn [Str.remove_char Spec.unspaced].
  destruct (Ascii.eqb c Str.SPACE) eqn:Hspace; [done|].
  cbn [Str.remove_char orb].
  destruct (Ascii.eqb c Str.LF); [done|]. by rewrite IH.
Qed.

Lemma unspaced_cat a b :
  Spec.unspaced (Str.cat a b) = Str.cat (Spec.unspaced a) (Spec.unspaced b).
Proof.
  induction a as [|c a IH]; [done|]. cat_cons. cbn [Spec.unspaced].
  rewrite IH. by destruct (Ascii.eqb c Str.SPACE || Ascii.eqb c Str.LF).
Qed.

Lemma unspaced_spaces n : Spec.unspaced (Str.spaces n) = EmptyString.
Proof. induction n as [|n IH]; [done|]. exact IH. Qed.

Lemma unspaced_ljust w s : Spec.unspaced (Str.ljust w s) = Spec.unspaced s.
Proof.
  unfold Str.ljust. by rewrite unspaced_cat, unspaced_spaces, cat_nil_r.
Qed.

Lemma unspaced_rjust w s : Spec.unspaced (Str.rjust w s) = Spec.unspaced s.
Proof. unfold Str.rjust. by rewrite unspaced_cat, unspaced_spaces. Qed.

Lemma unspaced_join_empty l :
  Spec.unspaced (Str.join EmptyString l)
  = Str.join EmptyString (map Spec.unspaced l).
Proof.
  induction l as [|s l IH]; [done|].
  cbn [map]. by rewrite !join_empty_cons, unspaced_cat, IH.
Qed.

Lemma unspaced_join_lines lines :
  Spec.unspaced (Str.join (String Str.LF EmptyString) lines)
  = Str.join EmptyString (map Spec.unspaced lines).
Proof.
  induction lines as [|s l IH]; [done|].
  destruct l as [|t l]; [cbn [map]; by rewrite join_empty_cons, cat_nil_r|].
  rewrite join_cons_cons, !unspaced_cat, IH.
  cbn [map]. by rewrite !join_empty_cons.
Qed.

Lemma unspaced_digits s :
  Spec.all_digits s = true → Spec.unspaced s = s.
Proof.
  induction s as [|c s IH]; [done|]. cbn [Spec.all_digits Spec.unspaced].
  intros [Hc Hs]%andb_true_iff. rewrite (IH Hs).
  assert (Ascii.eqb c Str.SPACE || Ascii.eqb c Str.LF = false) as ->; [|done].
  apply orb_false_iff. split; apply Ascii.eqb_neq; intros ->; done.
Qed.

Lemma unspaced_of_nat n : Spec.unspaced (Str.of_nat n) = Str.of_nat n.
Proof. apply unspaced_digits, all_digits_of_nat. Qed.

Lemma count_digits_cat a b :
  Str.count_digits (Str.cat a b) = Str.count_digits a + Str.count_digits b.
Proof.
  induction a as [|c a IH]; [done|]. cat_cons. cbn [Str.count_digits].
  rewrite IH. lia.
Qed.

Lemma count_digits_unspaced s :
  Str.count_digits (Spec.unspaced s) = Str.count_digits s.
Proof.
  induction s as [|c s IH]; [done|]. cbn [Spec.unspaced Str.count_digits].
  destruct (Ascii.eqb c Str.SPACE) eqn:Hspace.
  { apply Ascii.eqb_eq in Hspace as ->. exact IH. }
  destruct (Ascii.eqb c Str.LF) eqn:Hlf.
  { apply Ascii.eqb_eq in Hlf as ->. exact IH. }
  cbn [orb Str.count_digits]. by rewrite IH.
Qed.

(** *** The lines of [adjoin] *)

Lemma unspaced_nth_ljust k w lst :
  Spec.unspaced (nth k (map (Str.ljust w) lst) EmptyString)
  = Spec.unspaced (nth k lst EmptyString).
Proof.
  destruct (decide (k < length lst)) as [Hk|Hk].
  - rewrite (nth_indep _ EmptyString (Str.ljust w EmptyString))
      by (by rewrite length_map).
    by rewrite map_nth, unspaced_ljust.
  - by rewrite !nth_overflow by (rewrite ?length_map; lia).
Qed.

Lemma unspaced_adjoin h lists :
  Spec.unspaced (adjoin 1 h lists)
  = Str.join EmptyString
      (map (fun k =>
              Str.join EmptyString
                (map (fun lst => Spec.unspaced (nth k lst EmptyString)) lists))
           (seq 0 h)).
Proof.
  unfold adjoin. cbv zeta. rewrite unspaced_join_lines, map_map.
  f_equal. apply map_ext. intros k.
  rewrite unspaced_join_empty, map_map. f_equal.
  rewrite fmap_imap.
  transitivity
    (imap (const (fun lst => Spec.unspaced (nth k lst EmptyString))) lists);
    [|apply imap_const].
  apply imap_ext. intros i lst _. apply unspaced_nth_ljust.
Qed.

Lemma map_seq_zip {A B C} (F : A → B → C) (l : list A) (k : list B) a b :
  length k = length l →
  map (fun r => F (nth r l a) (nth r k b)) (seq 0 (length l))
  = map (fun p => F p.1 p.2) (zip l k).
Proof.
  revert k. induction l as [|x l IH]; intros [|y k] Hlen; try done.
  cbn [length seq map zip zip_with nth fst snd]. f_equal.
  rewrite <- fmap_S_seq, map_map. apply IH. by injection Hlen.
Qed.

(** the cells of a row against the positions of the columns *)
Lemma imap_nth {A B C} (g : A → C) (row : list A) (d : A) : ∀ (cols : list B),
  length row = length cols →
  imap (fun c (_ : B) => g (nth c row d)) cols = map g row.
Proof.
  induction row as [|v row IH]; intros [|l cols] Hlen; try done.
  rewrite imap_cons. cbn [map nth]. f_equal.
  rewrite <- (IH cols) by (by injection Hlen). by apply imap_ext.
Qed.

Lemma formatted_index_row index r :
  r < length index →
  Spec.unspaced (nth (S r) (formatted_index index) EmptyString)
  = Str.of_nat (nth r index 0).
Proof.
  intros Hr. unfold formatted_index. cbv zeta. cbn [nth].
  rewrite unspaced_nth_ljust.
  rewrite (nth_indep _ EmptyString (Str.of_nat 0)) by (by rewrite length_map).
  by rewrite map_nth, unspaced_of_nat.
Qed.

Lemma formatted_column_header values c label :
  Spec.unspaced (nth 0 (formatted_column values c label) EmptyString)
  = Str.of_nat label.
Proof.
  unfold formatted_column. cbv zeta. cbn [nth].
  by rewrite unspaced_rjust, unspaced_of_nat.
Qed.

Lemma formatted_column_row values c label r :
  r < length values →
  Spec.unspaced (nth (S r) (formatted_column values c label) EmptyString)
  = Spec.unspaced (cell_text (nth c (nth r values []) None)).
Proof.
  intros Hr. unfold formatted_column. cbv zeta. cbn [nth].
  set (text := fun row : list cell => String Str.SPACE (cell_text (nth c row None))).
  set (w := Nat.max _ _).
  rewrite (nth_indep _ EmptyString (Str.rjust w (text [])))
    by (by rewrite !length_map).
  rewrite !map_nth, unspaced_rjust. done.
Qed.

(** what is left of a rendering without its spaces and line feeds *)
Lemma unspaced_render index columns values :
  index ≠ [] → columns ≠ [] →
  length values = length index →
  Forall (fun row => length row = length columns) values →
  Spec.unspaced (render index columns values)
  = Spec.labels_and_cells index columns values.
Proof.
  intros Hindex Hcolumns Hlen Hwf. unfold render.
  assert ((length index =? 0) || (length columns =? 0) = false) as ->.
  { destruct index, columns; done. }
  rewrite unspaced_adjoin. unfold strcols, Spec.labels_and_cells.
  cbn [seq map]. rewrite join_empty_cons. f_equal.
  - cbn [nth formatted_index]. rewrite join_empty_cons.
    change (Spec.unspaced EmptyString) with EmptyString. cat_cons.
    f_equal. rewrite fmap_imap.
    transitivity (imap (const Str.of_nat) columns); [|apply imap_const].
    apply imap_ext. intros c label _. apply formatted_column_header.
  - f_equal. rewrite <- fmap_S_seq, map_map.
    rewrite <- (map_seq_zip
                  (fun label row =>
                     Str.cat (Str.of_nat label)
                       (Str.join EmptyString
                          (map (fun v => Spec.unspaced (cell_text v)) row)))
                  index values 0 []) by done.
    apply map_ext_in. intros r Hr%in_seq.
    cbn [map]. rewrite join_empty_cons. f_equal.
    + apply formatted_index_row. lia.
    + f_equal. rewrite fmap_imap.
      assert (length (nth r values []) = length columns) as Hrow.
      { rewrite Forall_forall in Hwf. apply Hwf.
        apply list_elem_of_In, nth_In. lia. }
      rewrite <- (imap_nth (fun v => Spec.unspaced (cell_text v))
                          (nth r values []) None columns Hrow).
      apply imap_ext. intros c label _. apply formatted_column_row. lia.
Qed.

(** *** The length of a rendering *)

Lemma len_nth_ljust k w lst :
  k < length lst → Str.max_len lst ≤ w →
  Str.len (nth k (map (Str.ljust w) lst) EmptyString) = w.
Proof.
  intros Hk Hw.
  rewrite (nth_indep _ EmptyString (Str.ljust w EmptyString))
    by (by rewrite length_map).
  rewrite map_nth, len_ljust.
  pose proof (max_len_bound lst (nth k lst EmptyString)) as Hbound.
  rewrite list_elem_of_In in Hbound. specialize (Hbound (nth_In _ _ Hk)). lia.
Qed.

Lemma list_sum_cons a l : list_sum (a :: l) = a + list_sum l.
Proof. reflexivity. Qed.

Lemma imap_imap {A B C} (f : nat → B → C) (g : nat → A → B) (l : list A) :
  imap f (imap g l) = imap (fun i x => f i (g i x)) l.
Proof.
  revert f g. induction l as [|x l IH]; intros f g; [done|].
  rewrite !imap_cons. f_equal. apply IH.
Qed.

Lemma list_sum_imap_add {A} (f g : nat → A → nat) (l : list A) :
  list_sum (imap (fun i x => f i x + g i x) l)
  = list_sum (imap f l) + list_sum (imap g l).
Proof.
  revert f g. induction l as [|x l IH]; intros f g; [done|].
  rewrite !imap_cons, !list_sum_cons.
  specialize (IH (f ∘ S) (g ∘ S)). unfold compose in *. rewrite IH. lia.
Qed.

(** a space after every text column but the last *)
Lemma list_sum_separators {A} (l : list A) : ∀ m,
  list_sum (imap (fun c _ => if m + c + 1 <? m + length l then 1 else 0) l)
  = length l - 1.
Proof.
  induction l as [|x l IH]; intros m; [done|].
  rewrite imap_cons, list_sum_cons. cbn [length].
  rewrite (imap_ext _ (fun c _ => if S m + c + 1 <? S m + length l then 1 else 0))
    by (intros i y _; simpl; by replace (m + S i + 1) with (S (m + i + 1)) by lia;
        replace (m + S (length l)) with (S (m + length l)) by lia).
  rewrite (IH (S m)).
  destruct (m + 0 + 1 <? m + S (length l)) eqn:Hlt.
  - apply Nat.ltb_lt in Hlt. lia.
  - apply Nat.ltb_ge in Hlt. lia.
Qed.

Lemma len_adjoin h lists :
  Forall (fun lst => length lst = h) lists →
  Str.len (adjoin 1 h lists)
  = h * list_sum (imap (fun i lst =>
                          Str.max_len lst
                          + (if i + 1 <? length lists then 1 else 0)) lists)
    + (h - 1).
Proof.
  intros Hheight. unfold adjoin. cbv zeta.
  rewrite (len_join_lines
             (list_sum (imap (fun i lst =>
                                Str.max_len lst
                                + (if i + 1 <? length lists then 1 else 0))
                             lists))).
  { by rewrite length_map, length_seq. }
  apply Forall_map, Forall_forall. intros k Hk%list_elem_of_In%in_seq.
  rewrite len_join_empty, map_map, fmap_imap. f_equal.
  apply imap_ext. intros i lst Hlst. simpl.
  apply len_nth_ljust; [|lia].
  rewrite Forall_forall in Hheight.
  rewrite (Hheight lst) by (by eapply list_elem_of_lookup_2). lia.
Qed.

Lemma max_len_formatted_index index :
  Str.max_len (formatted_index index) = Str.max_len (map Str.of_nat index).
Proof.
  unfold formatted_index. cbv zeta. rewrite max_len_cons.
  change (Str.len EmptyString) with 0. rewrite Nat.max_0_l.
  destruct index as [|i index]; [done|].
  apply max_len_const; [done|].
  apply Forall_map, Forall_forall. intros s Hs. cbv beta.
  rewrite len_ljust. apply max_len_bound in Hs. lia.
Qed.

Lemma max_len_cell_strings (values : list (list cell)) c :
  Str.max_len
    (map (fun r => String Str.SPACE (cell_text (nth c r None))) values)
  = foldr Nat.max 0
      (map (fun r => S (Str.len (cell_text (nth c r None)))) values).
Proof.
  induction values as [|row values IH]; [done|].
  cbn [map foldr]. rewrite max_len_cons, IH. done.
Qed.

Lemma max_len_formatted_column values c label :
  Str.max_len (formatted_column values c label)
  = Spec.column_width values c label.
Proof.
  unfold formatted_column, Spec.column_width. cbv zeta.
  rewrite <- max_len_cell_strings.
  set (strings := map _ values). set (w := Nat.max _ _).
  apply max_len_const; [done|]. constructor.
  - rewrite len_rjust. lia.
  - apply Forall_map, Forall_forall. intros s Hs. cbv beta.
    rewrite len_rjust. apply max_len_bound in Hs. lia.
Qed.

(** the number of characters of a rendering *)
Lemma len_render index columns values :
  index ≠ [] → columns ≠ [] → length values = length index →
  Str.len (render index columns values)
  = S (length index) * Spec.line_width index columns values + length index.
Proof.
  intros Hindex Hcolumns Hlen. unfold render.
  assert ((length index =? 0) || (length columns =? 0) = false) as ->.
  { destruct index, columns; done. }
  rewrite len_adjoin.
  2:{ unfold strcols. constructor.
      - unfold formatted_index. cbn [length]. by rewrite !length_map.
      - apply Forall_forall. intros lst Hlst.
        apply elem_of_lookup_imap in Hlst as (c & label & -> & _).
        unfold formatted_column. cbn [length]. by rewrite !length_map, Hlen. }
  replace (S (length index) - 1) with (length index) by lia.
  f_equal. f_equal. unfold strcols, Spec.line_width.
  rewrite imap_cons, list_sum_cons. cbn [length].
  rewrite max_len_formatted_index, imap_imap.
  rewrite (imap_ext _ (fun c label =>
             Spec.column_width values c label
             + (if 1 + c + 1 <? 1 + length columns then 1 else 0))).
  2:{ intros c label _. unfold compose.
      by rewrite max_len_formatted_column, length_imap. }
  rewrite list_sum_imap_add, (list_sum_separators columns 1), length_imap.
  destruct columns as [|l columns]; [done|]. simpl. lia.
Qed.

(** ** TableSplitter *)

Section Slices.
Context {A : Type}.
Implicit Types l : list A.

Lemma slice_join l a b c :
  a ≤ b ≤ c → drop a (take b l) ++ drop b (take c l) = drop a (take c l).
Proof.
  intros [Hab Hbc].
  destruct (decide (b ≤ length l)) as [Hle|Hgt].
  - rewrite <- (take_drop b (take c l)) at 2.
    rewrite take_take, Nat.min_l by lia.
    rewrite drop_app_le; [done|]. rewrite length_take. lia.
  - rewrite !take_ge by lia.
    rewrite (drop_ge l b) by lia. by rewrite app_nil_r.
Qed.

Lemma tiles_le lo hi spans : Spec.tiles lo hi spans → lo ≤ hi.
Proof.
  revert lo. induction spans as [|[s e] rest IH]; simpl; intros lo.
  - lia.
  - intros (-> & Hse & Hrest). apply IH in Hrest. lia.
Qed.

Lemma tiles_concat l lo hi spans :
  Spec.tiles lo hi spans →
  concat (map (fun se => drop se.1 (take se.2 l)) spans) = drop lo (take hi l).
Proof.
  revert lo. induction spans as [|[s e] rest IH]; simpl; intros lo.
  - intros ->. rewrite drop_ge; [done|]. rewrite length_take. lia.
  - intros (-> & Hse & Hrest).
    rewrite (IH _ Hrest). apply slice_join.
    split; [done|]. by eapply tiles_le.
Qed.
End Slices.

Lemma holding_outside lo hi spans r :
  Spec.tiles lo hi spans → r < lo ∨ hi ≤ r → Spec.holding r spans = [].
Proof.
  unfold Spec.holding.
  revert lo. induction spans as [|[s e] rest IH]; simpl; intros lo; [done|].
  intros (-> & Hse & Hrest) Hr.
  pose proof (tiles_le _ _ _ Hrest) as Hle.
  rewrite filter_cons. simpl. case_decide; [lia|].
  apply (IH e); [done|lia].
Qed.

Lemma holding_inside lo hi spans r :
  Spec.tiles lo hi spans → lo ≤ r < hi → length (Spec.holding r spans) = 1.
Proof.
  unfold Spec.holding.
  revert lo. induction spans as [|[s e] rest IH]; simpl; intros lo; [lia|].
  intros (-> & Hse & Hrest) Hr.
  rewrite filter_cons. simpl. case_decide.
  - simpl. f_equal.
    change (length (Spec.holding r rest) = 0).
    rewrite (holding_outside e hi); [done|done|lia].
  - apply (IH e); [done|lia].
Qed.

Import TableSplitter.

Lemma starts_table_iff text :
  starts_table text = true ↔
  Str.contains "psd table" text = true ∨
  Str.contains "trade matrix" text = true ∨
  Str.contains "prices table" text = true.
Proof.
  unfold starts_table.
  destruct (Str.contains "psd table" text),
           (Str.contains "trade matrix" text),
           (Str.contains "prices table" text); simpl; intuition congruence.
Qed.

Lemma present_cons_text text (row : list cell) :
  present (Some text :: row) = text :: present row.
Proof. reflexivity. Qed.

Lemma present_cons_missing (row : list cell) :
  present (None :: row) = present row.
Proof. reflexivity. Qed.

Lemma present_notna (row : list cell) :
  existsb notna row = negb (bool_decide (present row = [])).
Proof.
  induction row as [|[text|] row IH]; [done|done|].
  by rewrite present_cons_missing, <- IH.
Qed.

(** the concatenated text of a row is what [str.cat(sep=" ")] gives *)
Lemma concatenated_join row :
  Spec.concatenated row = Str.join " " (present row).
Proof.
  induction row as [|[text|] row IH]; [done| |done].
  cbn [Spec.concatenated]. rewrite present_notna, present_cons_text, IH.
  destruct (present row) as [|t l]; [done|].
  by rewrite join_cons_cons.
Qed.

Lemma title_row_at df j row :
  rows df !! j = Some row →
  Spec.title_row df j ↔ starts_table (row_text row) = true.
Proof.
  intros Hrow. rewrite starts_table_iff. unfold Spec.title_row, row_text.
  rewrite <- concatenated_join, !contains_within. split.
  - intros (row' & marker & Hrow' & Hmarker & Hin). simplify_eq.
    unfold Spec.title_markers in Hmarker.
    repeat (apply elem_of_cons in Hmarker as [->|Hmarker]; [tauto|]).
    by apply elem_of_nil in Hmarker.
  - unfold Spec.title_markers.
    intros [H|[H|H]]; exists row; eexists; (split; [done|]);
      (split; [|exact H]); set_solver.
Qed.

(** the loop of [find_true_table_start] over the rows [lo .. lo+n-1],
    highest first *)
Lemma scan_back_seq df lo n :
  lo + n ≤ nrows df →
  ∃ res, scan_back df (rev (seq lo n)) = Some res ∧
    match res with
    | Some r => lo ≤ r < lo + n ∧ Spec.title_row df r ∧
                ∀ j, r < j < lo + n → ¬ Spec.title_row df j
    | None => ∀ j, lo ≤ j < lo + n → ¬ Spec.title_row df j
    end.
Proof.
  induction n as [|n IH]; intros Hn.
  - exists None. split; [done|]. intros j Hj. lia.
  - rewrite seq_S, rev_app_distr. simpl.
    destruct (lookup_lt_is_Some_2 (rows df) (lo + n)) as [row Hrow];
      [unfold nrows in Hn; lia|].
    unfold iloc. rewrite Hrow. simpl.
    pose proof (title_row_at df _ _ Hrow) as Ht.
    destruct (starts_table (row_text row)) eqn:Hst.
    + exists (Some (lo + n)). split; [done|].
      split; [lia|]. split; [by apply Ht|]. intros j Hj. lia.
    + destruct IH as (res & Hres & Hspec); [lia|].
      exists res. split; [done|].
      assert (¬ Spec.title_row df (lo + n)) as Hno.
      { rewrite Ht. congruence. }
      destruct res as [r|].
      * destruct Hspec as (Hr & Htitle & Habove).
        split; [lia|]. split; [done|]. intros j Hj.
        destruct (decide (j = lo + n)) as [->|Hne]; [done|].
        apply Habove. lia.
      * intros j Hj.
        destruct (decide (j = lo + n)) as [->|Hne]; [done|].
        apply Hspec. lia.
Qed.

(** what [find_true_table_start] returns on a row of the frame *)
Lemma find_true_table_start_cases df i :
  i < nrows df →
  ∃ r, find_true_table_start df i = Some r ∧
    ((i - 15 ≤ r ≤ i ∧ Spec.title_row df r ∧
      ∀ j, r < j ≤ i → ¬ Spec.title_row df j)
     ∨ (r = i - 2 ∧ ∀ j, i - 15 ≤ j ≤ i → ¬ Spec.title_row df j)).
Proof.
  intros Hi. unfold find_true_table_start, range_down.
  change (Nat.max 0 (i - 15)) with (i - 15).
  change (Nat.max 0 (i - 2)) with (i - 2).
  destruct (scan_back_seq df (i - 15) (S i - (i - 15))) as (res & -> & Hspec);
    [lia|].
  simpl. destruct res as [r|].
  - exists r. split; [done|]. left.
    destruct Hspec as (Hr & Htitle & Habove).
    split; [lia|]. split; [done|]. intros j Hj. apply Habove. lia.
  - exists (i - 2). split; [done|]. right.
    split; [done|]. intros j Hj. apply Hspec. lia.
Qed.

Lemma find_true_table_start_le df i r :
  i < nrows df → find_true_table_start df i = Some r → r ≤ i.
Proof.
  intros Hi Hr.
  destruct (find_true_table_start_cases df i Hi) as (r' & Hr' & Hcases).
  simplify_eq. destruct Hcases as [(? & _)|(-> & _)]; lia.
Qed.

(** a later anchor never resolves to an earlier start *)
Lemma find_true_table_start_mono df i1 i2 r1 r2 :
  i1 ≤ i2 → i2 < nrows df →
  find_true_table_start df i1 = Some r1 →
  find_true_table_start df i2 = Some r2 →
  r1 ≤ r2.
Proof.
  intros H12 H2 Hr1 Hr2.
  destruct (find_true_table_start_cases df i1) as (r1' & Hr1' & C1); [lia|].
  destruct (find_true_table_start_cases df i2) as (r2' & Hr2' & C2); [lia|].
  simplify_eq.
  destruct C1 as [(Hw1 & Ht1 & Ha1)|(-> & Hn1)],
           C2 as [(Hw2 & Ht2 & Ha2)|(-> & Hn2)].
  - destruct (decide (r1 ≤ r2)) as [|Hgt]; [done|].
    exfalso. apply (Ha2 r1); [lia|done].
  - destruct (decide (i2 - 15 ≤ r1)) as [Hin|Hout]; [|lia].
    exfalso. apply (Hn2 r1); [lia|done].
  - destruct (decide (r2 ≤ i1)) as [Hin|Hout]; [|lia].
    exfalso. apply (Hn1 r2); [lia|done].
  - lia.
Qed.

Lemma index_where_bounds i mask :
  Forall (fun j => i ≤ j < i + length mask) (index_where i mask).
Proof.
  revert i. induction mask as [|b mask IH]; intros i; simpl; [constructor|].
  assert (Forall (fun j => i ≤ j < i + S (length mask)) (index_where (S i) mask)).
  { eapply Forall_impl; [apply IH|]. simpl. intros j Hj. lia. }
  destruct b; [constructor; [lia|done]|done].
Qed.

Lemma index_where_sorted i mask : Sorted lt (index_where i mask).
Proof.
  revert i. induction mask as [|b mask IH]; intros i; simpl; [constructor|].
  destruct b; [|apply IH].
  constructor; [apply IH|].
  pose proof (index_where_bounds (S i) mask) as Hb.
  destruct (index_where (S i) mask) as [|j rest]; constructor.
  apply Forall_cons in Hb as [Hj _]. lia.
Qed.

(** the resolved starts of anchors in row order ascend and stay in the
    frame *)
Lemma table_starts_ascending df anchors :
  Sorted lt anchors → Forall (fun a => a < nrows df) anchors →
  ∃ starts, mapM (find_true_table_start df) anchors = Some starts ∧
    length starts = length anchors ∧
    Forall2 (fun a s => find_true_table_start df a = Some s) anchors starts ∧
    Spec.ascending_to (nrows df) starts.
Proof.
  induction anchors as [|a rest IH]; intros Hsorted Hin.
  - exists []. repeat split; constructor.
  - apply Sorted_inv in Hsorted as [Hsorted Hhd].
    apply Forall_cons in Hin as [Ha Hin].
    destruct (IH Hsorted Hin) as (starts & Hstarts & Hlen & Hall & Hasc).
    destruct (find_true_table_start_cases df a Ha) as (s & Hs & _).
    exists (s :: starts). simpl. rewrite Hs. simpl. rewrite Hstarts. simpl.
    split; [done|]. split; [by rewrite Hlen|]. split; [by constructor|].
    split; [|done].
    destruct Hall as [|a' s' rest' starts' Hs' Hall]; simpl.
    + pose proof (find_true_table_start_le df a s Ha Hs). lia.
    + apply HdRel_inv in Hhd. apply Forall_cons in Hin as [Ha' _].
      eapply (find_true_table_start_mono df a a'); [lia|done|done|done].
Qed.

(** the slicing loop, turn by turn, is [Spec.cuts] *)
Lemma cut_loop_cuts n l pre :
  mapM (cut (pre ++ l) n) (seq (length pre) (length l))
  = Some (Spec.cuts (length pre) l n).
Proof.
  revert pre. induction l as [|s rest IH]; intros pre; [reflexivity|].
  assert (cut (pre ++ s :: rest) n (length pre)
          = Some ((if length pre =? 0 then 0 else s), hd n rest)) as Hcut.
  { unfold cut. rewrite (list_lookup_middle pre rest s (length pre) eq_refl). simpl.
    rewrite length_app. simpl.
    destruct rest as [|s' rest']; simpl.
    - rewrite (proj2 (Nat.ltb_ge _ _)) by lia. done.
    - rewrite (proj2 (Nat.ltb_lt _ _)) by lia.
      rewrite lookup_app_r by lia.
      replace (length pre + 1 - length pre) with 1 by lia. done. }
  specialize (IH (pre ++ [s])).
  rewrite <- app_assoc, length_app in IH. simpl in IH.
  replace (length pre + 1) with (S (length pre)) in IH by lia.
  simpl. rewrite Hcut. simpl. rewrite IH. done.
Qed.

Lemma cuts_tiles n i starts :
  Spec.ascending_to n starts →
  Spec.tiles (hd n starts) n (Spec.cuts (S i) starts n).
Proof.
  revert i. induction starts as [|s rest IH]; intros i; simpl; [done|].
  intros [Hs Hrest]. split; [done|]. split; [done|]. by apply IH.
Qed.

(** the spans of a frame with anchors: the first from row 0 to the second
    resolved start, the others from one resolved start to the next *)
Lemma table_spans_anchored df :
  commodity_indices df ≠ [] →
  ∃ s rest,
    mapM (find_true_table_start df) (commodity_indices df) = Some (s :: rest) ∧
    Spec.ascending_to (nrows df) rest ∧
    table_spans df = Some ((0, hd (nrows df) rest) :: Spec.cuts 1 rest (nrows df)).
Proof.
  intros Hne.
  destruct (table_starts_ascending df (commodity_indices df))
    as (starts & Hstarts & Hlen & _ & Hasc).
  { apply index_where_sorted. }
  { eapply Forall_impl; [apply index_where_bounds|].
    simpl. intros j Hj. rewrite length_map in Hj. unfold nrows. lia. }
  unfold table_spans. rewrite Hstarts.
  destruct (commodity_indices df) as [|a anchors]; [done|].
  destruct starts as [|s rest]; [done|].
  exists s, rest. split; [done|]. split; [apply Hasc|].
  exact (cut_loop_cuts (nrows df) (s :: rest) []).
Qed.

Lemma table_spans_tiles df :
  ∃ spans, table_spans df = Some spans ∧ Spec.tiles 0 (nrows df) spans.
Proof.
  destruct (decide (commodity_indices df = [])) as [Hnil|Hne].
  - exists [(0, nrows df)]. unfold table_spans. rewrite Hnil.
    split; [done|]. simpl. split; [done|]. split; [lia|done].
  - destruct (table_spans_anchored df Hne) as (s & rest & _ & Hasc & ->).
    eexists. split; [done|]. simpl.
    split; [done|]. split; [lia|]. by apply cuts_tiles.
Qed.

Lemma split_mixed_tables_slices df spans :
  table_spans df = Some spans →
  split_mixed_tables df
  = Some (map (fun se => iloc_slice df se.1 se.2) spans).
Proof.
  intros Hspans. unfold split_mixed_tables. rewrite Hspans.
  unfold table_spans in Hspans.
  destruct (commodity_indices df) as [|a anchors]; [|done].
  simplify_eq. simpl. unfold iloc_slice, nrows. simpl.
  rewrite take_ge by done. by destruct df.
Qed.

(** C1. For every frame, [split_mixed_tables] returns; the row spans it
    slices tile [0, len(df)) with no gap and no overlap, so that every
    row lies in exactly one span; every sub-table keeps the columns; and
    the rows of the returned sub-tables, put end to end in order, are the
    rows of the frame. *)
Theorem split_mixed_tables_partition (df : DataFrame) :
  ∃ spans tables,
    table_spans df = Some spans ∧
    split_mixed_tables df = Some tables ∧
    tables = map (fun se => iloc_slice df se.1 se.2) spans ∧
    Spec.tiles 0 (nrows df) spans ∧
    (∀ r, r < nrows df → length (Spec.holding r spans) = 1) ∧
    Forall (fun t => ncols t = ncols df) tables ∧
    concat (map rows tables) = rows df.
Proof.
  destruct (table_spans_tiles df) as (spans & Hspans & Htiles).
  exists spans, (map (fun se => iloc_slice df se.1 se.2) spans).
  split; [done|]. split; [by apply split_mixed_tables_slices|].
  split; [done|]. split; [done|]. split; [|split].
  - intros r Hr. apply (holding_inside 0 (nrows df)); [done|lia].
  - apply Forall_map, Forall_forall. by intros [s e] _.
  - rewrite map_map. simpl.
    rewrite (tiles_concat (rows df) 0 (nrows df)) by done.
    unfold nrows. by rewrite take_ge.
Qed.

(** C5. When the frame has an anchor row, the first span starts at row
    0 and the first sub-table is the frame's rows from row 0 up to the
    end of that span, wherever the first anchor's start resolved. *)
Theorem first_sub_table_begins_at_row_0 (df : DataFrame) :
  commodity_indices df ≠ [] →
  ∃ first_start e spans t tables,
    hd_error (commodity_indices df) ≫= find_true_table_start df
      = Some first_start ∧
    table_spans df = Some ((0, e) :: spans) ∧
    split_mixed_tables df = Some (t :: tables) ∧
    rows t = take e (rows df).
Proof.
  intros Hne.
  destruct (table_spans_anchored df Hne) as (s & rest & Hstarts & _ & Hspans).
  exists s, (hd (nrows df) rest), (Spec.cuts 1 rest (nrows df)).
  eexists _, _. split; [|split; [done|split]].
  - destruct (commodity_indices df) as [|a anchors]; [done|].
    simpl in *. destruct (find_true_table_start df a); [|done].
    simpl in Hstarts.
    destruct (mapM (find_true_table_start df) anchors); by simplify_option_eq.
  - rewrite (split_mixed_tables_slices df _ Hspans). done.
  - done.
Qed.

Lemma first_sub_table_begins_at_row_0_witness :
  commodity_indices Examples.titled ≠ [] ∧
  ∃ first_start e spans t tables,
    hd_error (commodity_indices Examples.titled)
      ≫= find_true_table_start Examples.titled = Some first_start ∧
    table_spans Examples.titled = Some ((0, e) :: spans) ∧
    split_mixed_tables Examples.titled = Some (t :: tables) ∧
    rows t = take e (rows Examples.titled).
Proof.
  assert (commodity_indices Examples.titled ≠ []) as Hne
    by (vm_compute; discriminate).
  split; [exact Hne|].
  exact (first_sub_table_begins_at_row_0 Examples.titled Hne).
Defined.

Lemma scan_back_ext df df' js :
  Forall (fun j => rows df' !! j = rows df !! j) js →
  scan_back df' js = scan_back df js.
Proof.
  induction 1 as [|j js Hj _ IH]; simpl; [done|].
  unfold iloc. rewrite Hj. destruct (rows df !! j) as [row|]; simpl; [|done].
  by rewrite IH.
Qed.

(** C6. On every row [i] of the frame, so on every anchor row,
    [find_true_table_start] returns.  It reads only the rows [i],
    [i-1], ..., down to row [i - 15] or to row 0 when that comes first
    (the subtraction on [nat] stops at 0), and returns the first of
    them, going up from [i], whose concatenated text, lower-cased,
    holds 'psd table', 'trade matrix' or 'prices table'; when none of
    them does it returns [max(0, i - 2)]. *)
Theorem find_true_table_start_window (df : DataFrame) (i : nat) :
  i < nrows df →
  (∃ r, find_true_table_start df i = Some r ∧
     ((i - 15 ≤ r ≤ i ∧ Spec.title_row df r ∧
       ∀ j, r < j ≤ i → ¬ Spec.title_row df j)
      ∨ (r = Nat.max 0 (i - 2) ∧
         ∀ j, i - 15 ≤ j ≤ i → ¬ Spec.title_row df j)))
  ∧ (∀ df', (∀ j, i - 15 ≤ j ≤ i → rows df' !! j = rows df !! j) →
       find_true_table_start df' i = find_true_table_start df i).
Proof.
  intros Hi. split; [exact (find_true_table_start_cases df i Hi)|].
  intros df' Hsame. unfold find_true_table_start.
  rewrite (scan_back_ext df df'); [done|].
  unfold range_down. change (Nat.max 0 (i - 15)) with (i - 15).
  apply Forall_forall. intros j Hj. apply Hsame.
  apply list_elem_of_In, in_rev, in_seq in Hj. lia.
Qed.

Lemma find_true_table_start_window_witness :
  15 < nrows Examples.title_far_above ∧
  find_true_table_start Examples.title_far_above 15 = Some 0 ∧
  Spec.title_row Examples.title_far_above 0 ∧
  0 ≠ Nat.max 0 (15 - 2).
Proof.
  assert (15 < nrows Examples.title_far_above) as Hi by (vm_compute; lia).
  split; [exact Hi|].
  destruct (find_true_table_start_window Examples.title_far_above 15 Hi)
    as [(r & Hr & Hcases) _].
  assert (r = 0) as -> by (vm_compute in Hr; congruence).
  split; [exact Hr|].
  destruct Hcases as [(_ & Htitle & _)|[Hfall _]]; [|discriminate Hfall].
  split; [exact Htitle|discriminate].
Defined.

(** the two words of a title in two cells, a missing value between
    them: the row is a title row *)
Example title_over_a_missing_value :
  find_true_table_start Examples.title_over_a_gap 3 = Some 0.
Proof. reflexivity. Qed.

(** with no title in the window the start is two rows above the anchor *)
Example no_title_in_the_window :
  find_true_table_start Examples.two_anchors 6 = Some 4 ∧
  find_true_table_start Examples.two_anchors 2 = Some 0.
Proof. split; reflexivity. Qed.

(** a title fifteen rows above the anchor is found, one sixteen rows
    above is not *)
Example title_15_rows_above :
  find_true_table_start Examples.title_far_above 15 = Some 0.
Proof. reflexivity. Qed.

Example title_16_rows_above :
  find_true_table_start Examples.title_far_above 16 = Some 14.
Proof. reflexivity. Qed.

Example anchor_below_the_frame :
  find_true_table_start Examples.title_far_above 17 = None.
Proof. reflexivity. Qed.

(** without a title row the second table starts two rows above its
    anchor *)
Example spans_of_two_anchors :
  table_spans Examples.two_anchors = Some [(0, 4); (4, 8)].
Proof. reflexivity. Qed.

Example split_titled :
  split_mixed_tables Examples.titled
  = Some [Examples.frame 1 [["x"]; ["PSD Table"]; ["y"]; ["Commodity"]; ["1"]]].
Proof. reflexivity. Qed.

(** ** RiceFilter *)

Import RiceFilter.

Lemma label_scan_cases top :
  match label_scan top with
  | Some v =>
      ∃ i row, top !! i = Some row ∧
        Spec.labelled row && Spec.names_crop row = true ∧
        v = Str.contains "rice" (row_text row) ∧
        ∀ j row', j < i → top !! j = Some row' →
          Spec.labelled row' && Spec.names_crop row' = false
  | None =>
      ∀ i row, top !! i = Some row →
        Spec.labelled row && Spec.names_crop row = false
  end.
Proof.
  induction top as [|row rest IH]; simpl; [by intros i row|].
  destruct (Str.contains "commodity" (row_text row)) eqn:Hc.
  - destruct (Str.contains "rice" (row_text row)) eqn:Hr.
    + exists 0, row. unfold Spec.labelled, Spec.names_crop.
      rewrite Hc, Hr. repeat split; try done. intros j row' Hj. lia.
    + destruct (Str.contains "corn" (row_text row)
                || Str.contains "wheat" (row_text row)) eqn:Ho.
      * exists 0, row. unfold Spec.labelled, Spec.names_crop.
        rewrite Hc, Hr. simpl. rewrite Ho.
        repeat split; try done. intros j row' Hj. lia.
      * assert (Spec.labelled row && Spec.names_crop row = false) as Hrow.
        { unfold Spec.labelled, Spec.names_crop. rewrite Hc, Hr. simpl.
          by rewrite Ho. }
        destruct (label_scan rest) as [v|].
        -- destruct IH as (i & r & Hi & Hd & Hv & Hfirst).
           exists (S i), r. repeat split; try done.
           intros [|j] row' Hj Hrow'; simpl in Hrow'; [by simplify_eq|].
           apply (Hfirst j); [lia|done].
        -- intros [|j] r Hr'; simpl in Hr'; [by simplify_eq|by apply (IH j)].
  - assert (Spec.labelled row && Spec.names_crop row = false) as Hrow.
    { unfold Spec.labelled. by rewrite Hc. }
    destruct (label_scan rest) as [v|].
    + destruct IH as (i & r & Hi & Hd & Hv & Hfirst).
      exists (S i), r. repeat split; try done.
      intros [|j] row' Hj Hrow'; simpl in Hrow'; [by simplify_eq|].
      apply (Hfirst j); [lia|done].
    + intros [|j] r Hr'; simpl in Hr'; [by simplify_eq|by apply (IH j)].
Qed.

Lemma top_rows_lookup df i :
  take (Nat.min 20 (nrows df)) (rows df) !! i
  = if decide (i < 20) then rows df !! i else None.
Proof.
  case_decide as Hi.
  - destruct (decide (i < nrows df)) as [Hin|Hout].
    + rewrite lookup_take_lt by lia. done.
    + rewrite lookup_ge_None_2, lookup_ge_None_2; [done| |];
        [unfold nrows in Hout; lia|rewrite length_take; unfold nrows in *; lia].
  - apply lookup_ge_None_2. rewrite length_take. lia.
Qed.

(** C2 (as amended). When the header window holds the marker, the
    verdict of priority 1 is given by the first row, among the first
    20, that holds the marker and names a crop: kept when that row
    names rice, discarded when it names corn or wheat and not rice.
    Marker rows that name no crop are passed over.  The function goes
    on to the checks on unlabeled data only when no row among the first
    20 holds the marker and names a crop. *)
Theorem first_naming_marker_row_decides (df : DataFrame) :
  Str.contains "commodity" (header_chunk df) = true →
  (∀ i row,
     Spec.first_row (fun r => Spec.labelled r && Spec.names_crop r) df i row →
     trust_the_label df = Some (Str.contains "rice" (row_text row)) ∧
     is_strictly_rice_table df = Str.contains "rice" (row_text row))
  ∧ ((∀ i row, i < 20 → rows df !! i = Some row →
        Spec.labelled row && Spec.names_crop row = false) →
     trust_the_label df = None ∧
     is_strictly_rice_table df = inspect_unlabeled df).
Proof.
  intros Hmarker. unfold is_strictly_rice_table, trust_the_label.
  rewrite Hmarker.
  pose proof (label_scan_cases (take (Nat.min 20 (nrows df)) (rows df))) as Hscan.
  destruct (label_scan _) as [v|].
  - destruct Hscan as (i' & row' & Hi' & Hd' & -> & Hfirst').
    rewrite top_rows_lookup in Hi'. case_decide as Hlt; [|done].
    split.
    + intros i row (Hi & Hrow & Hd & Hfirst).
      destruct (Nat.lt_trichotomy i i') as [Hlt'|[->|Hgt]].
      * specialize (Hfirst' i row Hlt'). rewrite top_rows_lookup in Hfirst'.
        case_decide; [|lia]. rewrite (Hfirst' Hrow) in Hd. done.
      * by simplify_eq.
      * rewrite (Hfirst i' row' Hgt Hi') in Hd'. done.
    + intros Hnone. rewrite (Hnone i' row' Hlt Hi') in Hd'. done.
  - split; [|done].
    intros i row (Hi & Hrow & Hd & _).
    specialize (Hscan i row). rewrite top_rows_lookup in Hscan.
    case_decide; [|lia]. rewrite (Hscan Hrow) in Hd. done.
Qed.

Lemma first_naming_marker_row_decides_witness :
  Str.contains "commodity" (header_chunk Examples.label_on_later_row) = true ∧
  trust_the_label Examples.label_on_later_row = Some true ∧
  is_strictly_rice_table Examples.label_on_later_row = true.
Proof.
  assert (Str.contains "commodity" (header_chunk Examples.label_on_later_row)
          = true) as Hmarker by (vm_compute; reflexivity).
  split; [exact Hmarker|].
  apply (proj1 (first_naming_marker_row_decides
                  Examples.label_on_later_row Hmarker)
           1 (texts ["Commodity: Rice"])).
  split; [lia|]. split; [reflexivity|]. split; [vm_compute; reflexivity|].
  intros [|j] row' Hj Hrow'; [|lia].
  simpl in Hrow'. injection Hrow' as <-. vm_compute. reflexivity.
Defined.

(** C2 as stated fails: row 0 holds the marker and no crop name, yet
    row 1 decides and priority 1 returns *)
Lemma first_marker_row_does_not_decide :
  ¬ Spec.first_marker_row_decides Examples.label_on_later_row.
Proof.
  intros Hrule.
  assert (Str.contains "commodity" (header_chunk Examples.label_on_later_row)
          = true) as Hmarker by (vm_compute; reflexivity).
  destruct (Hrule Hmarker 0 (texts ["Commodity"])) as (_ & _ & Hfall).
  { split; [lia|]. split; [reflexivity|]. split; [vm_compute; reflexivity|].
    intros j row' Hj. lia. }
  assert (trust_the_label Examples.label_on_later_row = Some true) as Hrun
    by (vm_compute; reflexivity).
  rewrite Hfall in Hrun; [discriminate|]. vm_compute. reflexivity.
Qed.

(** on that frame the checks on unlabeled data would have discarded *)
Example later_row_changes_the_verdict :
  is_strictly_rice_table Examples.label_on_later_row = true ∧
  inspect_unlabeled Examples.label_on_later_row = false.
Proof. split; vm_compute; reflexivity. Qed.

(** *** Text of a frame without rows or columns *)







Lemma label_scan_unlabelled top :
  Forall (fun row => Spec.labelled row = false) top → label_scan top = None.
Proof.
  induction 1 as [|row top Hrow _ IH]; simpl; [done|].
  unfold Spec.labelled in Hrow. by rewrite Hrow.
Qed.







(** the digits of the column labels are enough for a frame without rows
    to pass the structure check; it is discarded for not naming rice *)
Example no_rows_passes_structure_check :
  to_string Examples.no_rows
  = Str.cat "Empty DataFrame"
      (String Str.LF (Str.cat "Columns: [0, 1, 2]" (String Str.LF "Index: []")))
  ∧ is_valid_data_structure Examples.no_rows = true
  ∧ is_strictly_rice_table Examples.no_rows = false.
Proof. repeat split; vm_compute; reflexivity. Qed.

(** so are the labels of a frame of empty texts: it renders to 17
    characters, 4 of them digits *)
Example empty_texts_pass_structure_check :
  Str.len (Spec.grid_text (rows Examples.empty_texts)) = 0
  ∧ Str.len (to_string Examples.empty_texts) = 17
  ∧ Str.count_digits (to_string Examples.empty_texts) = 4
  ∧ is_valid_data_structure Examples.empty_texts = true
  ∧ is_strictly_rice_table Examples.empty_texts = false.
Proof. repeat split; vm_compute; reflexivity. Qed.

(** *** Digit density *)

Lemma Qle_true_div (num : Z) (den : positive) (d t : nat) :
  (0 < num)%Z →
  (num # den <= true_div d t)%Q ↔
  0 < t ∧ (num * Z.of_nat t ≤ Z.of_nat d * Z.pos den)%Z.
Proof.
  intros Hnum. unfold true_div. destruct t as [|t].
  - unfold Qle, Qdiv, Qmult, Qinv, inject_Z. simpl. split; [lia|].
    intros [? _]. lia.
  - unfold Qle, Qdiv, Qmult, Qinv, inject_Z. simpl. split.
    + intros H. split; [lia|]. lia.
    + intros [_ H]. lia.
Qed.

Lemma digit_density_ok_iff text_blob :
  digit_density_ok text_blob = true ↔
  (0.02 <= Spec.digit_density text_blob)%Q.
Proof.
  unfold digit_density_ok, Spec.digit_density, Qlt_bool.
  destruct (Str.len text_blob =? 0) eqn:Hlen.
  - apply Nat.eqb_eq in Hlen. rewrite Hlen.
    rewrite (Qle_true_div 2 100) by done. split; [done|]. intros [? _]. lia.
  - rewrite <- Qle_bool_iff.
    by destruct (Qle_bool 0.02 _).
Qed.

(** the digits and the length of the text a frame with a row and a
    column renders to *)
Lemma to_string_counts df :
  wf df → 0 < nrows df → 0 < ncols df →
  Str.count_digits (to_string df)
  = Str.count_digits
      (Spec.labels_and_cells (seq 0 (nrows df)) (seq 0 (ncols df)) (rows df))
  ∧ Str.len (to_string df)
    = S (nrows df)
      * Spec.line_width (seq 0 (nrows df)) (seq 0 (ncols df)) (rows df)
      + nrows df.
Proof.
  intros Hwf Hrows Hcols. unfold to_string.
  assert (seq 0 (nrows df) ≠ []) as Hindex by (destruct (nrows df); [lia|done]).
  assert (seq 0 (ncols df) ≠ []) as Hcolumns by (destruct (ncols df); [lia|done]).
  split.
  - rewrite <- count_digits_unspaced, unspaced_render; try done.
    + by rewrite length_seq.
    + by rewrite length_seq.
  - rewrite len_render, length_seq; try done. by rewrite length_seq.
Qed.

(** C9 (as amended). The structure check passes exactly when no cell of
    the first five columns is longer than 100 characters and, in the
    text the frame renders to, digits are at least 0.02 of all
    characters.  That text is not the text of the cells alone: its
    digits are those of the column labels, of the row labels and of the
    cells, and its characters are those of one line for the column
    labels and one for every row, each of the width of the whole grid,
    with the line feeds between them.  A frame whose rendering has
    density 0.02 passes, one with density 0.019 fails. *)
Theorem digit_density_threshold :
  (∀ df : DataFrame,
     is_valid_data_structure df = true ↔
     cell_length_ok df = true ∧
     (0.02 <= Spec.digit_density (to_string df))%Q)
  ∧ (∀ df : DataFrame,
       wf df → 0 < nrows df → 0 < ncols df →
       Str.count_digits (to_string df)
       = Str.count_digits
           (Spec.labels_and_cells
              (seq 0 (nrows df)) (seq 0 (ncols df)) (rows df))
       ∧ Str.len (to_string df)
         = S (nrows df)
           * Spec.line_width (seq 0 (nrows df)) (seq 0 (ncols df)) (rows df)
           + nrows df)
  ∧ (Spec.digit_density (to_string Examples.two_percent) == 0.02
     ∧ is_valid_data_structure Examples.two_percent = true)%Q
  ∧ (Spec.digit_density (to_string Examples.one_point_nine_percent) == 0.019
     ∧ cell_length_ok Examples.one_point_nine_percent = true
     ∧ is_valid_data_structure Examples.one_point_nine_percent = false)%Q.
Proof.
  split; [|split; [exact to_string_counts|split]].
  - intros df. unfold is_valid_data_structure.
    rewrite <- digit_density_ok_iff.
    destruct (cell_length_ok df); simpl; intuition congruence.
  - split; vm_compute; reflexivity.
  - repeat split; vm_compute; reflexivity.
Qed.

Lemma digit_density_threshold_witness :
  wf Examples.two_in_a_hundred ∧
  Str.count_digits (to_string Examples.two_in_a_hundred)
  = Str.count_digits
      (Spec.labels_and_cells [0; 1] [0] (rows Examples.two_in_a_hundred)) ∧
  Str.len (to_string Examples.two_in_a_hundred)
  = 3 * Spec.line_width [0; 1] [0] (rows Examples.two_in_a_hundred) + 2.
Proof.
  assert (wf Examples.two_in_a_hundred) as Hwf by (repeat constructor).
  split; [exact Hwf|].
  apply (proj1 (proj2 digit_density_threshold) Examples.two_in_a_hundred Hwf);
    vm_compute; lia.
Defined.

(** C9 as stated fails: the cells of the frame hold 100 characters, 2
    of them digits, and the frame fails the check, on the 5 digits in
    311 characters of its rendering *)
Lemma two_percent_in_the_cells_fails :
  ¬ Spec.density_of_cells_decides Examples.two_in_a_hundred.
Proof.
  intros [_ Hpass].
  assert (0.02 <= Spec.digit_density
                    (Spec.grid_text (rows Examples.two_in_a_hundred)))%Q
    as Hcells by (vm_compute; discriminate).
  apply Hpass in Hcells. vm_compute in Hcells. discriminate Hcells.
Qed.

Example two_in_a_hundred_counts :
  Str.count_digits (Spec.grid_text (rows Examples.two_in_a_hundred)) = 2
  ∧ Str.len (Spec.grid_text (rows Examples.two_in_a_hundred)) = 100
  ∧ Str.count_digits (to_string Examples.two_in_a_hundred) = 5
  ∧ Str.len (to_string Examples.two_in_a_hundred) = 311
  ∧ Spec.line_width [0; 1] [0] (rows Examples.two_in_a_hundred) = 103.
Proof. repeat split; vm_compute; reflexivity. Qed.

(** the same threshold on whole numbers *)
Lemma digit_density_ok_counts text_blob :
  digit_density_ok text_blob = true ↔
  0 < Str.len text_blob ∧ Str.len text_blob ≤ 50 * Str.count_digits text_blob.
Proof.
  rewrite digit_density_ok_iff. unfold Spec.digit_density.
  rewrite (Qle_true_div 2 100) by done. lia.
Qed.

(** ** Frames with labels *)

Lemma labelled_wf (d : DataFrame) : wf d → Labelled.wf (Labelled.labelled d).
Proof.
  intros Hwf. unfold Labelled.wf, Labelled.labelled, Labelled.nrows,
    Labelled.ncols. simpl. rewrite !length_seq.
  split; [done|]. split; [apply NoDup_seq|done].
Qed.

Lemma dropna_rows_wf df : Labelled.wf df → Labelled.wf (Labelled.dropna_rows df).
Proof.
  intros (Hlen & Hdup & Hrows).
  unfold Labelled.wf, Labelled.dropna_rows, Labelled.nrows, Labelled.ncols.
  simpl. rewrite !length_fmap. split; [done|]. split; [done|].
  apply Forall_forall. intros row Hrow.
  apply list_elem_of_fmap in Hrow as ([label row'] & -> & Hin).
  apply list_elem_of_filter in Hin as [_ Hin]. apply elem_of_zip_r in Hin.
  rewrite Forall_forall in Hrows. by apply Hrows.
Qed.

Lemma dropna_columns_wf df :
  Labelled.wf df → Labelled.wf (Labelled.dropna_columns df).
Proof.
  intros (Hlen & Hdup & Hrows).
  unfold Labelled.wf, Labelled.dropna_columns, Labelled.nrows, Labelled.ncols.
  simpl. set (kept := filter _ _). rewrite !length_map.
  split; [done|]. split.
  - apply NoDup_fmap_2_strong; [|apply NoDup_filter, NoDup_seq].
    intros c c' Hc Hc' Heq.
    apply list_elem_of_filter in Hc as [_ Hc%elem_of_seq].
    apply list_elem_of_filter in Hc' as [_ Hc'%elem_of_seq].
    destruct (lookup_lt_is_Some_2 (Labelled.columns df) c) as [l Hl];
      [unfold Labelled.ncols in Hc; lia|].
    destruct (lookup_lt_is_Some_2 (Labelled.columns df) c') as [l' Hl'];
      [unfold Labelled.ncols in Hc'; lia|].
    rewrite (nth_lookup_Some _ _ _ _ Hl), (nth_lookup_Some _ _ _ _ Hl') in Heq.
    subst l'. by apply (proj1 (NoDup_alt _) Hdup c c' l).
  - apply Forall_map, Forall_forall. intros row _. simpl.
    by rewrite length_map.
Qed.

Lemma map_texts_wf f df : Labelled.wf df → Labelled.wf (Labelled.map_texts f df).
Proof.
  intros (Hlen & Hdup & Hrows).
  unfold Labelled.wf, Labelled.map_texts, Labelled.nrows, Labelled.ncols.
  simpl. rewrite length_map. split; [done|]. split; [done|].
  apply Forall_map. eapply Forall_impl; [exact Hrows|].
  intros row Hrow. simpl. by rewrite length_map.
Qed.

Lemma iloc_from_wf df a : Labelled.wf df → Labelled.wf (Labelled.iloc_from df a).
Proof.
  intros (Hlen & Hdup & Hrows).
  unfold Labelled.wf, Labelled.iloc_from, Labelled.nrows, Labelled.ncols.
  simpl. rewrite !length_drop. unfold Labelled.nrows in Hlen.
  split; [lia|]. split; [done|]. by apply Forall_drop.
Qed.

Lemma iloc_from_0 df : Labelled.iloc_from df 0 = df.
Proof. destruct df. unfold Labelled.iloc_from. simpl. by rewrite !drop_0. Qed.

Lemma elem_of_union a b l : l ∈ Labelled.union a b ↔ l ∈ a ∨ l ∈ b.
Proof.
  unfold Labelled.union. rewrite elem_of_app, list_elem_of_filter.
  destruct (decide (l ∈ a)); tauto.
Qed.

Lemma union_NoDup a b : NoDup a → NoDup b → NoDup (Labelled.union a b).
Proof.
  intros Ha Hb. unfold Labelled.union. apply NoDup_app.
  split; [done|]. split; [|by apply NoDup_filter].
  intros l Hl [Hnot _]%list_elem_of_filter. done.
Qed.

Lemma length_reindex from to row :
  length (Labelled.reindex from to row) = length to.
Proof. unfold Labelled.reindex. by rewrite length_map. Qed.

Lemma pd_concat_labels_wf a b :
  NoDup (Labelled.columns a) → NoDup (Labelled.columns b) →
  Labelled.wf (Labelled.pd_concat a b).
Proof.
  intros Ha Hb.
  unfold Labelled.wf, Labelled.pd_concat, Labelled.nrows, Labelled.ncols.
  simpl. rewrite length_seq. split; [done|]. split; [by apply union_NoDup|].
  apply Forall_app. split; apply Forall_map, Forall_forall; intros row _;
    apply length_reindex.
Qed.

(** the cell under a label, by the position of the label *)
Lemma at_label_text columns : ∀ row l s,
  NoDup columns →
  Labelled.at_label columns row l = Some s ↔
  ∃ j, columns !! j = Some l ∧ row !! j = Some (Some s).
Proof.
  induction columns as [|c columns IH]; intros row l s Hdup.
  { split; [done|]. by intros (j & Hj & _). }
  apply NoDup_cons in Hdup as [Hc Hdup].
  destruct row as [|v row].
  { split; [done|]. by intros (j & _ & Hj). }
  cbn [Labelled.at_label]. destruct (c =? l) eqn:Hcl.
  - apply Nat.eqb_eq in Hcl as ->. split.
    + intros ->. by exists 0.
    + intros ([|j] & Hj & Hv); [by simplify_eq/=|].
      simpl in Hj. apply list_elem_of_lookup_2 in Hj. done.
  - apply Nat.eqb_neq in Hcl. rewrite IH by done. split.
    + intros (j & Hj & Hv). by exists (S j).
    + intros ([|j] & Hj & Hv); [by simplify_eq/=|]. by exists j.
Qed.

(** the texts of a row laid out anew are those it had under the labels
    that are kept *)
Lemma reindex_text from to row l s :
  NoDup from →
  (∃ j, to !! j = Some l ∧ Labelled.reindex from to row !! j = Some (Some s))
  ↔ l ∈ to ∧ ∃ j, from !! j = Some l ∧ row !! j = Some (Some s).
Proof.
  intros Hdup. unfold Labelled.reindex. split.
  - intros (j & Hj & Hs). rewrite list_lookup_fmap, Hj in Hs.
    simpl in Hs. injection Hs as Hs. apply at_label_text in Hs; [|done].
    split; [by eapply list_elem_of_lookup_2|done].
  - intros ([j Hj]%list_elem_of_lookup_1 & Hs).
    exists j. split; [done|]. rewrite list_lookup_fmap, Hj. simpl.
    f_equal. by apply at_label_text.
Qed.

(** the texts of the frame [pd.concat] gives *)
Lemma pd_concat_text a b r l s :
  Labelled.wf a → Labelled.wf b →
  Spec.text_at (Labelled.pd_concat a b) r l s ↔
  Spec.text_at a r l s
  ∨ ∃ r', r = Labelled.nrows a + r' ∧ Spec.text_at b r' l s.
Proof.
  intros (Hlena & Hdupa & _) (Hlenb & Hdupb & _).
  unfold Spec.text_at, Labelled.pd_concat. simpl.
  set (cols := Labelled.union _ _). split.
  - intros (row & j & Hrow & Hj & Hs).
    apply lookup_app_Some in Hrow as [Hrow|[Hge Hrow]];
      rewrite list_lookup_fmap in Hrow;
      destruct (Labelled.rows _ !! _) as [row0|] eqn:Hrow0; simplify_eq/=.
    + left. exists row0.
      destruct (proj1 (reindex_text _ cols row0 l s Hdupa)) as (_ & j' & ? & ?);
        [by exists j|]. by exists j'.
    + right. rewrite length_map, Hlena in Hge, Hrow0.
      exists (r - Labelled.nrows a). split; [lia|]. exists row0.
      destruct (proj1 (reindex_text _ cols row0 l s Hdupb)) as (_ & j' & ? & ?);
        [by exists j|]. by exists j'.
  - intros [(row & j & Hrow & Hj & Hs)|(r' & -> & row & j & Hrow & Hj & Hs)].
    + destruct (proj2 (reindex_text (Labelled.columns a) cols row l s Hdupa))
        as (j' & Hj' & Hs').
      { split; [|by exists j]. apply elem_of_union. left.
        by eapply list_elem_of_lookup_2. }
      exists (Labelled.reindex (Labelled.columns a) cols row), j'.
      split; [|done]. rewrite lookup_app_l.
      * by rewrite list_lookup_fmap, Hrow.
      * rewrite length_map. by eapply lookup_lt_Some.
    + destruct (proj2 (reindex_text (Labelled.columns b) cols row l s Hdupb))
        as (j' & Hj' & Hs').
      { split; [|by exists j]. apply elem_of_union. right.
        by eapply list_elem_of_lookup_2. }
      exists (Labelled.reindex (Labelled.columns b) cols row), j'.
      split; [|done]. rewrite lookup_app_r by (rewrite length_map; lia).
      rewrite length_map, Hlena.
      replace (Labelled.nrows a + r' - Labelled.nrows a) with r' by lia.
      by rewrite list_lookup_fmap, Hrow.
Qed.

Lemma iloc_from_text df k r l s :
  Spec.text_at (Labelled.iloc_from df k) r l s ↔ Spec.text_at df (k + r) l s.
Proof.
  unfold Spec.text_at, Labelled.iloc_from. simpl. by rewrite lookup_drop.
Qed.

(** [pd.concat] on a chain and the rows of a fragment from row [k] on *)
Lemma pd_concat_appended_from k chain fragment :
  Labelled.wf chain → Labelled.wf fragment →
  Spec.appended_from k chain fragment
    (Labelled.pd_concat chain (Labelled.iloc_from fragment k)).
Proof.
  intros Hchain Hfragment.
  pose proof (iloc_from_wf fragment k Hfragment) as Hrest.
  split; [apply pd_concat_labels_wf; [apply Hchain|apply Hrest]|].
  assert (Labelled.nrows
            (Labelled.pd_concat chain (Labelled.iloc_from fragment k))
          = Labelled.nrows chain + (Labelled.nrows fragment - k)) as Hrows.
  { unfold Labelled.pd_concat, Labelled.nrows at 1. simpl.
    rewrite length_seq, length_app, !length_map, length_drop.
    destruct Hchain as [-> _]. by destruct Hfragment as [-> _]. }
  split.
  { rewrite Hrows. unfold Labelled.pd_concat. simpl.
    rewrite length_app, !length_map, length_drop.
    destruct Hchain as [-> _]. by destruct Hfragment as [-> _]. }
  split; [done|]. split.
  - intros l. unfold Labelled.pd_concat. simpl. apply elem_of_union.
  - intros r l s. rewrite pd_concat_text by done.
    by setoid_rewrite iloc_from_text.
Qed.

(** ** OCR_table_extractor: the garbage filter *)

Import OCR_table_extractor.

Lemma is_valid_table_iff (d : Labelled.DataFrame) :
  is_valid_table d = true ↔
  2 ≤ Labelled.nrows d ∧ 2 ≤ Labelled.ncols d ∧
  (0.08 <= Spec.digit_density
             (Str.remove_char Str.LF
                (Str.remove_char Str.SPACE (Labelled.to_string d))))%Q.
Proof.
  unfold is_valid_table, Spec.digit_density.
  set (blob := Str.remove_char _ _).
  destruct (Labelled.nrows d <? 2) eqn:Hr; simpl.
  { apply Nat.ltb_lt in Hr. split; [done|]. lia. }
  destruct (Labelled.ncols d <? 2) eqn:Hc; simpl.
  { apply Nat.ltb_lt in Hc. split; [done|]. lia. }
  apply Nat.ltb_ge in Hr, Hc.
  destruct (Str.len blob =? 0) eqn:Hlen.
  - apply Nat.eqb_eq in Hlen. rewrite Hlen.
    rewrite (Qle_true_div 8 100) by done. split; [done|]. lia.
  - rewrite Qle_bool_iff. tauto.
Qed.

(** the text [is_valid_table] counts in: the labels and the cells *)
Lemma text_blob_labels_and_cells (d : Labelled.DataFrame) :
  Labelled.wf d → 0 < Labelled.nrows d → 0 < Labelled.ncols d →
  Str.remove_char Str.LF (Str.remove_char Str.SPACE (Labelled.to_string d))
  = Spec.labels_and_cells
      (Labelled.index d) (Labelled.columns d) (Labelled.rows d).
Proof.
  intros (Hlen & _ & Hrows) Hr Hc. rewrite remove_unspaced.
  unfold Labelled.to_string, Labelled.nrows, Labelled.ncols in *.
  apply unspaced_render; try done.
  - destruct (Labelled.index d); [simpl in *; lia|done].
  - destruct (Labelled.columns d); [simpl in *; lia|done].
Qed.

Lemma cleanup_wf (table_df : DataFrame) :
  wf table_df → Labelled.wf (cleanup table_df).
Proof.
  intros Hwf. unfold cleanup.
  by apply map_texts_wf, dropna_columns_wf, dropna_rows_wf, labelled_wf.
Qed.

Lemma elem_of_collect_raw_tables
    (extracted_tables : list (nat * list DataFrame)) (e : entry) :
  e ∈ collect_raw_tables extracted_tables ↔
  ∃ page_idx tables table_df,
    (page_idx, tables) ∈ extracted_tables ∧ table_df ∈ tables ∧
    is_valid_table (cleanup table_df) = true ∧
    e = mkEntry (page_idx + 1) (cleanup table_df).
Proof.
  unfold collect_raw_tables.
  rewrite list_elem_of_In, in_flat_map. split.
  - intros ([page_idx tables] & Hin & He).
    apply list_elem_of_In, list_elem_of_fmap in He as (d & -> & Hd).
    apply list_elem_of_filter in Hd as [Hvalid Hd].
    apply list_elem_of_fmap in Hd as (table_df & -> & Hd).
    exists page_idx, tables, table_df. by rewrite list_elem_of_In.
  - intros (page_idx & tables & table_df & Hin & Hd & Hvalid & ->).
    exists (page_idx, tables). rewrite <- list_elem_of_In. split; [done|].
    apply list_elem_of_In, list_elem_of_fmap.
    exists (cleanup table_df). split; [done|].
    apply list_elem_of_filter. split; [done|].
    by apply list_elem_of_fmap_2.
Qed.

(** C10 (as amended). A cleaned table passes [is_valid_table] exactly
    when it has at least 2 rows, at least 2 columns and digits are at
    least 0.08 of the characters of the text it renders to without
    spaces and line feeds.  That text is not the text of the cells
    alone: it is made of the column labels, then row after row of the
    row label and the cells.  The entries handed to the stitcher are
    the cleaned tables that pass, each with its page number; every
    other table is left out. *)
Theorem only_valid_tables_reach_stitching :
  (∀ d : Labelled.DataFrame,
     Labelled.wf d →
     is_valid_table d = true ↔
     2 ≤ Labelled.nrows d ∧ 2 ≤ Labelled.ncols d ∧
     (0.08 <= Spec.digit_density
                (Spec.labels_and_cells
                   (Labelled.index d) (Labelled.columns d) (Labelled.rows d)))%Q)
  ∧ (∀ (extracted_tables : list (nat * list DataFrame)) (e : entry),
       e ∈ collect_raw_tables extracted_tables ↔
       ∃ page_idx tables table_df,
         (page_idx, tables) ∈ extracted_tables ∧ table_df ∈ tables ∧
         is_valid_table (cleanup table_df) = true ∧
         e = mkEntry (page_idx + 1) (cleanup table_df)).
Proof.
  split.
  - intros d Hwf. rewrite is_valid_table_iff.
    split; intros (Hr & Hc & Hdensity); (split; [done|]); (split; [done|]).
    + rewrite <- text_blob_labels_and_cells by (done || lia). done.
    + rewrite text_blob_labels_and_cells by (done || lia). done.
  - intros extracted_tables e. apply elem_of_collect_raw_tables.
Qed.

Lemma only_valid_tables_reach_stitching_witness :
  Labelled.wf (cleanup Examples.page_1) ∧
  is_valid_table (cleanup Examples.page_1) = true ∧
  (0.08 <= Spec.digit_density
             (Spec.labels_and_cells
                [0; 1]%nat [0; 1; 2]%nat (rows Examples.page_1)))%Q.
Proof.
  assert (Labelled.wf (cleanup Examples.page_1)) as Hwf
    by (apply cleanup_wf; repeat constructor).
  assert (is_valid_table (cleanup Examples.page_1) = true) as Hvalid
    by (vm_compute; reflexivity).
  split; [exact Hwf|]. split; [exact Hvalid|].
  exact (proj2 (proj2 (proj1 (proj1 only_valid_tables_reach_stitching
                                _ Hwf) Hvalid))).
Defined.

(** C10 as stated fails: the table has no digit in any cell, and is
    admitted on the digits of its labels, 4 of the 8 characters *)
Lemma table_without_a_digit_is_admitted :
  ¬ Spec.admitted_on_cell_density (cleanup Examples.letters).
Proof.
  intros Hrule.
  destruct Hrule as (_ & _ & Hdensity); [vm_compute; reflexivity|].
  vm_compute in Hdensity. by apply Hdensity.
Qed.

Example letters_are_admitted :
  Str.remove_char Str.LF
    (Str.remove_char Str.SPACE (Labelled.to_string (cleanup Examples.letters)))
  = "010ab1cd"
  ∧ collect_raw_tables [(0, [Examples.letters])]
    = [mkEntry 1 (cleanup Examples.letters)].
Proof. split; vm_compute; reflexivity. Qed.

(** the labels are those [dropna] leaves: ten rows of letters are left
    out under the labels 0 to 9, with 12 digits in 152 characters, and
    admitted under the labels 0 to 4 and 6 to 10, with 13 in 153 *)
Example labels_left_by_dropna :
  Labelled.index (cleanup Examples.ten_rows_and_a_blank)
  = [0; 1; 2; 3; 4; 6; 7; 8; 9; 10]
  ∧ Labelled.rows (cleanup Examples.ten_rows_and_a_blank)
    = rows Examples.ten_rows
  ∧ is_valid_table (cleanup Examples.ten_rows) = false
  ∧ is_valid_table (cleanup Examples.ten_rows_and_a_blank) = true.
Proof. repeat split; vm_compute; reflexivity. Qed.

Example labels_left_by_dropna_counts :
  let blob d :=
    Str.remove_char Str.LF (Str.remove_char Str.SPACE (Labelled.to_string d)) in
  (Str.count_digits (blob (cleanup Examples.ten_rows)),
   Str.len (blob (cleanup Examples.ten_rows))) = (12, 152)
  ∧ (Str.count_digits (blob (cleanup Examples.ten_rows_and_a_blank)),
     Str.len (blob (cleanup Examples.ten_rows_and_a_blank))) = (13, 153).
Proof. split; vm_compute; reflexivity. Qed.

(** ** The stitchers *)

Lemma Qle_true_div_pos (num : Z) (den : positive) (d t : nat) :
  0 < t →
  (num # den <= true_div d t)%Q ↔
  (num * Z.of_nat t ≤ Z.of_nat d * Z.pos den)%Z.
Proof.
  intros Ht. destruct t as [|t]; [lia|].
  unfold true_div, Qle, Qdiv, Qmult, Qinv, inject_Z. simpl. lia.
Qed.

(** [match_count > len(row_0_new) / 2] *)
Lemma half_match_test (len count : nat) :
  Qlt_bool (true_div len 2) (inject_Z (Z.of_nat count))
  = bool_decide (len < 2 * count).
Proof.
  unfold Qlt_bool. change (inject_Z (Z.of_nat count)) with (Z.of_nat count # 1).
  pose proof (Qle_bool_iff (Z.of_nat count # 1) (true_div len 2)) as Hle.
  rewrite (Qle_true_div_pos _ _ len 2) in Hle by lia.
  destruct (Qle_bool _ _); simpl; symmetry.
  - apply bool_decide_eq_false. destruct Hle as [Hle _].
    specialize (Hle eq_refl). lia.
  - apply bool_decide_eq_true.
    destruct (decide (len < 2 * count)) as [|Hge]; [done|].
    destruct Hle as [_ Hle]. discriminate Hle. lia.
Qed.

Lemma eq_cells_spec (x y : cell) :
  eq_cells x y = bool_decide (is_Some x ∧ x = y).
Proof.
  destruct x as [a|], y as [b|]; unfold eq_cells; symmetry.
  - destruct (String.eqb_spec a b) as [->|Hne].
    + apply bool_decide_eq_true. by split.
    + apply bool_decide_eq_false. intros [_ ?]. by simplify_eq.
  - apply bool_decide_eq_false. by intros [_ ?].
  - apply bool_decide_eq_false. by intros [[? ?] _].
  - apply bool_decide_eq_false. by intros [[? ?] _].
Qed.

Lemma match_count_matching row_new i row_old :
  i + length row_new ≤ length row_old →
  match_count i row_new row_old
  = Some (Spec.matching row_new (drop i row_old)).
Proof.
  revert i. induction row_new as [|x rest IH]; intros i Hlen; [done|].
  simpl in Hlen.
  destruct (lookup_lt_is_Some_2 row_old i) as [y Hy]; [lia|].
  simpl. rewrite Hy. simpl. rewrite IH by lia. simpl.
  rewrite (drop_S _ _ _ Hy). unfold Spec.matching. simpl.
  rewrite filter_cons. simpl. rewrite eq_cells_spec.
  case_bool_decide; case_decide; done.
Qed.

(** the rows the header check leaves to the merge *)
Lemma drop_repeated_header_rule curr_df next_df row_old row_new :
  Labelled.rows curr_df !! 0 = Some row_old →
  Labelled.rows next_df !! 0 = Some row_new →
  length row_new ≤ length row_old →
  drop_repeated_header curr_df next_df
  = Some (Labelled.iloc_from next_df (Spec.repeated_header curr_df next_df)).
Proof.
  intros Hold Hnew Hlen.
  unfold drop_repeated_header, Spec.repeated_header, Labelled.iloc.
  rewrite Hnew, Hold. simpl.
  rewrite (match_count_matching row_new 0 row_old) by lia.
  rewrite drop_0. simpl. rewrite half_match_test.
  case_bool_decide; case_decide; try lia; [done|].
  by rewrite iloc_from_0.
Qed.

Lemma first_rows_of_ready_frames (c n : Labelled.DataFrame) :
  Labelled.wf c → Labelled.wf n →
  0 < Labelled.nrows c → 0 < Labelled.nrows n →
  Labelled.ncols c = Labelled.ncols n →
  ∃ row_old row_new,
    Labelled.rows c !! 0 = Some row_old ∧
    Labelled.rows n !! 0 = Some row_new ∧
    length row_new = length row_old.
Proof.
  intros (Hlc & _ & Hc) (Hln & _ & Hn) Hrc Hrn Hwidth.
  destruct (Labelled.rows c) as [|row_old ?]; [simpl in *; lia|].
  destruct (Labelled.rows n) as [|row_new ?]; [simpl in *; lia|].
  exists row_old, row_new. repeat split.
  apply Forall_cons in Hc as [-> _]. by apply Forall_cons in Hn as [-> _].
Qed.

(** a turn on a fragment that is adjacent and as wide *)
Lemma stitch_turn_merges h stitched cur nxt c n :
  h !! cur = Some c → h !! nxt = Some n →
  Labelled.wf (df c) → Labelled.wf (df n) →
  0 < Labelled.nrows (df c) → 0 < Labelled.nrows (df n) →
  Spec.adjacent_same_width
    (page c) (page n) (Labelled.ncols (df c)) (Labelled.ncols (df n)) →
  stitch_turn (h, stitched, cur) nxt
  = Some (<[cur := mkEntry (page n)
                     (Labelled.pd_concat (df c)
                        (Labelled.iloc_from (df n)
                           (Spec.repeated_header (df c) (df n))))]> h,
          stitched, cur).
Proof.
  intros Hc Hn Hwfc Hwfn Hrc Hrn [Hpage Hwidth].
  destruct (first_rows_of_ready_frames (df c) (df n))
    as (row_old & row_new & Hold & Hnew & Hlen); [done..|].
  unfold stitch_turn. rewrite Hc, Hn. simpl.
  rewrite (proj2 (Nat.eqb_eq _ _) Hpage), (proj2 (Nat.eqb_eq _ _) Hwidth).
  simpl.
  rewrite (drop_repeated_header_rule _ _ row_old row_new) by (done || lia).
  simpl. by rewrite insert_insert_eq.
Qed.

(** a turn on any other fragment *)
Lemma stitch_turn_seals h stitched cur nxt c n :
  h !! cur = Some c → h !! nxt = Some n →
  ¬ Spec.adjacent_same_width
      (page c) (page n) (Labelled.ncols (df c)) (Labelled.ncols (df n)) →
  stitch_turn (h, stitched, cur) nxt = Some (h, stitched ++ [cur], nxt).
Proof.
  intros Hc Hn Hnot. unfold stitch_turn. rewrite Hc, Hn. simpl.
  destruct (page n =? page c + 1) eqn:Hpage;
    destruct (Labelled.ncols (df c) =? Labelled.ncols (df n)) eqn:Hwidth;
    simpl; try done.
  destruct Hnot. split; by apply Nat.eqb_eq.
Qed.

Lemma are_tables_mergeable_iff prev_df curr_df prev_page curr_page :
  PDFScraper.are_tables_mergeable prev_df curr_df prev_page curr_page = true ↔
  Spec.adjacent_same_width prev_page curr_page (ncols prev_df) (ncols curr_df).
Proof.
  unfold PDFScraper.are_tables_mergeable, Spec.adjacent_same_width.
  destruct (curr_page =? prev_page + 1) eqn:Hpage;
    destruct (ncols prev_df =? ncols curr_df) eqn:Hwidth; simpl;
    rewrite ?Nat.eqb_eq, ?Nat.eqb_neq in *; intuition (try congruence).
Qed.

(** *** The store during a run of [stitch_tables] *)

(** a turn assigns to no dict but the open chain's, and either keeps
    the chain open or seals it *)
Lemma stitch_turn_frame h stitched cur nxt h' stitched' cur' :
  stitch_turn (h, stitched, cur) nxt = Some (h', stitched', cur') →
  (∀ r, r ≠ cur → h' !! r = h !! r) ∧
  ((stitched' = stitched ∧ cur' = cur)
   ∨ (h' = h ∧ stitched' = stitched ++ [cur] ∧ cur' = nxt)).
Proof.
  unfold stitch_turn. intros Hturn.
  destruct (h !! cur) as [c|]; [|done].
  destruct (h !! nxt) as [n|]; [|done]. simpl in Hturn.
  destruct ((page n =? page c + 1)
            && (Labelled.ncols (df c) =? Labelled.ncols (df n))).
  - destruct (drop_repeated_header (df c) (df n)) as [appended_df|]; [|done].
    simpl in Hturn. simplify_eq. split; [|by left].
    intros r Hr. by rewrite !lookup_insert_ne.
  - simplify_eq. split; [done|]. by right.
Qed.

Lemma stitch_loop_frame rest (h0 h : store) stitched cur h' stitched' cur' :
  (∀ r, r ∉ stitched → r ≠ cur → h !! r = h0 !! r) →
  stitch_loop (h, stitched, cur) rest = Some (h', stitched', cur') →
  ∀ r, r ∉ stitched' → r ≠ cur' → h' !! r = h0 !! r.
Proof.
  revert h stitched cur. induction rest as [|nxt rest IH];
    intros h stitched cur Hinv Hloop; cbn [stitch_loop] in Hloop.
  - by simplify_eq.
  - destruct (stitch_turn (h, stitched, cur) nxt) as [[[h1 st1] cur1]|] eqn:Ht;
      [|done].
    cbn [mbind option_bind] in Hloop. apply (IH h1 st1 cur1); [|done].
    apply stitch_turn_frame in Ht as [Hother [[-> ->]|(-> & -> & ->)]].
    + intros r Hst Hcur. rewrite Hother by done. by apply Hinv.
    + intros r Hst Hcur. apply Hinv; set_solver.
Qed.

(** [stitch_tables] leaves every dict that it does not return as it
    was *)
Lemma stitch_tables_frame h table_list h' stitched :
  stitch_tables h table_list = Some (h', stitched) →
  ∀ r, r ∉ stitched → h' !! r = h !! r.
Proof.
  unfold stitch_tables. destruct table_list as [|first rest].
  - intros ?. by simplify_eq.
  - destruct (stitch_loop (h, [], first) rest) as [[[h1 st1] cur1]|] eqn:Hloop;
      [|done].
    simpl. intros ? r Hr. simplify_eq.
    apply (stitch_loop_frame rest h h [] first h' st1 cur1); [done..| |];
      set_solver.
Qed.

Lemma ready_insert (h : store) cur e r :
  Labelled.wf (df e) → 0 < Labelled.nrows (df e) →
  Spec.ready h r → Spec.ready (<[cur := e]> h) r.
Proof.
  intros Hwf Hrow (e' & He' & Hwf' & Hrow').
  destruct (decide (cur = r)) as [->|Hne].
  - exists e. by rewrite lookup_insert_eq.
  - exists e'. by rewrite lookup_insert_ne.
Qed.

Lemma stitch_turn_ready h stitched cur nxt :
  Spec.ready h cur → Spec.ready h nxt →
  ∃ h' stitched' cur',
    stitch_turn (h, stitched, cur) nxt = Some (h', stitched', cur') ∧
    (∀ r, Spec.ready h r → Spec.ready h' r) ∧ Spec.ready h' cur'.
Proof.
  intros Hcur Hnxt.
  pose proof Hcur as (c & Hc & Hwfc & Hrc).
  pose proof Hnxt as (n & Hn & Hwfn & Hrn).
  destruct (decide (Spec.adjacent_same_width
                      (page c) (page n)
                      (Labelled.ncols (df c)) (Labelled.ncols (df n))))
    as [Hm|Hnot].
  - destruct (pd_concat_appended_from
                (Spec.repeated_header (df c) (df n)) (df c) (df n) Hwfc Hwfn)
      as (Hwfm & _ & Hrm & _).
    eexists _, _, _. split; [by eapply stitch_turn_merges|]. split.
    + intros r Hr. apply ready_insert; [done|simpl; lia|done].
    + apply ready_insert; [done|simpl; lia|done].
  - eexists _, _, _. split; [by eapply stitch_turn_seals|]. done.
Qed.

(** on dicts that hold frames with a row the loop runs to its end, and
    leaves such dicts *)
Lemma stitch_loop_ready rest h stitched cur :
  Spec.ready h cur → Forall (Spec.ready h) rest →
  ∃ h' stitched' cur',
    stitch_loop (h, stitched, cur) rest = Some (h', stitched', cur') ∧
    (∀ r, Spec.ready h r → Spec.ready h' r) ∧ Spec.ready h' cur'.
Proof.
  revert h stitched cur. induction rest as [|nxt rest IH];
    intros h stitched cur Hcur Hrest; cbn [stitch_loop]; [by eexists _, _, _|].
  apply Forall_cons in Hrest as [Hnxt Hrest].
  destruct (stitch_turn_ready h stitched cur nxt Hcur Hnxt)
    as (h1 & stitched1 & cur1 & -> & Hkeep1 & Hcur1).
  cbn [mbind option_bind].
  destruct (IH h1 stitched1 cur1 Hcur1) as (h' & stitched' & cur' & Hloop & Hkeep & Hcur').
  { by eapply Forall_impl. }
  exists h', stitched', cur'. split; [done|]. split; [|done].
  intros r Hr. by apply Hkeep, Hkeep1.
Qed.

(** on dicts that hold frames with a row, [stitch_tables] returns *)
Lemma stitch_tables_returns h table_list :
  Forall (Spec.ready h) table_list →
  ∃ h' stitched, stitch_tables h table_list = Some (h', stitched).
Proof.
  intros Hready. unfold stitch_tables.
  destruct table_list as [|first rest]; [by eexists _, _|].
  apply Forall_cons in Hready as [Hfirst Hrest].
  destruct (stitch_loop_ready rest h [] first Hfirst Hrest)
    as (h' & stitched & cur & -> & _).
  simpl. by eexists _, _.
Qed.

(** the dicts [process_pdf] collects hold frames with a row, so the
    stitcher returns on them *)
Lemma raw_tables_ready extracted_tables :
  Forall (fun pt => Forall wf pt.2) extracted_tables →
  let '(h, table_list) := alloc (collect_raw_tables extracted_tables) in
  Forall (Spec.ready h) table_list.
Proof.
  intros Hwf. unfold alloc. apply Forall_forall. intros r Hr.
  apply list_elem_of_In, in_seq in Hr.
  destruct (lookup_lt_is_Some_2 (collect_raw_tables extracted_tables) r)
    as [e He]; [lia|].
  exists e. rewrite lookup_map_seq_0. split; [done|].
  apply list_elem_of_lookup_2 in He.
  apply elem_of_collect_raw_tables in He
    as (page_idx & tables & d & Hin & Hd & Hvalid & ->).
  rewrite Forall_forall in Hwf. specialize (Hwf _ Hin).
  rewrite Forall_forall in Hwf. split; [by apply cleanup_wf, Hwf|].
  apply is_valid_table_iff in Hvalid. simpl. lia.
Qed.



(** when the pdfplumber stitcher merges a fragment it appends all of
    the fragment's rows, in order *)
Lemma pdfplumber_appends_all_rows
    (final_tables : list DataFrame) (cur nxt : PDFScraper.piece) :
  Spec.adjacent_same_width
    (PDFScraper.page cur) (PDFScraper.page nxt)
    (ncols (PDFScraper.df cur)) (ncols (PDFScraper.df nxt)) →
  ∃ merged_df,
    PDFScraper.stitch_turn (final_tables, cur) nxt
    = (final_tables, PDFScraper.mkPiece (PDFScraper.page nxt) merged_df) ∧
    rows merged_df = rows (PDFScraper.df cur) ++ rows (PDFScraper.df nxt).
Proof.
  intros Hm. apply are_tables_mergeable_iff in Hm.
  eexists. unfold PDFScraper.stitch_turn. rewrite Hm. split; reflexivity.
Qed.

(** C4 (code bug). The stitching loop of [process_pdfs_with_stitching]
    merges the fragments of pages 1 and 2 and keeps the second
    fragment's first row, all three cells of which repeat the chain's
    first row: the merged table has four rows, the header twice.  On
    the same two fragments the OCR stitcher, which has the header check,
    returns three rows. *)
Theorem pdfplumber_stitcher_keeps_repeated_header :
  rows Examples.page_1 !! 0 = Some Examples.header
  ∧ rows Examples.page_2 !! 0 = Some Examples.header
  ∧ length Examples.header < 2 * Spec.matching Examples.header Examples.header
  ∧ PDFScraper.are_tables_mergeable Examples.page_1 Examples.page_2 1 2 = true
  ∧ PDFScraper.stitch_pieces
      [PDFScraper.mkPiece 1 Examples.page_1; PDFScraper.mkPiece 2 Examples.page_2]
    = [mkDataFrame 3
         [Examples.header; texts ["Brazil"; "Rice"; "2023"];
          Examples.header; texts ["India"; "Rice"; "2023"]]]
  ∧ final_tables [(0, [Examples.page_1]); (1, [Examples.page_2])]
    = Some [mkEntry 2 Examples.pages_1_2].
Proof.
  split; [reflexivity|]. split; [reflexivity|].
  split; [vm_compute; lia|]. repeat split; vm_compute; reflexivity.
Qed.

(** the two cases of header suppression on the OCR stitcher *)
Example repeated_header_is_dropped :
  Spec.repeated_header (Labelled.labelled Examples.page_1)
                       (Labelled.labelled Examples.page_2) = 1
  ∧ final_tables [(0, [Examples.page_1]); (1, [Examples.page_2])]
    = Some [mkEntry 2 Examples.pages_1_2].
Proof. split; vm_compute; reflexivity. Qed.

Example data_row_is_kept :
  Spec.repeated_header (Labelled.labelled Examples.page_1)
                       (Labelled.labelled Examples.page_2_data) = 0
  ∧ final_tables [(0, [Examples.page_1]); (1, [Examples.page_2_data])]
    = Some [mkEntry 2
              (Labelled.mkDataFrame [0; 1; 2; 3] [0; 1; 2]
                 [Examples.header; texts ["Brazil"; "Rice"; "2023"];
                  texts ["Brazil"; "Rice"; "2023"];
                  texts ["India"; "Rice"; "2023"]])].
Proof. split; vm_compute; reflexivity. Qed.

(** a missing value equals nothing, itself included: of the three cells
    of the repeated first row one matches, and the row is kept *)
Example missing_values_do_not_match :
  let row := [Some "Country"; None; None] in
  Spec.matching row row = 1
  ∧ match_count 0 row row = Some 1
  ∧ Spec.repeated_header
      (Labelled.mkDataFrame [0; 1] [0; 1; 2] [row; texts ["Brazil"; "1"; "2"]])
      (Labelled.mkDataFrame [0; 1] [0; 1; 2] [row; texts ["India"; "3"; "4"]])
    = 0.
Proof. repeat split; vm_compute; reflexivity. Qed.

(** the merge is by column label: of two tables of three columns, one
    that lost its last column to the cleanup and one that lost its
    second, the merged table has four columns, each text under its own
    label *)
Example merge_is_by_column_label :
  Labelled.columns (cleanup Examples.last_column_blank) = [0; 1; 2]
  ∧ Labelled.columns (cleanup Examples.second_column_blank) = [0; 2; 3]
  ∧ final_tables [(0, [Examples.last_column_blank]);
                  (1, [Examples.second_column_blank])]
    = Some [mkEntry 2
              (Labelled.mkDataFrame [0; 1; 2; 3] [0; 1; 2; 3]
                 [[Some "Country"; Some "2021"; Some "2022"; None];
                  [Some "Brazil"; Some "11"; Some "12"; None];
                  [Some "India"; None; Some "21"; Some "22"];
                  [Some "Japan"; None; Some "31"; Some "32"]])].
Proof. repeat split; vm_compute; reflexivity. Qed.

(** fragments on pages 3 and 5, and fragments of different width on
    pages 3 and 4, stay apart *)
Example gap_is_not_merged :
  PDFScraper.stitch_pieces
    [PDFScraper.mkPiece 3 Examples.page_1; PDFScraper.mkPiece 5 Examples.page_2]
  = [Examples.page_1; Examples.page_2].
Proof. reflexivity. Qed.

Example other_width_is_not_merged :
  PDFScraper.stitch_pieces
    [PDFScraper.mkPiece 3 Examples.page_1; PDFScraper.mkPiece 4 Examples.titled]
  = [Examples.page_1; Examples.titled].
Proof. reflexivity. Qed.

(** C7, at a run: [process_pdf] collects the two fragments of
    [Examples.two_dicts] and hands them to [stitch_tables], which merges
    them; the dict of the first fragment, which the caller's list
    [raw_tables] still holds, then carries page 2 and the merged frame
    in place of page 1 and its own two rows *)
Lemma stitch_tables_overwrites_its_input :
  alloc (collect_raw_tables [(0, [Examples.page_1]); (1, [Examples.page_2])])
  = (Examples.two_dicts, Examples.raw_tables) ∧
  Examples.two_dicts !! 0 = Some (mkEntry 1 (Labelled.labelled Examples.page_1)) ∧
  ∃ h', stitch_tables Examples.two_dicts Examples.raw_tables = Some (h', [0]) ∧
    h' !! 0 = Some (mkEntry 2 Examples.pages_1_2) ∧
    h' !! 1 = Examples.two_dicts !! 1.
Proof.
  split; [vm_compute; reflexivity|]. split; [reflexivity|].
  destruct (stitch_tables Examples.two_dicts Examples.raw_tables)
    as [[h' out]|] eqn:Hrun; [|by vm_compute in Hrun].
  assert (out = [0] ∧ h' !! 0 = Some (mkEntry 2 Examples.pages_1_2) ∧
          h' !! 1 = Examples.two_dicts !! 1) as (-> & H0 & H1).
  { vm_compute in Hrun. injection Hrun as <- <-.
    repeat split; vm_compute; reflexivity. }
  by exists h'.
Qed.

(** the pdfplumber stitcher on the same fragments returns the merged
    frame; its pieces are values and nothing is assigned to *)
Example pdfplumber_stitches_two_pages :
  PDFScraper.stitch_pieces
    [PDFScraper.mkPiece 1 Examples.page_1; PDFScraper.mkPiece 2 Examples.page_2]
  = [mkDataFrame 3 [Examples.header; texts ["Brazil"; "Rice"; "2023"];
                    Examples.header; texts ["India"; "Rice"; "2023"]]].
Proof. reflexivity. Qed.

(** the labels of a frame count as text: a frame without a digit in
    any cell passes the density check on the digits of its labels *)
Example labels_count_as_digits :
  to_string Examples.no_digit
  = Str.cat "            0" (String Str.LF "0  abcdefghij")
  ∧ digit_density_ok (to_string Examples.no_digit) = true.
Proof. split; vm_compute; reflexivity. Qed.

(** * Further properties of the scripts *)

(** ** PDFScraper: normalising and stitching *)

Lemma longest_row_bound {A} (table : list (list A)) r :
  r ∈ table → length r ≤ foldr (fun r m => Nat.max (length r) m) 0 table.
Proof.
  induction 1 as [r table|r r' table _ IH]; simpl; lia.
Qed.

Lemma clean_and_normalize_wf table : wf (PDFScraper.clean_and_normalize table).
Proof.
  unfold wf, PDFScraper.clean_and_normalize. simpl.
  apply Forall_map, Forall_forall. intros r Hr. simpl.
  pose proof (longest_row_bound table r Hr).
  rewrite length_app, length_map, length_replicate. lia.
Qed.

(** X1. [clean_and_normalize] gives a rectangular grid with one row per
    row of the raw table and as many columns as its longest row; the
    cell at a place holds the raw text there, and the empty text where
    the raw cell is missing or the raw row is too short. *)
Theorem clean_and_normalize_grid (table : list (list (option string))) :
  let d := PDFScraper.clean_and_normalize table in
  wf d ∧ nrows d = length table ∧
  (∀ r, r ∈ table → length r ≤ ncols d) ∧
  (table ≠ [] → ∃ r, r ∈ table ∧ length r = ncols d) ∧
  ∀ i r, table !! i = Some r →
    ∃ row, rows d !! i = Some row ∧
      ∀ j, j < ncols d →
        row !! j = Some (Some (match r !! j with
                               | Some (Some text) => text
                               | _ => EmptyString
                               end)).
Proof.
  intros d. split; [apply clean_and_normalize_wf|].
  split; [unfold nrows; simpl; by rewrite length_map|].
  split; [intros r Hr; by apply longest_row_bound|]. split.
  - subst d. simpl. clear. induction table as [|r table IH]; [done|].
    intros _. simpl. destruct table as [|r' table'].
    + exists r. split; [left|simpl; lia].
    + destruct IH as (r0 & Hr0 & Hlen); [done|].
      destruct (decide (length r0 ≤ length r)) as [Hle|Hgt].
      * exists r. split; [left|]. rewrite <- Hlen. lia.
      * exists r0. split; [by right|]. rewrite <- Hlen. lia.
  - intros i r Hr. subst d. simpl.
    eexists. split; [by rewrite list_lookup_fmap, Hr|].
    intros j Hj. destruct (r !! j) as [cell|] eqn:Hcell.
    + rewrite lookup_app_l by (rewrite length_map; by eapply lookup_lt_Some).
      rewrite list_lookup_fmap, Hcell. by destruct cell.
    + apply lookup_ge_None in Hcell.
      rewrite lookup_app_r by (by rewrite length_map).
      rewrite length_map. apply lookup_replicate_2. lia.
Qed.

Lemma stitch_turn_rows st q :
  concat (map rows (PDFScraper.stitch_turn st q).1)
    ++ rows (PDFScraper.df (PDFScraper.stitch_turn st q).2)
  = (concat (map rows st.1) ++ rows (PDFScraper.df st.2))
    ++ rows (PDFScraper.df q).
Proof.
  destruct st as [final cur]. unfold PDFScraper.stitch_turn.
  destruct (PDFScraper.are_tables_mergeable _ _ _ _); simpl.
  - by rewrite app_assoc.
  - rewrite map_app, concat_app. simpl. by rewrite app_nil_r.
Qed.

Lemma stitch_fold_rows rest st :
  concat (map rows (foldl PDFScraper.stitch_turn st rest).1)
    ++ rows (PDFScraper.df (foldl PDFScraper.stitch_turn st rest).2)
  = (concat (map rows st.1) ++ rows (PDFScraper.df st.2))
    ++ concat (map (fun p => rows (PDFScraper.df p)) rest).
Proof.
  revert st. induction rest as [|q rest IH]; intros st; simpl.
  - by rewrite app_nil_r.
  - rewrite IH, stitch_turn_rows. by rewrite <- !app_assoc.
Qed.

(** X2. The pdfplumber stitcher loses, repeats and reorders no row: the
    rows of the tables it returns, put end to end, are the rows of the
    pieces it was given, put end to end. *)
Theorem stitch_pieces_keeps_rows (extracted_pieces : list PDFScraper.piece) :
  concat (map rows (PDFScraper.stitch_pieces extracted_pieces))
  = concat (map (fun p => rows (PDFScraper.df p)) extracted_pieces).
Proof.
  destruct extracted_pieces as [|first rest]; [done|].
  unfold PDFScraper.stitch_pieces.
  pose proof (stitch_fold_rows rest ([], first)) as Hfold.
  destruct (foldl PDFScraper.stitch_turn ([], first) rest) as [final cur].
  simpl in *. rewrite map_app, concat_app. simpl.
  by rewrite app_nil_r, Hfold.
Qed.

Lemma stitch_fold_count rest : ∀ final cur last,
  PDFScraper.page cur = PDFScraper.page last →
  ncols (PDFScraper.df cur) = ncols (PDFScraper.df last) →
  length (foldl PDFScraper.stitch_turn (final, cur) rest).1
  = length final + Spec.breaks last rest.
Proof.
  induction rest as [|q rest IH]; intros final cur last Hpage Hwidth; simpl.
  - lia.
  - unfold PDFScraper.are_tables_mergeable. rewrite Hpage, Hwidth.
    destruct (PDFScraper.page q =? PDFScraper.page last + 1) eqn:Hp; simpl.
    + destruct (ncols (PDFScraper.df last) =? ncols (PDFScraper.df q)) eqn:Hw;
        simpl.
      * rewrite (IH _ _ q); [done|done|]. simpl.
        apply Nat.eqb_eq in Hw. congruence.
      * rewrite (IH _ _ q) by done. rewrite length_app. simpl. lia.
    + rewrite (IH _ _ q) by done. rewrite length_app. simpl. lia.
Qed.

(** X3. The pdfplumber stitcher returns nothing for no piece, and
    otherwise one table more than there are places in the sequence where
    a piece is not on the page after the piece just before it or differs
    from it in width: whether a piece is merged depends on the piece
    before it alone. *)
Theorem stitch_pieces_count :
  PDFScraper.stitch_pieces [] = [] ∧
  ∀ first rest,
    length (PDFScraper.stitch_pieces (first :: rest))
    = 1 + Spec.breaks first rest ∧
    length (PDFScraper.stitch_pieces (first :: rest)) ≤ length (first :: rest).
Proof.
  split; [done|]. intros first rest.
  assert (length (PDFScraper.stitch_pieces (first :: rest))
          = 1 + Spec.breaks first rest) as Hcount.
  { unfold PDFScraper.stitch_pieces.
    pose proof (stitch_fold_count rest [] first first eq_refl eq_refl) as Hfold.
    destruct (foldl PDFScraper.stitch_turn ([], first) rest) as [final cur].
    simpl in *. rewrite length_app. simpl. lia. }
  split; [done|]. rewrite Hcount. clear. simpl.
  revert first. induction rest as [|q rest IH]; intros first; simpl; [lia|].
  specialize (IH q). destruct (_ && _); lia.
Qed.

Lemma pd_concat_wf a b : wf a → wf b → ncols a = ncols b → wf (pd_concat a b).
Proof.
  unfold wf, pd_concat. simpl. intros Ha Hb Heq.
  apply Forall_app. split; [done|]. by rewrite Heq.
Qed.

Lemma stitch_fold_wf rest : ∀ final cur,
  Forall wf final → wf (PDFScraper.df cur) →
  Forall (fun p => wf (PDFScraper.df p)) rest →
  Forall wf (foldl PDFScraper.stitch_turn (final, cur) rest).1 ∧
  wf (PDFScraper.df (foldl PDFScraper.stitch_turn (final, cur) rest).2).
Proof.
  induction rest as [|q rest IH]; intros final cur Hfinal Hcur Hrest; [done|].
  apply Forall_cons in Hrest as [Hq Hrest]. simpl.
  destruct (PDFScraper.are_tables_mergeable _ _ _ _) eqn:Hm.
  - apply IH; [done| |done]. simpl. apply pd_concat_wf; [done..|].
    by apply are_tables_mergeable_iff in Hm as [_ ?].
  - apply IH; [|done..]. apply Forall_app. split; [done|]. by constructor.
Qed.

(** X4. Every table the pdfplumber script builds for a PDF is
    rectangular: [clean_and_normalize] makes every piece rectangular and
    the stitcher, which merges pieces of equal width only, keeps them
    so. *)
Theorem stitched_tables_are_rectangular
    (pages : list (nat * list (list (list (option string))))) :
  Forall wf (PDFScraper.stitch_pieces (PDFScraper.extracted_pieces pages)).
Proof.
  assert (Forall (fun p => wf (PDFScraper.df p))
                 (PDFScraper.extracted_pieces pages)) as Hpieces.
  { unfold PDFScraper.extracted_pieces. apply Forall_forall. intros p Hp.
    apply list_elem_of_In, in_flat_map in Hp as (pg & _ & Hp).
    apply in_map_iff in Hp as (table & <- & _). apply clean_and_normalize_wf. }
  destruct (PDFScraper.extracted_pieces pages) as [|first rest]; [constructor|].
  apply Forall_cons in Hpieces as [Hfirst Hrest].
  unfold PDFScraper.stitch_pieces.
  destruct (stitch_fold_wf rest [] first) as [Hfinal Hcur]; [constructor|done..|].
  destruct (foldl PDFScraper.stitch_turn ([], first) rest) as [final cur].
  apply Forall_app. split; [done|]. by constructor.
Qed.

(** *** Sheet names *)

Lemma of_nat_inj n m : Str.of_nat n = Str.of_nat m → n = m.
Proof.
  unfold Str.of_nat. intros Heq.
  apply DecimalNat.Unsigned.to_uint_inj.
  pose proof (NilEmpty.usu (Nat.to_uint n)) as Hn.
  rewrite Heq, NilEmpty.usu in Hn. by simplify_eq.
Qed.

Lemma NoDup_imap_inj {A B} (f : nat → A → B) (l : list A) :
  (∀ i j x y, l !! i = Some x → l !! j = Some y → f i x = f j y → i = j) →
  NoDup (imap f l).
Proof.
  intros Hinj. apply NoDup_alt. intros i j b Hi Hj.
  rewrite list_lookup_imap in Hi, Hj.
  destruct (l !! i) as [x|] eqn:Hx; [|done].
  destruct (l !! j) as [y|] eqn:Hy; [|done].
  simpl in *. simplify_eq. by eapply Hinj.
Qed.

(** X5. The sheets the pdfplumber script writes for one PDF have
    pairwise different names, and are the stitched tables in order. *)
Theorem pdfscraper_sheet_names_differ (final_tables : list DataFrame) :
  NoDup (map fst (PDFScraper.sheets final_tables)) ∧
  map snd (PDFScraper.sheets final_tables) = final_tables.
Proof.
  unfold PDFScraper.sheets. split.
  - rewrite fmap_imap. apply NoDup_imap_inj.
    intros i j x y _ _ Heq. simpl in Heq.
    apply (f_equal (fun s => Str.after_prefix "Table_" s)) in Heq.
    simpl in Heq. injection Heq as Heq. apply of_nat_inj in Heq. lia.
  - rewrite fmap_imap. simpl. clear.
    generalize 0 at 1. induction final_tables as [|t ts IH]; intros k; [done|].
    simpl. f_equal. rewrite <- (IH (S k)) at 2.
    apply imap_ext. done.
Qed.

(** ** OCR_table_extractor: clean-up, stitching, sheets *)

Lemma split_scan_words s :
  Spec.spaceless (Str.split_scan s).1 = true ∧
  Forall Spec.is_word (Str.split_scan s).2.
Proof.
  induction s as [|c s [IHw IHws]]; simpl; [by split|].
  destruct (Str.split_scan s) as [w ws]. simpl in *.
  destruct (Str.isspace c) eqn:Hc; simpl.
  - split; [done|]. destruct w as [|d w]; [done|].
    constructor; [|done]. by split.
  - by rewrite Hc, IHw.
Qed.

Lemma split_words s : Forall Spec.is_word (Str.split s).
Proof.
  unfold Str.split. pose proof (split_scan_words s) as [Hw Hws].
  destruct (Str.split_scan s) as [w ws]. simpl in *.
  destruct w as [|d w]; [done|]. constructor; [|done]. by split.
Qed.

Lemma split_scan_word_then_space w t :
  Spec.spaceless w = true →
  Str.split_scan (Str.cat w (String " " t))
  = (w, match (Str.split_scan t).1 with
        | EmptyString => (Str.split_scan t).2
        | _ => (Str.split_scan t).1 :: (Str.split_scan t).2
        end).
Proof.
  induction w as [|c w IH]; simpl.
  - intros _. by destruct (Str.split_scan t) as [w' ws'].
  - intros [Hc Hw]%andb_true_iff. apply negb_true_iff in Hc.
    change (Str.split_scan (Str.cat (String c w) (String " " t)))
      with (Str.split_scan (String c (Str.cat w (String " " t)))).
    cbn [Str.split_scan]. rewrite (IH Hw), Hc. done.
Qed.

Lemma split_scan_word w :
  Spec.spaceless w = true → Str.split_scan w = (w, []).
Proof.
  induction w as [|c w IH]; simpl; [done|].
  intros [Hc Hw]%andb_true_iff. apply negb_true_iff in Hc.
  by rewrite (IH Hw), Hc.
Qed.

Lemma split_scan_join ws :
  Forall Spec.is_word ws →
  Str.split_scan (Str.join " " ws)
  = match ws with [] => (EmptyString, []) | w :: ws' => (w, ws') end.
Proof.
  induction 1 as [|w ws [Hne Hw] Hws IH]; [done|].
  destruct ws as [|w' ws'].
  - by apply split_scan_word.
  - change (Str.join " " (w :: w' :: ws'))
      with (Str.cat w (String " " (Str.join " " (w' :: ws')))).
    rewrite split_scan_word_then_space by done. rewrite IH. simpl.
    apply Forall_cons in Hws as [[Hne' _] _]. by destruct w'.
Qed.

Lemma split_join ws : Forall Spec.is_word ws → Str.split (Str.join " " ws) = ws.
Proof.
  intros Hws. unfold Str.split. rewrite (split_scan_join ws Hws).
  destruct Hws as [|w ws [Hne _] _]; [done|]. by destruct w.
Qed.

Lemma solid_cat a b : Spec.solid (Str.cat a b) = Str.cat (Spec.solid a) (Spec.solid b).
Proof.
  induction a as [|c a IH]; [done|].
  change (Spec.solid (String c (Str.cat a b))
          = Str.cat (Spec.solid (String c a)) (Spec.solid b)).
  cbn [Spec.solid]. rewrite IH. by destruct (Str.isspace c).
Qed.

Lemma solid_word w : Spec.spaceless w = true → Spec.solid w = w.
Proof.
  induction w as [|c w IH]; simpl; [done|].
  intros [Hc Hw]%andb_true_iff. apply negb_true_iff in Hc.
  by rewrite Hc, (IH Hw).
Qed.

Lemma solid_split_scan s :
  Spec.solid s
  = Str.cat (Str.split_scan s).1 (Str.join EmptyString (Str.split_scan s).2).
Proof.
  induction s as [|c s IH]; simpl; [done|].
  destruct (Str.split_scan s) as [w ws]. simpl in *.
  destruct (Str.isspace c); simpl; [|by rewrite IH].
  rewrite IH. destruct w as [|d w]; [done|]. by rewrite join_empty_cons.
Qed.

Lemma solid_split s : Spec.solid s = Str.join EmptyString (Str.split s).
Proof.
  rewrite solid_split_scan. unfold Str.split.
  destruct (Str.split_scan s) as [w ws]. simpl.
  destruct w as [|d w]; [done|]. by rewrite join_empty_cons.
Qed.

Lemma solid_join ws :
  Forall Spec.is_word ws →
  Spec.solid (Str.join " " ws) = Str.join EmptyString ws.
Proof.
  induction 1 as [|w ws [Hne Hw] Hws IH]; [done|].
  destruct ws as [|w' ws'].
  - rewrite join_empty_cons.
    change (Str.join " " [w]) with w.
    change (Str.join EmptyString []) with EmptyString.
    rewrite cat_nil_r. by apply solid_word.
  - change (Str.join " " (w :: w' :: ws'))
      with (Str.cat w (String " " (Str.join " " (w' :: ws')))).
    assert (∀ t, Spec.solid (String " " t) = Spec.solid t) as Hspace by done.
    rewrite solid_cat, solid_word, Hspace by done.
    rewrite IH. by rewrite (join_empty_cons w).
Qed.

(** X6. The clean-up of a text cell, [" ".join(y.split())], leaves the
    words of the cell, in order, with one space between two words and
    no white space elsewhere: the characters that are not white space
    are kept as they are, and cleaning a cleaned cell changes nothing. *)
Theorem collapse_whitespace_normal_form (y : string) :
  collapse_whitespace y = Str.join " " (Str.split y) ∧
  Forall Spec.is_word (Str.split y) ∧
  Str.split (collapse_whitespace y) = Str.split y ∧
  Spec.solid (collapse_whitespace y) = Spec.solid y ∧
  collapse_whitespace (collapse_whitespace y) = collapse_whitespace y.
Proof.
  pose proof (split_words y) as Hwords.
  assert (Str.split (collapse_whitespace y) = Str.split y) as Hsplit
    by (by apply split_join).
  split; [done|]. split; [done|]. split; [done|]. split.
  - unfold collapse_whitespace. by rewrite solid_join, solid_split.
  - unfold collapse_whitespace at 1. by rewrite Hsplit.
Qed.

(** *** The list [stitch_tables] returns *)

Lemma stitch_loop_sublist rest : ∀ (h : store) st cur h' st' cur' pre,
  stitch_loop (h, st, cur) rest = Some (h', st', cur') →
  (st ++ [cur]) `sublist_of` pre →
  (st' ++ [cur']) `sublist_of` (pre ++ rest) ∧
  hd_error (st' ++ [cur']) = hd_error (st ++ [cur]).
Proof.
  induction rest as [|nxt rest IH]; intros h st cur h' st' cur' pre Hloop Hsub;
    cbn [stitch_loop] in Hloop.
  - simplify_eq. by rewrite app_nil_r.
  - destruct (stitch_turn (h, st, cur) nxt) as [[[h1 st1] cur1]|] eqn:Ht;
      [|done].
    cbn [mbind option_bind] in Hloop.
    apply stitch_turn_frame in Ht as [_ [[-> ->]|(-> & -> & ->)]].
    + destruct (IH _ _ _ _ _ _ (pre ++ [nxt]) Hloop) as [Hs Hh].
      { by apply sublist_inserts_r. }
      by rewrite <- app_assoc in Hs.
    + destruct (IH _ _ _ _ _ _ (pre ++ [nxt]) Hloop) as [Hs Hh].
      { by apply sublist_app. }
      rewrite <- app_assoc in Hs. split; [done|]. rewrite Hh.
      by destruct st.
Qed.

(** X7. What [stitch_tables] returns are dicts of the list it was given:
    a selection of them in the order of the list, the first dict of the
    list at its head.  Every dict that is not returned is left as it
    was. *)
Theorem stitch_tables_returns_input_dicts
    (h h' : store) (table_list stitched : list ref) :
  stitch_tables h table_list = Some (h', stitched) →
  stitched `sublist_of` table_list ∧
  hd_error stitched = hd_error table_list ∧
  ∀ r, r ∉ stitched → h' !! r = h !! r.
Proof.
  intros Hrun. split; [|split; [|by eapply stitch_tables_frame]].
  - unfold stitch_tables in Hrun. destruct table_list as [|first rest].
    { simplify_eq. constructor. }
    destruct (stitch_loop (h, [], first) rest) as [[[h1 st1] cur1]|] eqn:Hloop;
      [|done].
    simpl in Hrun. simplify_eq.
    by destruct (stitch_loop_sublist rest h [] first h' st1 cur1 [first] Hloop).
  - unfold stitch_tables in Hrun. destruct table_list as [|first rest].
    { by simplify_eq. }
    destruct (stitch_loop (h, [], first) rest) as [[[h1 st1] cur1]|] eqn:Hloop;
      [|done].
    simpl in Hrun. simplify_eq.
    by destruct (stitch_loop_sublist rest h [] first h' st1 cur1 [first] Hloop).
Qed.

Lemma stitch_tables_returns_input_dicts_witness :
  stitch_tables Examples.two_dicts Examples.raw_tables
  = Some (<[0 := mkEntry 2 Examples.pages_1_2]> Examples.two_dicts, [0])
  ∧ [0] `sublist_of` Examples.raw_tables.
Proof.
  assert (stitch_tables Examples.two_dicts Examples.raw_tables
          = Some (<[0 := mkEntry 2 Examples.pages_1_2]> Examples.two_dicts, [0]))
    as Hrun by (vm_compute; reflexivity).
  split; [exact Hrun|].
  exact (proj1 (stitch_tables_returns_input_dicts _ _ _ _ Hrun)).
Defined.

(** *** The tables [process_pdf] hands to the writer *)

Lemma holds_table_insert (h : store) cur e r :
  Spec.table_like (df e) →
  Spec.holds_table h r → Spec.holds_table (<[cur := e]> h) r.
Proof.
  intros He (e' & He' & Hlike').
  destruct (decide (cur = r)) as [->|Hne].
  - exists e. by rewrite lookup_insert_eq.
  - exists e'. by rewrite lookup_insert_ne.
Qed.

Lemma stitch_turn_tables h stitched cur nxt :
  Spec.holds_table h cur → Spec.holds_table h nxt →
  ∃ h' stitched' cur',
    stitch_turn (h, stitched, cur) nxt = Some (h', stitched', cur') ∧
    (∀ r, Spec.holds_table h r → Spec.holds_table h' r) ∧
    Spec.holds_table h' cur'.
Proof.
  intros Hcur Hnxt.
  pose proof Hcur as (c & Hc & Hwfc & Hrc & Hcc).
  pose proof Hnxt as (n & Hn & Hwfn & Hrn & Hcn).
  destruct (decide (Spec.adjacent_same_width
                      (page c) (page n)
                      (Labelled.ncols (df c)) (Labelled.ncols (df n))))
    as [Hm|Hnot].
  - destruct (pd_concat_appended_from
                (Spec.repeated_header (df c) (df n)) (df c) (df n) Hwfc Hwfn)
      as (Hwfm & _ & Hrm & _).
    set (merged_df := Labelled.pd_concat _ _) in *.
    assert (Spec.table_like merged_df) as Hlike.
    { split; [done|]. split; [lia|].
      unfold merged_df, Labelled.ncols, Labelled.pd_concat, Labelled.union
        in *.
      simpl. rewrite length_app. lia. }
    eexists _, _, _. split; [eapply stitch_turn_merges; (done || lia)|]. split.
    + intros r Hr. by apply holds_table_insert.
    + by apply holds_table_insert.
  - eexists _, _, _. split; [by eapply stitch_turn_seals|]. done.
Qed.

Lemma stitch_loop_tables rest h stitched cur :
  Spec.holds_table h cur → Forall (Spec.holds_table h) rest →
  ∃ h' stitched' cur',
    stitch_loop (h, stitched, cur) rest = Some (h', stitched', cur') ∧
    (∀ r, Spec.holds_table h r → Spec.holds_table h' r) ∧
    Spec.holds_table h' cur'.
Proof.
  revert h stitched cur. induction rest as [|nxt rest IH];
    intros h stitched cur Hcur Hrest; cbn [stitch_loop]; [by eexists _, _, _|].
  apply Forall_cons in Hrest as [Hnxt Hrest].
  destruct (stitch_turn_tables h stitched cur nxt Hcur Hnxt)
    as (h1 & stitched1 & cur1 & -> & Hkeep1 & Hcur1).
  cbn [mbind option_bind].
  destruct (IH h1 stitched1 cur1 Hcur1)
    as (h' & stitched' & cur' & Hloop & Hkeep & Hcur').
  { by eapply Forall_impl. }
  exists h', stitched', cur'. split; [done|]. split; [|done].
  intros r Hr. by apply Hkeep, Hkeep1.
Qed.

Lemma lookup_all_tables (h : store) (l : list ref) :
  Forall (Spec.holds_table h) l →
  ∃ tables, mapM (fun r => h !! r) l = Some tables ∧
    Forall (fun e => Spec.table_like (df e)) tables ∧
    length tables = length l.
Proof.
  induction 1 as [|r l (e & He & Hlike) _ (tables & Hmap & Hall & Hlen)].
  - by exists [].
  - exists (e :: tables). simpl. rewrite He. simpl. rewrite Hmap. simpl.
    split; [done|]. split; [by constructor|by rewrite Hlen].
Qed.

(** X8. On the tables of a PDF, parts A and B of [process_pdf] (the
    cleanup, the filter and the stitcher) run to their end without an
    exception, and every table they hand to the writer is rectangular,
    under column labels that differ, with at least 2 rows and at least
    2 columns; there are no more of them than tables that passed
    [is_valid_table]. *)
Theorem final_tables_are_tables
    (extracted_tables : list (nat * list DataFrame)) :
  Forall (fun pt => Forall wf pt.2) extracted_tables →
  ∃ tables,
    final_tables extracted_tables = Some tables ∧
    Forall (fun e => Spec.table_like (df e)) tables ∧
    length tables ≤ length (collect_raw_tables extracted_tables).
Proof.
  intros Hwf. unfold final_tables, alloc.
  set (raw := collect_raw_tables extracted_tables).
  assert (Forall (Spec.holds_table (map_seq 0 raw)) (seq 0 (length raw)))
    as Hraw.
  { apply Forall_forall. intros r Hr. apply list_elem_of_In, in_seq in Hr.
    destruct (lookup_lt_is_Some_2 raw r) as [e He]; [lia|].
    exists e. rewrite lookup_map_seq_0. split; [done|].
    apply list_elem_of_lookup_2 in He.
    apply elem_of_collect_raw_tables in He
      as (page_idx & tables & d & Hin & Hd & Hvalid & ->).
    rewrite Forall_forall in Hwf. specialize (Hwf _ Hin).
    rewrite Forall_forall in Hwf.
    apply is_valid_table_iff in Hvalid as (? & ? & _).
    split; [by apply cleanup_wf, Hwf|]. by split. }
  assert (length (seq 0 (length raw)) = length raw) as Hcount
    by apply length_seq.
  revert Hraw Hcount. generalize (seq 0 (length raw)).
  intros table_list Hlist Hcount.
  unfold stitch_tables. destruct table_list as [|first rest].
  - exists []. simpl. split; [done|]. split; [constructor|lia].
  - apply Forall_cons in Hlist as [Hfirst Hrest].
    destruct (stitch_loop_tables rest _ [] first Hfirst Hrest)
      as (h' & st' & cur' & Hloop & Hkeep & Hcur').
    rewrite Hloop. simpl.
    destruct (stitch_loop_sublist rest _ [] first h' st' cur' [first] Hloop)
      as [Hsub _]; [done|].
    destruct (lookup_all_tables h' (st' ++ [cur']))
      as (tables & Hmap & Hall & Hlen).
    { apply Forall_forall. intros r Hr. apply Hkeep.
      eapply elem_of_sublist in Hr; [|exact Hsub].
      apply elem_of_cons in Hr as [->|Hr]; [done|].
      rewrite Forall_forall in Hrest. by apply Hrest. }
    exists tables. split; [done|]. split; [done|].
    rewrite Hlen. apply sublist_length in Hsub. simpl in *. lia.
Qed.

Lemma final_tables_are_tables_witness :
  Forall (fun pt : nat * list DataFrame => Forall wf pt.2)
         [(0, [Examples.page_1]); (1, [Examples.page_2])] ∧
  ∃ tables,
    final_tables [(0, [Examples.page_1]); (1, [Examples.page_2])]
    = Some tables ∧
    Forall (fun e => Spec.table_like (df e)) tables.
Proof.
  assert (Forall (fun pt : nat * list DataFrame => Forall wf pt.2)
                 [(0, [Examples.page_1]); (1, [Examples.page_2])]) as Hwf
    by (repeat constructor).
  split; [exact Hwf|].
  destruct (final_tables_are_tables _ Hwf) as (tables & Hrun & Hall & _).
  exists tables. split; [exact Hrun|exact Hall].
Defined.

(** *** Sheet names *)

Lemma digits_then_mark a : ∀ b c x y,
  Spec.all_digits a = true → Spec.all_digits b = true →
  Str.isdigit c = false →
  Str.cat a (String c x) = Str.cat b (String c y) → a = b ∧ x = y.
Proof.
  induction a as [|d a IH]; intros [|e b] c x y Ha Hb Hc Heq.
  - simpl in Heq. by simplify_eq.
  - exfalso. apply andb_true_iff in Hb as [He _].
    injection Heq as -> _. congruence.
  - exfalso. apply andb_true_iff in Ha as [Hd _].
    injection Heq as <- _. congruence.
  - apply andb_true_iff in Ha as [_ Ha]. apply andb_true_iff in Hb as [_ Hb].
    injection Heq as -> Heq.
    destruct (IH b c x y Ha Hb Hc Heq) as [-> ->]. done.
Qed.

(** X9. The sheets [process_pdf] writes for one PDF have pairwise
    different names, and are the stitched tables in order. *)
Theorem ocr_sheet_names_differ (tables : list entry) :
  NoDup (map fst (OCR_table_extractor.sheets tables)) ∧
  map snd (OCR_table_extractor.sheets tables) = map df tables.
Proof.
  unfold OCR_table_extractor.sheets. split.
  - rewrite fmap_imap. apply NoDup_imap_inj.
    intros i j x y _ _ Heq. simpl in Heq.
    apply (f_equal (fun s => Str.after_prefix "Table_" s)) in Heq.
    simpl in Heq. injection Heq as Heq.
    apply (digits_then_mark _ _ "_") in Heq as [Heq _];
      [|apply all_digits_of_nat..|done].
    apply of_nat_inj in Heq. lia.
  - rewrite fmap_imap. simpl. clear.
    generalize 0 at 1. induction tables as [|t ts IH]; intros k; [done|].
    simpl. f_equal. rewrite <- (IH (S k)).
    apply imap_ext. done.
Qed.

(** ** TableSplitter: starts, sub-tables, sheets *)

Lemma range_down_head hi lo :
  lo ≤ hi → ∃ js, range_down hi lo = hi :: js.
Proof.
  intros Hle. unfold range_down.
  replace (S hi - lo) with (S (hi - lo)) by lia.
  rewrite seq_S, rev_app_distr. simpl.
  replace (lo + (hi - lo)) with hi by lia. by eexists.
Qed.

(** X10. An anchor below the last row makes [find_true_table_start]
    raise: the scan reads the anchor row first. *)
Theorem find_true_table_start_out_of_range (df : DataFrame) (i : nat) :
  nrows df ≤ i → find_true_table_start df i = None.
Proof.
  intros Hout. unfold find_true_table_start.
  destruct (range_down_head i (Nat.max 0 (i - 15))) as [js ->]; [lia|].
  cbn [scan_back]. unfold iloc.
  by rewrite (lookup_ge_None_2 (rows df) i Hout).
Qed.

Lemma find_true_table_start_out_of_range_witness :
  nrows Examples.title_far_above ≤ 17 ∧
  find_true_table_start Examples.title_far_above 17 = None.
Proof.
  assert (nrows Examples.title_far_above ≤ 17) as Hout by (vm_compute; lia).
  split; [exact Hout|].
  exact (find_true_table_start_out_of_range Examples.title_far_above 17 Hout).
Defined.

(** X11. On anchors of the frame [find_true_table_start] returns, never
    a row below the anchor, and a later anchor never gets an earlier
    start: the starts of the anchors ascend with the anchors. *)
Theorem table_starts_follow_anchors (df : DataFrame) (i1 i2 : nat) :
  i1 ≤ i2 → i2 < nrows df →
  ∃ r1 r2,
    find_true_table_start df i1 = Some r1 ∧
    find_true_table_start df i2 = Some r2 ∧
    r1 ≤ i1 ∧ r2 ≤ i2 ∧ r1 ≤ r2.
Proof.
  intros Hle Hin.
  destruct (find_true_table_start_cases df i1) as (r1 & H1 & _); [lia|].
  destruct (find_true_table_start_cases df i2) as (r2 & H2 & _); [lia|].
  exists r1, r2. split; [done|]. split; [done|].
  split; [apply (find_true_table_start_le df i1 r1); [lia|done]|].
  split; [by apply (find_true_table_start_le df i2 r2)|].
  by apply (find_true_table_start_mono df i1 i2 r1 r2).
Qed.

Lemma table_starts_follow_anchors_witness :
  3 ≤ 4 ∧ 4 < nrows Examples.titled ∧
  ∃ r1 r2,
    find_true_table_start Examples.titled 3 = Some r1 ∧
    find_true_table_start Examples.titled 4 = Some r2 ∧
    r1 ≤ 3 ∧ r2 ≤ 4 ∧ r1 ≤ r2.
Proof.
  assert (3 ≤ 4) as Hle by lia.
  assert (4 < nrows Examples.titled) as Hin by (vm_compute; lia).
  split; [exact Hle|]. split; [exact Hin|].
  exact (table_starts_follow_anchors Examples.titled 3 4 Hle Hin).
Defined.

Lemma cuts_length i starts n : length (Spec.cuts i starts n) = length starts.
Proof.
  revert i. induction starts as [|s rest IH]; intros i; simpl; [done|].
  by rewrite IH.
Qed.

Lemma split_mixed_tables_rows df :
  ∃ tables,
    split_mixed_tables df = Some tables ∧
    length tables = Nat.max 1 (length (commodity_indices df)) ∧
    concat (map rows tables) = rows df.
Proof.
  destruct (table_spans_tiles df) as (spans & Hspans & Htiles).
  exists (map (fun se => iloc_slice df se.1 se.2) spans).
  split; [by apply split_mixed_tables_slices|]. split.
  - rewrite length_map.
    destruct (decide (commodity_indices df = [])) as [Hnil|Hne].
    + unfold table_spans in Hspans. rewrite Hnil in *. by simplify_eq.
    + destruct (table_spans_anchored df Hne) as (s & rest & Hstarts & _ & Hcut).
      rewrite Hcut in Hspans. simplify_eq. simpl. rewrite cuts_length.
      apply length_mapM in Hstarts. rewrite Hstarts. simpl. lia.
  - rewrite map_map.
    change (concat (map (fun se => drop se.1 (take se.2 (rows df))) spans)
            = rows df).
    rewrite (tiles_concat (rows df) 0 (nrows df) spans Htiles).
    rewrite drop_0. by apply take_ge.
Qed.

(** X12. [split_mixed_tables] returns one sub-table per anchor row, and
    the frame alone when it has no anchor row. *)
Theorem split_mixed_tables_count (df : DataFrame) :
  ∃ tables,
    split_mixed_tables df = Some tables ∧
    length tables = Nat.max 1 (length (commodity_indices df)) ∧
    (commodity_indices df = [] → tables = [df]).
Proof.
  destruct (split_mixed_tables_rows df) as (tables & Hsplit & Hlen & _).
  exists tables. split; [done|]. split; [done|].
  intros Hnil. unfold split_mixed_tables in Hsplit. rewrite Hnil in Hsplit.
  by simplify_eq.
Qed.

Lemma name_tables_snd sheet_name tables :
  map snd (name_tables sheet_name tables) = tables.
Proof.
  assert (∀ k (l : list DataFrame),
    map snd (imap (fun idx table =>
      (Str.cat sheet_name (Str.cat "_P" (Str.of_nat (k + idx + 1))), table)) l)
    = l) as Himap.
  { intros k l. revert k. induction l as [|t l IH]; intros k; [done|].
    simpl. f_equal. rewrite <- (IH (S k)) at 2. f_equal.
    apply imap_ext. intros i x _. simpl.
    by replace (k + S i + 1) with (S k + i + 1) by lia. }
  unfold name_tables. destruct tables as [|t [|t' tables]]; [done..|].
  apply (Himap 0).
Qed.

Lemma name_tables_length sheet_name tables :
  length (name_tables sheet_name tables) = length tables.
Proof. by rewrite <- (name_tables_snd sheet_name tables) at 2; rewrite length_map. Qed.

(** X13. The loop over the sheets of a workbook raises on no workbook
    and loses, repeats and reorders no row: the rows of the tables it
    collects, put end to end, are the rows of the sheets, put end to
    end, and every sheet gives at least one table. *)
Theorem all_separated_tables_keeps_rows (sheets : list (string * DataFrame)) :
  ∃ out,
    all_separated_tables sheets = Some out ∧
    concat (map (fun nt => rows nt.2) out)
    = concat (map (fun sheet => rows sheet.2) sheets) ∧
    length sheets ≤ length out.
Proof.
  unfold all_separated_tables.
  induction sheets as [|[sheet_name df] sheets (out & Hrun & Hrows & Hlen)].
  - by exists [].
  - destruct (split_mixed_tables_rows df) as (tables & Hsplit & Hcount & Hdf).
    destruct (mapM _ sheets) as [parts|] eqn:Hparts; [|done].
    simpl in Hrun. simplify_eq.
    exists (name_tables sheet_name tables ++ concat parts).
    cbn [mapM]. cbn [fst snd]. rewrite Hsplit. cbn [mbind option_bind].
    rewrite Hparts. cbn [mbind option_bind mret option_ret concat].
    split; [done|]. split.
    + rewrite map_app, concat_app, Hrows. cbn [map concat snd]. f_equal.
      rewrite <- Hdf.
      rewrite <- (name_tables_snd sheet_name tables) at 2.
      by rewrite map_map.
    + rewrite length_app, name_tables_length. simpl. lia.
Qed.

Lemma cat_inj_l a x y : Str.cat a x = Str.cat a y → x = y.
Proof.
  induction a as [|c a IH]; [done|]. intros Heq. injection Heq as Heq. auto.
Qed.

(** X14. The names given to the tables of one sheet are pairwise
    different, and are given to the tables in their order. *)
Theorem name_tables_names_differ
    (sheet_name : string) (extracted_tables : list DataFrame) :
  NoDup (map fst (name_tables sheet_name extracted_tables)) ∧
  map snd (name_tables sheet_name extracted_tables) = extracted_tables.
Proof.
  split; [|apply name_tables_snd].
  unfold name_tables.
  assert (NoDup (map fst (imap (fun idx (table : DataFrame) =>
            (Str.cat sheet_name (Str.cat "_P" (Str.of_nat (idx + 1))), table))
          extracted_tables))) as Hmany.
  { rewrite fmap_imap. apply NoDup_imap_inj.
    intros i j x y _ _ Heq. simpl in Heq.
    apply cat_inj_l, (cat_inj_l "_P"), of_nat_inj in Heq. lia. }
  destruct extracted_tables as [|t [|t' tables]]; [done| |done].
  apply NoDup_singleton.
Qed.

Lemma substring_cat n : ∀ a b,
  n ≤ Str.len a →
  String.substring 0 n (Str.cat a b) = String.substring 0 n a.
Proof.
  induction n as [|n IH]; intros a b Hlen.
  - by destruct a, b.
  - destruct a as [|d a]; [unfold Str.len in Hlen; simpl in Hlen; lia|].
    change (String d (String.substring 0 n (Str.cat a b))
            = String d (String.substring 0 n a)).
    rewrite IH; [done|]. unfold Str.len in *. simpl in Hlen. lia.
Qed.

(** X15. For a sheet name of 29 characters or more that is split into
    several tables, the cut to 31 characters removes the number of the
    table: all the tables of the sheet are written under one and the
    same name. *)
Theorem long_sheet_names_collide
    (sheet_name : string) (extracted_tables : list DataFrame) :
  29 ≤ Str.len sheet_name → length extracted_tables ≠ 1 →
  ∀ nt, nt ∈ name_tables sheet_name extracted_tables →
    safe_sheet_name nt.1 = safe_sheet_name (Str.cat sheet_name "_P").
Proof.
  intros Hlong Hmany nt Hnt. unfold name_tables in Hnt.
  assert (nt ∈ imap (fun idx (table : DataFrame) =>
            (Str.cat sheet_name (Str.cat "_P" (Str.of_nat (idx + 1))), table))
          extracted_tables) as Hin.
  { by destruct extracted_tables as [|t [|t' tables]]. }
  apply elem_of_lookup_imap in Hin as (idx & table & -> & _).
  unfold safe_sheet_name. cbn [fst].
  rewrite <- cat_assoc. apply substring_cat.
  rewrite len_cat. simpl. lia.
Qed.

Lemma long_sheet_names_collide_witness :
  29 ≤ Str.len Examples.long_sheet_name ∧
  length [Examples.titled; Examples.two_anchors] ≠ 1 ∧
  safe_sheet_name (Str.cat Examples.long_sheet_name "_P1")
  = safe_sheet_name (Str.cat Examples.long_sheet_name "_P") ∧
  safe_sheet_name (Str.cat Examples.long_sheet_name "_P2")
  = safe_sheet_name (Str.cat Examples.long_sheet_name "_P").
Proof.
  assert (29 ≤ Str.len Examples.long_sheet_name) as Hlong by (vm_compute; lia).
  assert (length [Examples.titled; Examples.two_anchors] ≠ 1) as Hmany by done.
  split; [exact Hlong|]. split; [exact Hmany|]. split.
  - apply (long_sheet_names_collide Examples.long_sheet_name
             [Examples.titled; Examples.two_anchors] Hlong Hmany
             (Str.cat Examples.long_sheet_name "_P1", Examples.titled)).
    vm_compute. left.
  - apply (long_sheet_names_collide Examples.long_sheet_name
             [Examples.titled; Examples.two_anchors] Hlong Hmany
             (Str.cat Examples.long_sheet_name "_P2", Examples.two_anchors)).
    vm_compute. right. left.
Defined.

(** ** PDFDownloader: file names and links *)

Import PDFDownloader.

Lemma after_prefix_cat p r : Str.after_prefix p (Str.cat p r) = Some r.
Proof.
  induction p as [|a p IH]; [done|].
  change (Str.after_prefix (String a p) (String a (Str.cat p r)) = Some r).
  cbn [Str.after_prefix]. by rewrite Ascii.eqb_refl.
Qed.

Lemma after_prefix_Some p : ∀ s r,
  Str.after_prefix p s = Some r → s = Str.cat p r.
Proof.
  induction p as [|a p IH]; intros s r Heq.
  - simpl in Heq. by simplify_eq.
  - destruct s as [|b s]; [done|]. cbn [Str.after_prefix] in Heq.
    destruct (Ascii.eqb a b) eqn:Hab; [|done].
    apply Ascii.eqb_eq in Hab as ->. by apply IH in Heq as ->.
Qed.

Lemma after_prefix_prefix p : ∀ s r,
  Str.after_prefix p s = Some r → String.prefix p s = true.
Proof.
  induction p as [|a p IH]; intros s r Heq; [by destruct s|].
  destruct s as [|b s]; [done|]. cbn [Str.after_prefix] in Heq.
  destruct (Ascii.eqb a b) eqn:Hab; [|done].
  apply Ascii.eqb_eq in Hab as ->. simpl.
  destruct (ascii_dec b b); [by eapply IH|done].
Qed.

Lemma first_filename_cons c cd :
  first_filename (String c cd)
  = match Str.after_prefix "filename=" (String c cd) with
    | Some rest =>
        match rest_of_line rest with
        | EmptyString => first_filename cd
        | fname => Some fname
        end
    | None => first_filename cd
    end.
Proof. reflexivity. Qed.

Lemma lacks_cat c a b :
  Spec.lacks c (Str.cat a b) = Spec.lacks c a && Spec.lacks c b.
Proof.
  induction a as [|d a IH]; [done|].
  change (negb (Ascii.eqb d c) && Spec.lacks c (Str.cat a b)
          = negb (Ascii.eqb d c) && Spec.lacks c a && Spec.lacks c b).
  by rewrite IH, andb_assoc.
Qed.

Lemma lacks_rest_of_line s : Spec.lacks Str.LF (rest_of_line s) = true.
Proof.
  induction s as [|c s IH]; [done|]. cbn [rest_of_line].
  destruct (Ascii.eqb c Str.LF) eqn:Hc; [done|].
  cbn [Spec.lacks]. by rewrite Hc, IH.
Qed.

Lemma rest_of_line_id s : Spec.lacks Str.LF s = true → rest_of_line s = s.
Proof.
  induction s as [|c s IH]; [done|]. cbn [Spec.lacks rest_of_line].
  intros [Hc Hs]%andb_true_iff. apply negb_true_iff in Hc. rewrite Hc.
  by rewrite IH.
Qed.

Lemma first_filename_result cd : ∀ fname,
  first_filename cd = Some fname →
  Str.contains "filename=" cd = true ∧ fname ≠ EmptyString ∧
  Spec.lacks Str.LF fname = true.
Proof.
  induction cd as [|c cd IH]; intros fname Hrun; [done|].
  rewrite first_filename_cons in Hrun. rewrite contains_cons.
  destruct (Str.after_prefix "filename=" (String c cd)) as [rest|] eqn:Hpre.
  - rewrite (after_prefix_prefix _ _ _ Hpre). split; [done|].
    destruct (rest_of_line rest) as [|d line] eqn:Hline.
    + by apply IH.
    + simplify_eq. split; [done|]. rewrite <- Hline. apply lacks_rest_of_line.
  - destruct (IH _ Hrun) as (Hin & ? & ?). rewrite Hin.
    split; [apply orb_true_r|done].
Qed.

Lemma rstrip_by_cons p c s :
  Str.rstrip_by p (String c s)
  = match Str.rstrip_by p s with
    | EmptyString => if p c then EmptyString else String c EmptyString
    | t => String c t
    end.
Proof. reflexivity. Qed.

Lemma rstrip_by_snoc p s q :
  p q = true →
  Str.rstrip_by p (Str.cat s (String q EmptyString)) = Str.rstrip_by p s.
Proof.
  intros Hq. induction s as [|c s IH].
  - change (Str.rstrip_by p (String q EmptyString) = EmptyString).
    rewrite rstrip_by_cons. cbn [Str.rstrip_by]. by rewrite Hq.
  - change (Str.rstrip_by p (String c (Str.cat s (String q EmptyString)))
            = Str.rstrip_by p (String c s)).
    by rewrite !rstrip_by_cons, IH.
Qed.

Lemma strip_by_cons p q s :
  p q = true → Str.strip_by p (String q s) = Str.strip_by p s.
Proof.
  intros Hq. unfold Str.strip_by. rewrite rstrip_by_cons.
  destruct (Str.rstrip_by p s) as [|d t]; rewrite ?Hq; [done|].
  cbn [Str.lstrip_by]. by rewrite Hq.
Qed.

Lemma lacks_lstrip_by c p s :
  Spec.lacks c s = true → Spec.lacks c (Str.lstrip_by p s) = true.
Proof.
  induction s as [|d s IH]; [done|]. intros Hs. cbn [Str.lstrip_by].
  destruct (p d); [|done]. apply IH.
  cbn [Spec.lacks] in Hs. by apply andb_true_iff in Hs as [_ ?].
Qed.

Lemma lacks_rstrip_by c p s :
  Spec.lacks c s = true → Spec.lacks c (Str.rstrip_by p s) = true.
Proof.
  induction s as [|d s IH]; [done|]. cbn [Spec.lacks].
  intros [Hd Hs]%andb_true_iff. rewrite rstrip_by_cons.
  specialize (IH Hs). destruct (Str.rstrip_by p s) as [|e t].
  - destruct (p d); [done|]. cbn [Spec.lacks]. by rewrite Hd.
  - cbn [Spec.lacks] in *. by rewrite Hd, IH.
Qed.

Lemma rstrip_by_idem p s :
  Str.rstrip_by p (Str.rstrip_by p s) = Str.rstrip_by p s.
Proof.
  induction s as [|c s IH]; [done|]. rewrite rstrip_by_cons.
  destruct (Str.rstrip_by p s) as [|d t] eqn:Hs.
  - destruct (p c) eqn:Hc; [done|].
    rewrite rstrip_by_cons. cbn [Str.rstrip_by]. by rewrite Hc.
  - rewrite rstrip_by_cons. by rewrite IH.
Qed.

Lemma rstrip_by_lstrip_by p s :
  Str.rstrip_by p s = s →
  Str.rstrip_by p (Str.lstrip_by p s) = Str.lstrip_by p s.
Proof.
  induction s as [|c s IH]; [done|]. intros Hfix. cbn [Str.lstrip_by].
  destruct (p c) eqn:Hc; [|done]. apply IH.
  rewrite rstrip_by_cons in Hfix.
  destruct (Str.rstrip_by p s) as [|d t]; [by rewrite Hc in Hfix|].
  by simplify_eq.
Qed.

Lemma lstrip_by_idem p s :
  Str.lstrip_by p (Str.lstrip_by p s) = Str.lstrip_by p s.
Proof.
  induction s as [|c s IH]; [done|]. cbn [Str.lstrip_by].
  destruct (p c) eqn:Hc; [done|]. cbn [Str.lstrip_by]. by rewrite Hc.
Qed.

Lemma strip_by_idem p s :
  Str.strip_by p (Str.strip_by p s) = Str.strip_by p s.
Proof.
  unfold Str.strip_by.
  rewrite (rstrip_by_lstrip_by p (Str.rstrip_by p s)) by apply rstrip_by_idem.
  apply lstrip_by_idem.
Qed.

Lemma get_filename_from_cd_Some cd :
  get_filename_from_cd (Some cd)
  = match first_filename cd with
    | None => None
    | Some fname => Some (Str.strip_by (Ascii.eqb QUOTE) fname)
    end.
Proof. by destruct cd. Qed.

(** X16. [get_filename_from_cd] gives no name for a header without
    'filename='.  A name it gives comes from a header that holds
    'filename=', has no line feed in it, and has no quote left to strip
    at its ends. *)
Theorem get_filename_from_cd_result :
  (∀ header,
     Str.contains "filename=" header = false →
     get_filename_from_cd (Some header) = None)
  ∧ (∀ cd name,
       get_filename_from_cd cd = Some name →
       ∃ header, cd = Some header ∧
         Str.contains "filename=" header = true ∧
         Spec.lacks Str.LF name = true ∧
         Str.strip_by (Ascii.eqb QUOTE) name = name).
Proof.
  split.
  - intros header Hno. rewrite get_filename_from_cd_Some.
    destruct (first_filename header) as [fname|] eqn:Hrun; [|done].
    apply first_filename_result in Hrun as [Hin _]. congruence.
  - intros [header|] name Hrun; [|done]. exists header. split; [done|].
    rewrite get_filename_from_cd_Some in Hrun.
    destruct (first_filename header) as [fname|] eqn:Hfirst; [|done].
    apply first_filename_result in Hfirst as (Hin & _ & Hline).
    simplify_eq. split; [done|]. split; [|apply strip_by_idem].
    by apply lacks_lstrip_by, lacks_rstrip_by.
Qed.

Lemma mark_unique c a : ∀ b x y,
  Spec.lacks c a = true → Spec.lacks c b = true →
  Str.cat a (String c x) = Str.cat b (String c y) → a = b ∧ x = y.
Proof.
  induction a as [|d a IH]; intros [|e b] x y Ha Hb Heq.
  - simpl in Heq. by simplify_eq.
  - exfalso. cbn [Spec.lacks] in Hb. apply andb_true_iff in Hb as [He _].
    injection Heq as -> _. by rewrite Ascii.eqb_refl in He.
  - exfalso. cbn [Spec.lacks] in Ha. apply andb_true_iff in Ha as [Hd _].
    injection Heq as <- _. by rewrite Ascii.eqb_refl in Hd.
  - cbn [Spec.lacks] in Ha, Hb.
    apply andb_true_iff in Ha as [_ Ha]. apply andb_true_iff in Hb as [_ Hb].
    injection Heq as -> Heq.
    by destruct (IH b x y Ha Hb Heq) as [-> ->].
Qed.

Lemma no_early_filename c pre rest :
  Spec.lacks "=" (String c pre) = true →
  Str.after_prefix "filename="
    (Str.cat (String c pre) (Str.cat "filename=" rest)) = None.
Proof.
  intros Hpre.
  destruct (Str.after_prefix _ _) as [r|] eqn:Heq; [|done].
  exfalso. apply after_prefix_Some in Heq.
  change (Str.cat "filename=" rest)
    with (Str.cat "filename" (String "=" rest)) in Heq.
  change (Str.cat "filename=" r)
    with (Str.cat "filename" (String "=" r)) in Heq.
  rewrite <- cat_assoc in Heq.
  apply mark_unique in Heq as [Heq _]; [| |done].
  - apply (f_equal Str.len) in Heq. rewrite len_cat in Heq.
    unfold Str.len in Heq. simpl in Heq. lia.
  - by rewrite lacks_cat, Hpre.
Qed.

Lemma first_filename_cat pre rest :
  Spec.lacks "=" pre = true → rest_of_line rest ≠ EmptyString →
  first_filename (Str.cat pre (Str.cat "filename=" rest))
  = Some (rest_of_line rest).
Proof.
  intros Hpre Hrest. induction pre as [|c pre IH].
  - change (first_filename (String "f" (Str.cat "ilename=" rest))
            = Some (rest_of_line rest)).
    rewrite first_filename_cons.
    change (String "f" (Str.cat "ilename=" rest))
      with (Str.cat "filename=" rest).
    rewrite after_prefix_cat. by destruct (rest_of_line rest).
  - change (first_filename
              (String c (Str.cat pre (Str.cat "filename=" rest)))
            = Some (rest_of_line rest)).
    rewrite first_filename_cons.
    change (String c (Str.cat pre (Str.cat "filename=" rest)))
      with (Str.cat (String c pre) (Str.cat "filename=" rest)).
    rewrite (no_early_filename c pre rest Hpre). apply IH.
    cbn [Spec.lacks] in Hpre. by apply andb_true_iff in Hpre as [_ ?].
Qed.

(** X17. A header that gives the name after the first '=' in it, as
    'filename=' and the name, bare or between quotes, to the end of the
    header, gives the name back: for every name that has a character,
    no line feed, and no quote at its ends. *)
Theorem get_filename_from_cd_round_trip (pre name : string) :
  Spec.lacks "=" pre = true →
  name ≠ EmptyString →
  Spec.lacks Str.LF name = true →
  Str.strip_by (Ascii.eqb QUOTE) name = name →
  get_filename_from_cd
    (Some (Str.cat pre (Str.cat "filename=" name))) = Some name ∧
  get_filename_from_cd
    (Some (Str.cat pre (Str.cat "filename="
       (String QUOTE (Str.cat name (String QUOTE EmptyString))))))
  = Some name.
Proof.
  intros Hpre Hname Hline Hbare. split.
  - rewrite get_filename_from_cd_Some, first_filename_cat; [|done|].
    + by rewrite rest_of_line_id, Hbare.
    + by rewrite rest_of_line_id.
  - assert (rest_of_line (String QUOTE (Str.cat name (String QUOTE EmptyString)))
            = String QUOTE (Str.cat name (String QUOTE EmptyString))) as Hid.
    { apply rest_of_line_id.
      change (Spec.lacks Str.LF (Str.cat (String QUOTE name)
                                         (String QUOTE EmptyString)) = true).
      rewrite lacks_cat. cbn [Spec.lacks]. by rewrite Hline. }
    rewrite get_filename_from_cd_Some, first_filename_cat; [|done|].
    + rewrite Hid, strip_by_cons by done. unfold Str.strip_by.
      rewrite rstrip_by_snoc by done. by f_equal.
    + by rewrite Hid.
Qed.

Lemma get_filename_from_cd_round_trip_witness :
  get_filename_from_cd (Some "attachment; filename=report.pdf")
  = Some "report.pdf" ∧
  get_filename_from_cd
    (Some (Str.cat "attachment; filename="
       (String QUOTE (Str.cat "report.pdf" (String QUOTE EmptyString)))))
  = Some "report.pdf".
Proof.
  apply (get_filename_from_cd_round_trip "attachment; " "report.pdf");
    [reflexivity|discriminate|reflexivity|reflexivity].
Defined.

Lemma lstrip_rstrip_empty p s :
  Str.lstrip_by p (Str.rstrip_by p s) = EmptyString ↔
  Str.rstrip_by p s = EmptyString.
Proof.
  induction s as [|c s IH]; [done|]. rewrite rstrip_by_cons.
  destruct (Str.rstrip_by p s) as [|d t].
  - destruct (p c) eqn:Hc; [done|]. cbn [Str.lstrip_by]. by rewrite Hc.
  - cbn [Str.lstrip_by]. destruct (p c); [|done].
    split; [|done]. intros Hempty. by apply IH in Hempty.
Qed.

Lemma rstrip_empty s :
  Str.rstrip_by Str.isspace s = EmptyString ↔ Spec.solid s = EmptyString.
Proof.
  induction s as [|c s IH]; [done|]. rewrite rstrip_by_cons.
  cbn [Spec.solid].
  destruct (Str.rstrip_by Str.isspace s) as [|d t].
  - destruct (Str.isspace c); [|done]. split; [intros _; by apply IH|done].
  - destruct (Str.isspace c); [|done].
    split; [done|]. intros Hsolid. by apply IH in Hsolid.
Qed.

Lemma strip_empty s :
  Str.strip s = EmptyString ↔ Spec.solid s = EmptyString.
Proof.
  unfold Str.strip, Str.strip_by. rewrite lstrip_rstrip_empty.
  apply rstrip_empty.
Qed.

(** X18. [links] holds, in the order of the file, the lines that have a
    character other than white space, each without the white space at
    its ends: no link is empty, and stripping a link changes nothing. *)
Theorem links_are_stripped_lines (lines : list string) :
  links lines
  = map Str.strip (filter (fun line => Spec.solid line ≠ EmptyString) lines)
  ∧ Forall (fun link => link ≠ EmptyString ∧ Str.strip link = link)
           (links lines).
Proof.
  unfold links. split.
  - f_equal. apply list_filter_iff. intros line.
    by rewrite strip_empty.
  - apply Forall_forall. intros link Hlink.
    apply list_elem_of_fmap in Hlink as (line & -> & Hline).
    apply list_elem_of_filter in Hline as [Hline _].
    split; [done|]. apply strip_by_idem.
Qed.

(** ** RiceFilter: the header window and the rows *)

Lemma escape_cat a b : escape (Str.cat a b) = Str.cat (escape a) (escape b).
Proof.
  induction a as [|c a IH]; [done|]. cat_cons. cbn [escape].
  by rewrite IH, cat_assoc.
Qed.

Lemma lower_escape_char c :
  Str.lower (escape_char c) = escape_char (Str.lower_char c).
Proof. by destruct c as [[] [] [] [] [] [] [] []]. Qed.

Lemma lower_escape s : Str.lower (escape s) = escape (Str.lower s).
Proof.
  induction s as [|c s IH]; [done|]. cbn [escape Str.lower].
  by rewrite lower_cat, IH, lower_escape_char.
Qed.

Lemma within_escape sub x :
  escape sub = sub → Spec.within sub x → Spec.within sub (escape x).
Proof.
  intros Hplain (a & b & ->). rewrite !escape_cat, Hplain. by eexists _, _.
Qed.

Lemma formatted_column_lookup values i j label row text :
  values !! i = Some row → row !! j = Some (Some text) →
  ∃ w, formatted_column values j label !! S i
       = Some (Str.rjust w (String Str.SPACE (escape text))).
Proof.
  intros Hrow Hcell. unfold formatted_column. cbv zeta. eexists.
  rewrite lookup_cons_ne_0 by done. cbn [Nat.pred].
  rewrite !list_lookup_fmap, Hrow. cbn [fmap option_fmap option_map].
  by rewrite (nth_lookup_Some _ _ _ _ Hcell).
Qed.

(** the text of every cell is in the rendering of the frame *)
Lemma cell_within_to_string df i j row text :
  wf df → rows df !! i = Some row → row !! j = Some (Some text) →
  Spec.within (escape text) (to_string df).
Proof.
  intros Hwf Hrow Hcell.
  assert (i < nrows df) as Hi by (by apply lookup_lt_Some in Hrow).
  assert (j < ncols df) as Hj.
  { rewrite <- (Forall_lookup_1 _ _ _ _ Hwf Hrow).
    by apply lookup_lt_Some in Hcell. }
  unfold to_string, render. rewrite !length_seq.
  destruct ((nrows df =? 0) || (ncols df =? 0)) eqn:Hdeg.
  { apply orb_true_iff in Hdeg as [?%Nat.eqb_eq|?%Nat.eqb_eq]; lia. }
  unfold adjoin. cbv zeta.
  set (padded := imap _ (strcols _ _ _)).
  destruct (formatted_column_lookup (rows df) i j j row text Hrow Hcell)
    as [w' Hfmt].
  assert (∃ w, padded !! S j
               = Some (map (Str.ljust w) (formatted_column (rows df) j j)))
    as [w Hpad].
  { unfold padded. rewrite list_lookup_imap. unfold strcols.
    rewrite lookup_cons_ne_0 by done. cbn [Nat.pred].
    rewrite list_lookup_imap, lookup_seq_lt by done.
    cbn [fmap option_fmap option_map]. by eexists. }
  apply within_trans
    with (Str.join EmptyString (map (fun lst => nth (S i) lst EmptyString) padded)).
  - apply within_trans
      with (Str.ljust w (Str.rjust w' (String Str.SPACE (escape text)))).
    + apply within_trans with (Str.rjust w' (String Str.SPACE (escape text))).
      * apply within_trans with (String Str.SPACE (escape text)).
        -- apply (within_cat_l _ (String Str.SPACE EmptyString)).
        -- apply within_cat_l.
      * apply within_cat_r.
    + apply within_join. apply (list_elem_of_lookup_2 _ (S j)).
      rewrite list_lookup_fmap, Hpad. cbn [fmap option_fmap option_map].
      f_equal. apply nth_lookup_Some.
      by rewrite list_lookup_fmap, Hfmt.
  - apply within_join.
    apply (list_elem_of_fmap_2
             (fun k => Str.join EmptyString
                         (map (fun lst => nth k lst EmptyString) padded))).
    apply elem_of_seq. lia.
Qed.

Lemma lower_join sep l :
  Str.lower (Str.join sep l) = Str.join (Str.lower sep) (map Str.lower l).
Proof.
  induction l as [|x l IH]; [done|]. destruct l as [|y l]; [done|].
  rewrite join_cons_cons, !lower_cat, IH. done.
Qed.

Lemma prefix_cat_sep c sub : ∀ a b,
  Spec.lacks c sub = true →
  String.prefix sub (Str.cat a (String c b)) = true →
  String.prefix sub a = true.
Proof.
  induction sub as [|e sub IH]; intros a b Hsub Hpre; [by destruct a|].
  cbn [Spec.lacks] in Hsub. apply andb_true_iff in Hsub as [He Hsub].
  destruct a as [|d a]; cat_cons; simpl in Hpre |- *.
  - destruct (ascii_dec e c) as [->|]; [|done].
    by rewrite Ascii.eqb_refl in He.
  - destruct (ascii_dec e d); [|done]. by apply (IH a b).
Qed.

Lemma contains_cat_sep c sub a b :
  Spec.lacks c sub = true → sub ≠ EmptyString →
  Str.contains sub (Str.cat a (String c b)) = true →
  Str.contains sub a = true ∨ Str.contains sub b = true.
Proof.
  intros Hsub Hne. induction a as [|d a IH]; cat_cons.
  - rewrite contains_cons. intros [Hpre|Hin]%orb_true_iff; [|by right].
    apply (prefix_cat_sep c sub EmptyString b Hsub) in Hpre.
    by destruct sub.
  - rewrite !contains_cons. intros [Hpre|Hin]%orb_true_iff.
    + left. change (String d (Str.cat a (String c b)))
        with (Str.cat (String d a) (String c b)) in Hpre.
      by rewrite (prefix_cat_sep c sub _ _ Hsub Hpre).
    + destruct (IH Hin) as [Ha|Hb]; [left|by right].
      rewrite Ha. apply orb_true_r.
Qed.

Lemma contains_join_space sub l :
  Spec.lacks " " sub = true → sub ≠ EmptyString →
  Str.contains sub (Str.join " " l) = true →
  ∃ x, x ∈ l ∧ Str.contains sub x = true.
Proof.
  intros Hsub Hne. induction l as [|x l IH].
  - intros Hin. by destruct sub.
  - destruct l as [|y l].
    + intros Hin. exists x. split; [apply list_elem_of_here|done].
    + rewrite join_cons_cons.
      intros [Hx|Hrest]%contains_cat_sep; [| |done..].
      * exists x. split; [apply list_elem_of_here|done].
      * destruct (IH Hrest) as (z & Hz & Hin).
        exists z. split; [by apply list_elem_of_further|done].
Qed.

Lemma cell_holds_marker sub row :
  Spec.lacks " " sub = true → sub ≠ EmptyString →
  Str.contains sub (row_text row) = true →
  ∃ text, Some text ∈ row ∧ Str.contains sub (Str.lower text) = true.
Proof.
  intros Hsub Hne Hin. unfold row_text in Hin. rewrite lower_join in Hin.
  apply contains_join_space in Hin as (x & Hx & Hin); [|done..].
  apply list_elem_of_fmap in Hx as (text & -> & Htext).
  apply list_elem_of_omap in Htext as (v & Hv & Htext). simpl in Htext.
  subst v. by exists text.
Qed.

Lemma cell_within_header_chunk sub df i row cell :
  wf df → escape sub = sub → i < 20 →
  rows df !! i = Some row → Some cell ∈ row →
  Str.contains sub (Str.lower cell) = true →
  Str.contains sub (header_chunk df) = true.
Proof.
  intros Hwf Hplain Hi Hrow [j Hcell]%list_elem_of_lookup_1 Hin.
  apply contains_within. apply contains_within in Hin.
  unfold header_chunk.
  apply within_trans with (Str.lower (escape cell)).
  - rewrite lower_escape. by apply within_escape.
  - apply within_lower.
    apply (cell_within_to_string (head 20 df) i j row cell); [| |done].
    + unfold wf, head. simpl. by apply Forall_take.
    + unfold head. simpl. by rewrite lookup_take_lt.
Qed.

Lemma trust_the_label_scan df :
  wf df →
  trust_the_label df = label_scan (take (Nat.min 20 (nrows df)) (rows df)).
Proof.
  intros Hwf. unfold trust_the_label.
  destruct (Str.contains "commodity" (header_chunk df)) eqn:Hgate; [done|].
  symmetry. apply label_scan_unlabelled, Forall_forall. intros row Hrow.
  apply list_elem_of_lookup_1 in Hrow as [i Hrow].
  rewrite top_rows_lookup in Hrow. case_decide as Hi; [|done].
  destruct (Spec.labelled row) eqn:Hlab; [|done]. exfalso.
  unfold Spec.labelled in Hlab.
  apply cell_holds_marker in Hlab as (cell & Hcell & Hin); [|done..].
  rewrite (cell_within_header_chunk "commodity" df i row cell) in Hgate; done.
Qed.

Lemma label_scan_first_row df i row :
  Spec.first_row (fun r => Spec.labelled r && Spec.names_crop r) df i row →
  label_scan (take (Nat.min 20 (nrows df)) (rows df))
  = Some (Str.contains "rice" (row_text row)).
Proof.
  intros (Hi & Hrow & Hd & Hfirst).
  pose proof (label_scan_cases (take (Nat.min 20 (nrows df)) (rows df))) as Hscan.
  destruct (label_scan _) as [v|].
  - destruct Hscan as (i' & row' & Hi' & Hd' & -> & Hfirst').
    rewrite top_rows_lookup in Hi'. case_decide as Hlt; [|done].
    destruct (Nat.lt_trichotomy i i') as [Hlt'|[->|Hgt]].
    + specialize (Hfirst' i row Hlt'). rewrite top_rows_lookup in Hfirst'.
      case_decide; [|lia]. rewrite (Hfirst' Hrow) in Hd. done.
    + by simplify_eq.
    + rewrite (Hfirst i' row' Hgt Hi') in Hd'. done.
  - specialize (Hscan i row). rewrite top_rows_lookup in Hscan.
    case_decide; [|lia]. rewrite (Hscan Hrow) in Hd. done.
Qed.

(** X19. On a rectangular frame the test of the header window for
    'commodity' never stops the row scan of priority 1: the text the
    window renders to holds the text of every cell of the first 20
    rows.  So the first row, among the first 20, that holds the marker
    and names a crop decides the verdict of [is_strictly_rice_table],
    with no condition on the header window. *)
Theorem marker_rows_decide_in_grids (df : DataFrame) :
  wf df →
  trust_the_label df = label_scan (take (Nat.min 20 (nrows df)) (rows df)) ∧
  ∀ i row,
    Spec.first_row (fun r => Spec.labelled r && Spec.names_crop r) df i row →
    is_strictly_rice_table df = Str.contains "rice" (row_text row).
Proof.
  intros Hwf. split; [by apply trust_the_label_scan|].
  intros i row Hfirst. unfold is_strictly_rice_table.
  by rewrite trust_the_label_scan, (label_scan_first_row df i row).
Qed.

Lemma marker_rows_decide_in_grids_witness :
  wf Examples.label_on_later_row ∧
  trust_the_label Examples.label_on_later_row
  = label_scan (take (Nat.min 20 (nrows Examples.label_on_later_row))
                     (rows Examples.label_on_later_row)).
Proof.
  assert (wf Examples.label_on_later_row) as Hwf by (repeat constructor).
  split; [exact Hwf|].
  exact (proj1 (marker_rows_decide_in_grids Examples.label_on_later_row Hwf)).
Defined.

(** X20. A rectangular frame with the word corn or wheat in a cell of
    its first 20 rows is kept by [is_strictly_rice_table] only on the
    word of a label row: a row among the first 20 that holds the marker
    and names rice, with no row before it that holds the marker and
    names a crop. *)
Theorem other_crops_need_a_label
    (df : DataFrame) (i : nat) (row : list cell) (text : string) :
  wf df → i < 20 → rows df !! i = Some row → Some text ∈ row →
  Str.contains "corn" (Str.lower text) = true
  ∨ Str.contains "wheat" (Str.lower text) = true →
  is_strictly_rice_table df = true →
  ∃ k label_row,
    Spec.first_row (fun r => Spec.labelled r && Spec.names_crop r)
                   df k label_row ∧
    Str.contains "rice" (row_text label_row) = true.
Proof.
  intros Hwf Hi Hrow Hcell Hcrop Hkept.
  unfold is_strictly_rice_table in Hkept.
  rewrite trust_the_label_scan in Hkept by done.
  pose proof (label_scan_cases (take (Nat.min 20 (nrows df)) (rows df))) as Hscan.
  destruct (label_scan _) as [v|].
  - subst v. destruct Hscan as (k & label_row & Hk & Hd & Hrice & Hfirst).
    rewrite top_rows_lookup in Hk. case_decide as Hlt; [|done].
    exists k, label_row. split; [|done].
    split; [done|]. split; [done|]. split; [done|].
    intros j row' Hj Hrow'. apply (Hfirst j row' Hj).
    rewrite top_rows_lookup. case_decide; [done|lia].
  - exfalso. unfold inspect_unlabeled in Hkept.
    destruct (is_narrative_text df); [done|].
    destruct (negb (is_valid_data_structure df)); [done|].
    destruct Hcrop as [Hcorn|Hwheat].
    + rewrite (cell_within_header_chunk "corn" df i row text) in Hkept by done.
      by rewrite andb_false_r in Hkept.
    + rewrite (cell_within_header_chunk "wheat" df i row text) in Hkept by done.
      by rewrite orb_true_r, andb_false_r in Hkept.
Qed.

Lemma other_crops_need_a_label_witness :
  ∃ k label_row,
    Spec.first_row (fun r => Spec.labelled r && Spec.names_crop r)
                   Examples.label_on_later_row k label_row ∧
    Str.contains "rice" (row_text label_row) = true.
Proof.
  apply (other_crops_need_a_label
           Examples.label_on_later_row 2 (texts ["corn"]) "corn").
  - repeat constructor.
  - lia.
  - reflexivity.
  - apply list_elem_of_here.
  - left. reflexivity.
  - vm_compute. reflexivity.
Defined.

Lemma max_len_le l n :
  Str.max_len l ≤ n ↔ Forall (fun s => Str.len s ≤ n) l.
Proof.
  induction l as [|s l IH]; simpl.
  - split; [constructor|lia].
  - rewrite Forall_cons, <- IH. unfold Str.max_len. lia.
Qed.

(** X21. The cell length check of [is_valid_data_structure] passes a
    rectangular frame exactly when no cell of its first five columns is
    longer than 100 characters; cells of later columns are not read. *)
Theorem cell_length_ok_cells (df : DataFrame) :
  wf df →
  cell_length_ok df = true ↔
  ∀ row j text, row ∈ rows df → j < 5 → row !! j = Some (Some text) →
    Str.len text ≤ 100.
Proof.
  intros Hwf. unfold wf in Hwf. rewrite Forall_forall in Hwf.
  unfold cell_length_ok. rewrite forallb_forall.
  assert (ncols (first_cols 5 df) = Nat.min 5 (ncols df)) as -> by done.
  assert (∀ c, column (first_cols 5 df) c
               = map (fun r => nth c (take 5 r) None) (rows df)) as Hcolumn.
  { intros c. unfold column, first_cols. simpl. by rewrite map_map. }
  split.
  - intros Hok row j text Hrow Hj Htext.
    assert (j < ncols df) as Hcol.
    { rewrite <- (Hwf row Hrow). by apply lookup_lt_Some in Htext. }
    specialize (Hok j). rewrite in_seq in Hok.
    assert (negb (100 <? Str.max_len (present (column (first_cols 5 df) j)))
            = true) as Hmax by (apply Hok; lia).
    apply negb_true_iff, Nat.ltb_ge, max_len_le in Hmax.
    rewrite Forall_forall in Hmax. apply Hmax.
    apply list_elem_of_omap. exists (Some text). split; [|done].
    rewrite Hcolumn. apply list_elem_of_fmap. exists row. split; [|done].
    symmetry. apply nth_lookup_Some. by rewrite lookup_take_lt.
  - intros Hcells c Hc. apply in_seq in Hc.
    apply negb_true_iff, Nat.ltb_ge, max_len_le, Forall_forall.
    intros s Hs. apply list_elem_of_omap in Hs as (v & Hv & Hs).
    simpl in Hs. subst v. rewrite Hcolumn in Hv.
    apply list_elem_of_fmap in Hv as (row & Hv & Hrow).
    destruct (lookup_lt_is_Some_2 row c) as [cell Hcell];
      [rewrite (Hwf row Hrow); lia|].
    rewrite (nth_lookup_Some _ _ _ cell) in Hv
      by (rewrite lookup_take_lt; [done|lia]).
    subst cell. apply (Hcells row c s); [done|lia|done].
Qed.

Lemma cell_length_ok_cells_witness :
  wf Examples.two_percent ∧
  (cell_length_ok Examples.two_percent = true ↔
   ∀ row j text, row ∈ rows Examples.two_percent → j < 5 →
     row !! j = Some (Some text) → Str.len text ≤ 100).
Proof.
  assert (wf Examples.two_percent) as Hwf by (repeat constructor).
  split; [exact Hwf|].
  exact (cell_length_ok_cells Examples.two_percent Hwf).
Defined.
